(** * Chat-log downloader and log-to-table parser

    A shallow embedding of [download_logsivr.py] and
    [csv_conversion_script.py].  Python values are modelled as follows:
    - [str] is a list of Unicode code points ([pystr]);
    - [int] is [Z];
    - a naive [datetime] is a record of its calendar and clock fields;
    - a call that can raise returns an [outcome];
    - the interpreter's libraries ([datetime], [re], [requests],
      [ratelimit], [threading]) are modelled by the behaviour their
      documentation and reference implementation give them. *)

From Stdlib Require Import ZArith NArith List Lia Bool String Ascii Permutation Sorted.
From stdpp Require Import base option list gmap.

Import ListNotations.
#[local] Open Scope Z_scope.

(* ===================================================================== *)
(** ** Strings                                                            *)
(* ===================================================================== *)

(** A Python [str]: a sequence of code points. *)
Abbreviation pystr := (list N).

(** A literal: [py "abc"] is the Python string ['abc']. *)
Fixpoint py (s : string) : pystr :=
  match s with
  | EmptyString => []
  | String a s' => N_of_ascii a :: py s'
  end.

(** The part of the Unicode character database that the regular
    expressions, [int()] and [repr] consult outside ASCII.  It is not
    reproduced here; every definition below is parametric in it. *)
Record ucd := {
  ucd_space : N -> bool;          (* str.isspace, regex \s *)
  ucd_alnum : N -> bool;          (* str.isalnum, the letters of regex \w *)
  ucd_decimal : N -> option (fin 10);
                                  (* value of a decimal digit, regex \d *)
  ucd_printable : N -> bool       (* str.isprintable *)
}.

(** A database in which no character outside ASCII belongs to a class. *)
Definition ascii_only : ucd :=
  {| ucd_space := fun _ => false;
     ucd_alnum := fun _ => false;
     ucd_decimal := fun _ => None;
     ucd_printable := fun _ => false |}.

Definition in_range (lo hi c : N) : bool := ((lo <=? c) && (c <=? hi))%N.

(** [str.isspace] of one character; in ASCII these are tab, LF, VT, FF, CR,
    the four separators FS GS RS US, and the space. *)
Definition isspace (U : ucd) (c : N) : bool :=
  if (c <? 128)%N then in_range 9 13 c || in_range 28 31 c || (c =? 32)%N
  else ucd_space U c.

(** Value of a decimal digit, [None] for any other character. *)
Definition decimal (U : ucd) (c : N) : option Z :=
  if (c <? 128)%N then
    if in_range 48 57 c then Some (Z.of_N c - 48) else None
  else (fun v => Z.of_nat (fin_to_nat v)) <$> ucd_decimal U c.

(** Regex [\w]: alphanumeric or underscore. *)
Definition isword (U : ucd) (c : N) : bool :=
  if (c <? 128)%N then
    in_range 48 57 c || in_range 65 90 c || in_range 97 122 c || (c =? 95)%N
  else ucd_alnum U c.

(** [s.strip()] *)
Fixpoint lstrip (U : ucd) (s : pystr) : pystr :=
  match s with
  | c :: s' => if isspace U c then lstrip U s' else s
  | [] => []
  end.

Definition rstrip (U : ucd) (s : pystr) : pystr := rev (lstrip U (rev s)).

Definition strip (U : ucd) (s : pystr) : pystr := rstrip U (lstrip U s).

(** [s.startswith(pre)] and [needle in haystack]. *)
Fixpoint startswith (s pre : pystr) : bool :=
  match pre, s with
  | [], _ => true
  | p :: pre', c :: s' => (p =? c)%N && startswith s' pre'
  | _ :: _, [] => false
  end.

Fixpoint contains (needle haystack : pystr) : bool :=
  startswith haystack needle ||
  match haystack with
  | [] => false
  | _ :: h' => contains needle h'
  end.

(** Decimal rendering with zero padding, as [%02d] and [%04d]. *)
Definition digit (d : Z) : N := Z.to_N (48 + d mod 10).

Definition pad2 (n : Z) : pystr := [digit (n / 10); digit n].

Definition pad4 (n : Z) : pystr :=
  [digit (n / 1000); digit (n / 100); digit (n / 10); digit n].

(* ===================================================================== *)
(** ** Exceptions and outcomes                                            *)
(* ===================================================================== *)

(** The exception classes the two scripts can meet.  [RequestException]
    stands for [requests.exceptions.RequestException] and its subclasses
    ([HTTPError], [ConnectionError], ...); [OSError] for an [OSError] that
    is not one of those; [OtherError] for any other subclass of
    [Exception]; [RateLimitException] is the one of the [ratelimit]
    package.  The first argument is [str(e)]. *)
Inductive exn :=
| ValueError (msg : pystr)
| OverflowError (msg : pystr)
| RequestException (msg : pystr)
| OSError (msg : pystr)
| OtherError (msg : pystr)
| RateLimitException (msg : pystr) (period_remaining : Z)
| KeyboardInterrupt.

(** [str(e)] *)
Definition str_exn (e : exn) : pystr :=
  match e with
  | ValueError m | OverflowError m | RequestException m
  | OSError m | OtherError m | RateLimitException m _ => m
  | KeyboardInterrupt => []
  end.

(** [isinstance(e, requests.exceptions.RequestException)] *)
Definition is_RequestException (e : exn) : bool :=
  match e with RequestException _ => true | _ => false end.

(** [isinstance(e, ValueError)] *)
Definition is_ValueError (e : exn) : bool :=
  match e with ValueError _ => true | _ => false end.

(** [isinstance(e, Exception)]: everything but the interrupt, which derives
    from [BaseException] directly. *)
Definition is_Exception (e : exn) : bool :=
  match e with KeyboardInterrupt => false | _ => true end.

(** What a call does: it returns, it raises, or it never comes back (a
    loop that exhausted the fuel of the model, or a thread blocked for
    ever). *)
Inductive outcome (A : Type) :=
| Returned (a : A)
| Raised (e : exn)
| Diverged.
Arguments Returned {A} a.
Arguments Raised {A} e.
Arguments Diverged {A}.

#[export] Instance outcome_ret : MRet outcome := fun A a => Returned a.
#[export] Instance outcome_bind : MBind outcome := fun A B f m =>
  match m with
  | Returned a => f a
  | Raised e => Raised e
  | Diverged => Diverged
  end.

(* ===================================================================== *)
(** ** The calendar of [datetime]                                         *)
(* ===================================================================== *)

(** The proleptic Gregorian calendar, with the names and the arithmetic
    of the library's Python implementation. *)

Definition MINYEAR : Z := 1.
Definition MAXYEAR : Z := 9999.
(** [date.max.toordinal()] *)
Definition MAXORDINAL : Z := 3652059.

Record datetime := mk_datetime {
  year : Z; month : Z; day : Z;
  hour : Z; minute : Z; second : Z
}.

Definition is_leap (y : Z) : bool :=
  (y mod 4 =? 0) && (negb (y mod 100 =? 0) || (y mod 400 =? 0)).

Definition days_before_year (y : Z) : Z :=
  let y' := y - 1 in y' * 365 + y' / 4 - y' / 100 + y' / 400.

Definition DAYS_IN_MONTH (m : Z) : Z :=
  match m with
  | 1 => 31 | 2 => 28 | 3 => 31 | 4 => 30 | 5 => 31 | 6 => 30
  | 7 => 31 | 8 => 31 | 9 => 30 | 10 => 31 | 11 => 30 | 12 => 31
  | _ => -1
  end.

Definition DAYS_BEFORE_MONTH (m : Z) : Z :=
  match m with
  | 1 => 0 | 2 => 31 | 3 => 59 | 4 => 90 | 5 => 120 | 6 => 151
  | 7 => 181 | 8 => 212 | 9 => 243 | 10 => 273 | 11 => 304 | 12 => 334
  | _ => -1
  end.

Definition days_in_month (y m : Z) : Z :=
  if (m =? 2) && is_leap y then 29 else DAYS_IN_MONTH m.

Definition days_before_month (y m : Z) : Z :=
  DAYS_BEFORE_MONTH m + (if (2 <? m) && is_leap y then 1 else 0).

Definition ymd2ord (y m d : Z) : Z :=
  days_before_year y + days_before_month y m + d.

(** Days in 400, 100 and 4 years. *)
Definition DI400Y : Z := 146097.
Definition DI100Y : Z := 36524.
Definition DI4Y : Z := 1461.

Definition ord2ymd (n : Z) : Z * Z * Z :=
  let n := n - 1 in
  let n400 := n / DI400Y in let n := n mod DI400Y in
  let y := n400 * 400 + 1 in
  let n100 := n / DI100Y in let n := n mod DI100Y in
  let n4 := n / DI4Y in let n := n mod DI4Y in
  let n1 := n / 365 in let n := n mod 365 in
  let y := y + n100 * 100 + n4 * 4 + n1 in
  if (n1 =? 4) || (n100 =? 4) then (y - 1, 12, 31)
  else
    let leapyear := (n1 =? 3) && (negb (n4 =? 24) || (n100 =? 3)) in
    let m := Z.shiftr (n + 50) 5 in
    let preceding := DAYS_BEFORE_MONTH m + (if (2 <? m) && leapyear then 1 else 0) in
    if n <? preceding then
      let m' := m - 1 in
      let preceding' :=
        preceding - (DAYS_IN_MONTH m' + (if (m' =? 2) && leapyear then 1 else 0)) in
      (y, m', n - preceding' + 1)
    else (y, m, n - preceding + 1).

Definition toordinal (t : datetime) : Z := ymd2ord (year t) (month t) (day t).

(** The fields a [datetime] object can hold. *)
Definition valid_datetime (t : datetime) : Prop :=
  MINYEAR <= year t <= MAXYEAR /\
  1 <= month t <= 12 /\
  1 <= day t <= days_in_month (year t) (month t) /\
  0 <= hour t <= 23 /\ 0 <= minute t <= 59 /\ 0 <= second t <= 59.

(** [t + timedelta(days=k)]: the day is found through the ordinal, and a
    result outside years 1 to 9999 is an [OverflowError]. *)
Definition add_days (t : datetime) (k : Z) : outcome datetime :=
  let o := toordinal t + k in
  if (0 <? o) && (o <=? MAXORDINAL) then
    let '(y, m, d) := ord2ymd o in
    Returned (mk_datetime y m d (hour t) (minute t) (second t))
  else Raised (OverflowError (py "date value out of range")).

(** Comparison of naive datetimes is lexicographic on the fields. *)
Definition datetime_key (t : datetime) : list Z :=
  [year t; month t; day t; hour t; minute t; second t].

Fixpoint lex_le (a b : list Z) : bool :=
  match a, b with
  | x :: a', y :: b' => (x <? y) || ((x =? y) && lex_le a' b')
  | [], _ => true
  | _ :: _, [] => false
  end.

Definition datetime_le (a b : datetime) : bool :=
  lex_le (datetime_key a) (datetime_key b).

(** [(b - a).days] for two datetimes at the same time of day. *)
Definition days_between (a b : datetime) : Z := toordinal b - toordinal a.

(** [t.strftime("%Y-%m-%d")], the year on four digits as the library
    documents it.  (The C library of some platforms leaves out the leading
    zeros of a year before 1000; the round trips through [strptime] are
    stated for the years from 1000 on.) *)
Definition strftime_Ymd (t : datetime) : pystr :=
  pad4 (year t) ++ py "-" ++ pad2 (month t) ++ py "-" ++ pad2 (day t).

(* ===================================================================== *)
(** ** [datetime.strptime]                                                 *)
(* ===================================================================== *)

(** One character position of a directive's regular expression. *)
Inductive cclass :=
| CRange (lo hi : N)      (* [lo-hi] over the ASCII digits *)
| CDigit                  (* \d *)
| CBlank.                 (* a literal space *)

(** [None]: the character does not match; [Some None]: it matches and
    carries no digit; [Some (Some v)]: it matches with digit value [v]. *)
Definition class_value (U : ucd) (cl : cclass) (c : N) : option (option Z) :=
  match cl with
  | CRange lo hi => if in_range lo hi c then Some (decimal U c) else None
  | CDigit => match decimal U c with Some v => Some (Some v) | None => None end
  | CBlank => if (c =? 32)%N then Some None else None
  end.

(** Match one alternative at the head of [s]; the digits read so far
    accumulate as [int()] would read them. *)
Fixpoint alt_match (U : ucd) (alt : list cclass) (s : pystr) (acc : Z)
  : option (Z * pystr) :=
  match alt with
  | [] => Some (acc, s)
  | cl :: alt' =>
      match s with
      | [] => None
      | c :: s' =>
          match class_value U cl c with
          | None => None
          | Some None => alt_match U alt' s' acc
          | Some (Some v) => alt_match U alt' s' (acc * 10 + v)
          end
      end
  end.

(** Alternation with backtracking: the first alternative after which the
    rest of the pattern, [k], still matches. *)
Fixpoint first_alt {R : Type} (U : ucd) (alts : list (list cclass)) (s : pystr)
  (k : Z -> pystr -> option R) : option R :=
  match alts with
  | [] => None
  | alt :: alts' =>
      match alt_match U alt s 0 with
      | Some (v, rest) =>
          match k v rest with
          | Some r => Some r
          | None => first_alt U alts' s k
          end
      | None => first_alt U alts' s k
      end
  end.

Inductive tm_field := TY | Tm | Td | TH | TM | TS.

(** A single ASCII digit: ['0'] is 48, ['9'] is 57. *)
Definition one (c : N) : cclass := CRange c c.

(** The regular expressions of [_strptime.TimeRE]:
    - [%Y] is [\d\d\d\d];
    - [%m] is [1[0-2]|0[1-9]|[1-9]];
    - [%d] is [3[0-1]|[1-2]\d|0[1-9]|[1-9]| [1-9]];
    - [%H] is [2[0-3]|[0-1]\d|\d];
    - [%M] is [[0-5]\d|\d];
    - [%S] is [6[0-1]|[0-5]\d|\d]. *)
Definition directive_alts (f : tm_field) : list (list cclass) :=
  match f with
  | TY => [[CDigit; CDigit; CDigit; CDigit]]
  | Tm => [[one 49; CRange 48 50]; [one 48; CRange 49 57]; [CRange 49 57]]
  | Td => [[one 51; CRange 48 49]; [CRange 49 50; CDigit];
           [one 48; CRange 49 57]; [CRange 49 57]; [CBlank; CRange 49 57]]
  | TH => [[one 50; CRange 48 51]; [CRange 48 49; CDigit]; [CDigit]]
  | TM => [[CRange 48 53; CDigit]; [CDigit]]
  | TS => [[one 54; CRange 48 49]; [CRange 48 53; CDigit]; [CDigit]]
  end.

Inductive fmt_item :=
| Directive (f : tm_field)
| Literal (c : N)
| Whitespace.               (* white space in a format matches \s+ *)

Record tm := mk_tm {
  tm_Y : Z; tm_m : Z; tm_d : Z; tm_H : Z; tm_M : Z; tm_S : Z
}.

(** Fields the format does not mention default to 1900-01-01 00:00:00. *)
Definition tm_default : tm := mk_tm 1900 1 1 0 0 0.

Definition tm_set (f : tm_field) (v : Z) (t : tm) : tm :=
  match f with
  | TY => mk_tm v (tm_m t) (tm_d t) (tm_H t) (tm_M t) (tm_S t)
  | Tm => mk_tm (tm_Y t) v (tm_d t) (tm_H t) (tm_M t) (tm_S t)
  | Td => mk_tm (tm_Y t) (tm_m t) v (tm_H t) (tm_M t) (tm_S t)
  | TH => mk_tm (tm_Y t) (tm_m t) (tm_d t) v (tm_M t) (tm_S t)
  | TM => mk_tm (tm_Y t) (tm_m t) (tm_d t) (tm_H t) v (tm_S t)
  | TS => mk_tm (tm_Y t) (tm_m t) (tm_d t) (tm_H t) (tm_M t) v
  end.

(** Length of the longest prefix of [s] whose characters satisfy [p]. *)
Fixpoint run (p : N -> bool) (s : pystr) : nat :=
  match s with
  | c :: s' => if p c then S (run p s') else O
  | [] => O
  end.

(** A greedy repetition gives characters back one at a time: try to go on
    after [n], [n-1], ..., [lo] characters.  The continuation receives the
    text matched and the rest of the string. *)
Fixpoint greedy {R : Type} (n lo : nat) (s : pystr)
  (k : pystr -> pystr -> option R) : option R :=
  if (n <? lo)%nat then None
  else
    match k (take n s) (drop n s) with
    | Some r => Some r
    | None => match n with O => None | S n' => greedy n' lo s k end
    end.

(** [p{lo,}] followed by [k]. *)
Definition rep_greedy {R : Type} (p : N -> bool) (lo : nat) (s : pystr)
  (k : pystr -> pystr -> option R) : option R :=
  greedy (run p s) lo s k.

(** [p*?] followed by [k]: the shortest repetition first. *)
Fixpoint rep_lazy {R : Type} (p : N -> bool) (s acc : pystr)
  (k : pystr -> pystr -> option R) : option R :=
  match k acc s with
  | Some r => Some r
  | None =>
      match s with
      | c :: s' => if p c then rep_lazy p s' (acc ++ [c]) k else None
      | [] => None
      end
  end.

(** One literal character followed by [k]. *)
Definition lit {R : Type} (c : N) (s : pystr) (k : pystr -> option R) : option R :=
  match s with
  | c' :: s' => if (c =? c')%N then k s' else None
  | [] => None
  end.

(** [format_regex.match(data_string)]: the fields found and what is left
    of the string. *)
Fixpoint match_fmt (U : ucd) (items : list fmt_item) (s : pystr) (acc : tm)
  : option (tm * pystr) :=
  match items with
  | [] => Some (acc, s)
  | Directive f :: items' =>
      first_alt U (directive_alts f) s
        (fun v rest => match_fmt U items' rest (tm_set f v acc))
  | Literal c :: items' =>
      lit c s (fun rest => match_fmt U items' rest acc)
  | Whitespace :: items' =>
      rep_greedy (isspace U) 1 s (fun _ rest => match_fmt U items' rest acc)
  end.

(** [str.isprintable] of one character; in ASCII these are the space and
    the characters up to the tilde. *)
Definition isprintable (U : ucd) (c : N) : bool :=
  if (c <? 128)%N then in_range 32 126 c else ucd_printable U c.

Definition backslash : N := 92.
Definition apostrophe : N := 39.
Definition dquote : N := 34.

(** A hexadecimal digit in lower case, and a number on [width] of them. *)
Definition hexdigit (d : N) : N := (if d <? 10 then 48 + d else 87 + d)%N.

Fixpoint hex (width : nat) (n : N) : pystr :=
  match width with
  | O => []
  | S width' => hex width' (n / 16) ++ [hexdigit (n mod 16)]
  end.

(** One character inside [repr]: the quote and the backslash are escaped;
    tab, line feed and carriage return are written with their letters; a
    character that is not printable is written [\xhh], [\uhhhh] or
    [\Uhhhhhhhh]. *)
Definition repr_char (U : ucd) (quote c : N) : pystr :=
  if (c =? quote)%N || (c =? backslash)%N then [backslash; c]
  else if (c =? 9)%N then [backslash; 116%N]
  else if (c =? 10)%N then [backslash; 110%N]
  else if (c =? 13)%N then [backslash; 114%N]
  else if isprintable U c then [c]
  else if (c <? 256)%N then backslash :: 120%N :: hex 2 c
  else if (c <? 65536)%N then backslash :: 117%N :: hex 4 c
  else backslash :: 85%N :: hex 8 c.

(** [repr] of a string.  The quote is the apostrophe, unless the string
    holds an apostrophe and no double quote. *)
Definition repr (U : ucd) (s : pystr) : pystr :=
  let quote :=
    if existsb (N.eqb apostrophe) s && negb (existsb (N.eqb dquote) s)
    then dquote else apostrophe in
  quote :: flat_map (repr_char U quote) s ++ [quote].

Record format := mk_format { fmt_text : pystr; fmt_items : list fmt_item }.

Definition slash : N := 47.
Definition dash : N := 45.
Definition colon : N := 58.

(** [str(n)] of an [int]. *)
Fixpoint uint_digits (u : Decimal.uint) : pystr :=
  match u with
  | Decimal.Nil => []
  | Decimal.D0 u => 48%N :: uint_digits u
  | Decimal.D1 u => 49%N :: uint_digits u
  | Decimal.D2 u => 50%N :: uint_digits u
  | Decimal.D3 u => 51%N :: uint_digits u
  | Decimal.D4 u => 52%N :: uint_digits u
  | Decimal.D5 u => 53%N :: uint_digits u
  | Decimal.D6 u => 54%N :: uint_digits u
  | Decimal.D7 u => 55%N :: uint_digits u
  | Decimal.D8 u => 56%N :: uint_digits u
  | Decimal.D9 u => 57%N :: uint_digits u
  end.

Definition str_int (n : Z) : pystr :=
  match Z.to_int n with
  | Decimal.Pos u => uint_digits u
  | Decimal.Neg u => dash :: uint_digits u
  end.

(** ["%d/%m/%Y"] *)
Definition fmt_dmY : format :=
  mk_format (py "%d/%m/%Y")
    [Directive Td; Literal slash; Directive Tm; Literal slash; Directive TY].

(** ["%Y-%m-%d"] *)
Definition fmt_Ymd : format :=
  mk_format (py "%Y-%m-%d")
    [Directive TY; Literal dash; Directive Tm; Literal dash; Directive Td].

(** ['%Y-%m-%d %H:%M:%S'] *)
Definition fmt_Ymd_HMS : format :=
  mk_format (py "%Y-%m-%d %H:%M:%S")
    [Directive TY; Literal dash; Directive Tm; Literal dash; Directive Td;
     Whitespace;
     Directive TH; Literal colon; Directive TM; Literal colon; Directive TS].

(** [datetime.strptime(data, format)].  The string has to match the
    format's regular expression from its first to its last character, and
    the fields have to name a date and a time that exist. *)
Definition strptime (U : ucd) (data : pystr) (f : format) : outcome datetime :=
  match match_fmt U (fmt_items f) data tm_default with
  | None =>
      Raised (ValueError (py "time data " ++ repr U data ++
                          py " does not match format " ++ repr U (fmt_text f)))
  | Some (t, rest) =>
      match rest with
      | _ :: _ => Raised (ValueError (py "unconverted data remains: " ++ rest))
      | [] =>
          if tm_Y t <? MINYEAR then
            Raised (ValueError (py "year 0 is out of range"))
          else if days_in_month (tm_Y t) (tm_m t) <? tm_d t then
            Raised (ValueError (py "day is out of range for month"))
          else if 59 <? tm_S t then
            Raised (ValueError (py "second must be in 0..59"))
          else
            Returned (mk_datetime (tm_Y t) (tm_m t) (tm_d t)
                                  (tm_H t) (tm_M t) (tm_S t))
      end
  end.

(* ===================================================================== *)
(** ** [generate_date_list]                                               *)
(* ===================================================================== *)

(** The [while current_date <= end_date] loop; [fuel] bounds the number
    of times the condition is evaluated. *)
Fixpoint date_loop (fuel : nat) (current_date end_date : datetime)
  (date_list : list pystr) : outcome (list pystr) :=
  match fuel with
  | O => Diverged
  | S fuel' =>
      if datetime_le current_date end_date then
        let date_list := date_list ++ [strftime_Ymd current_date] in
        current_date ← add_days current_date 1;
        date_loop fuel' current_date end_date date_list
      else Returned date_list
  end.

Definition generate_date_list (U : ucd) (fuel : nat)
  (start_date_str end_date_str : pystr) : outcome (list pystr) :=
  start_date ← strptime U start_date_str fmt_dmY;
  end_date ← strptime U end_date_str fmt_dmY;
  date_loop fuel start_date end_date [].

(* ===================================================================== *)
(** ** The world the downloader runs in                                   *)
(* ===================================================================== *)

Record request := mk_request {
  req_url : pystr;
  req_params : list (pystr * pystr)
}.

Record response := mk_response {
  status_code : Z;
  reason : pystr;
  url : pystr;
  text : pystr
}.

(** What the process does to the outside, in the order it does it. *)
Inductive event :=
| Sent (r : request)                      (* requests.get *)
| Wrote (path : pystr) (content : pystr)  (* a file opened for writing *)
| Logged (msg : pystr)                    (* logging.error *)
| Slept (dt : Z).                         (* time.sleep *)

(** How [with open(path, 'w') as f: f.write(content)] can end. *)
Inductive write_outcome :=
| Written                                 (* the file holds the content *)
| OpenFails (msg : pystr)                 (* open raises: nothing is created *)
| WriteFails (msg : pystr) (kept : pystr).
                                          (* write or close raises: the file
                                             was created and holds [kept] *)

(** The state of [RateLimitDecorator]. *)
Record RateLimitDecorator := mk_limiter {
  clamped_calls : Z;
  period : Z;
  last_reset : Z;
  num_calls : Z
}.

(** The files under the working directory, the events so far, the
    decorator around [download_single_day], the monotonic clock (in
    milliseconds) and the permits left in the semaphore of the batch. *)
Record world := mk_world {
  files : gmap pystr pystr;
  trace : list event;
  limiter : RateLimitDecorator;
  clock : Z;
  permits : Z
}.

(** The part of a run that the program does not decide: the remote
    service (which sees the events so far), the disk, the creation of the
    [logs] directory, and the order in which the futures complete. *)
Record env := mk_env {
  http_get : list event -> request -> outcome response;
  disk_write : gmap pystr pystr -> pystr -> pystr -> write_outcome;
  mkdir_logs : gmap pystr pystr -> option exn;
  as_completed : list pystr -> list pystr
}.

Definition set_files (f : gmap pystr pystr) (w : world) : world :=
  mk_world f (trace w) (limiter w) (clock w) (permits w).
Definition emit (e : event) (w : world) : world :=
  mk_world (files w) (trace w ++ [e]) (limiter w) (clock w) (permits w).
Definition set_limiter (d : RateLimitDecorator) (w : world) : world :=
  mk_world (files w) (trace w) d (clock w) (permits w).
Definition set_clock (t : Z) (w : world) : world :=
  mk_world (files w) (trace w) (limiter w) t (permits w).
Definition set_permits (p : Z) (w : world) : world :=
  mk_world (files w) (trace w) (limiter w) (clock w) p.

(** A computation in the world: its outcome and the world it leaves. *)
Definition M (A : Type) : Type := world -> outcome A * world.

#[export] Instance M_ret : MRet M := fun A a w => (Returned a, w).
#[export] Instance M_bind : MBind M := fun A B f m w =>
  match m w with
  | (Returned a, w') => f a w'
  | (Raised e, w') => (Raised e, w')
  | (Diverged, w') => (Diverged, w')
  end.

Definition lift {A : Type} (o : outcome A) : M A := fun w => (o, w).
Definition raise {A : Type} (e : exn) : M A := fun w => (Raised e, w).
Definition tell (e : event) : M unit := fun w => (Returned tt, emit e w).

(** [try: body / except ...: handler]; the handler re-raises what its
    clauses do not catch. *)
Definition try_except {A : Type} (body : M A) (handler : exn -> M A) : M A :=
  fun w =>
    match body w with
    | (Raised e, w') => handler e w'
    | r => r
    end.

(** [os.path.exists(path)] *)
Definition os_path_exists (path : pystr) : M bool :=
  fun w => (Returned (bool_decide (is_Some (files w !! path))), w).

(** [requests.get(url, params=params)] *)
Definition requests_get (E : env) (r : request) : M response :=
  fun w => (http_get E (trace w) r, emit (Sent r) w).

Definition str_int3 (n : Z) : pystr := [digit (n / 100); digit (n / 10); digit n].

(** [response.raise_for_status()] *)
Definition raise_for_status (r : response) : M unit :=
  let s := status_code r in
  if (400 <=? s) && (s <? 500) then
    raise (RequestException (str_int3 s ++ py " Client Error: " ++ reason r
                             ++ py " for url: " ++ url r))
  else if (500 <=? s) && (s <? 600) then
    raise (RequestException (str_int3 s ++ py " Server Error: " ++ reason r
                             ++ py " for url: " ++ url r))
  else mret tt.

(** [with open(path, 'w', ...) as f: f.write(content)] *)
Definition open_write (E : env) (path content : pystr) : M unit :=
  fun w =>
    match disk_write E (files w) path content with
    | Written =>
        (Returned tt, emit (Wrote path content) (set_files (<[path := content]> (files w)) w))
    | OpenFails msg => (Raised (OSError msg), w)
    | WriteFails msg kept =>
        (Raised (OSError msg), emit (Wrote path kept) (set_files (<[path := kept]> (files w)) w))
    end.

(** [logging.error(msg)] *)
Definition logging_error (msg : pystr) : M unit := tell (Logged msg).

(** [time.sleep(dt)] *)
Definition time_sleep (dt : Z) : M unit :=
  fun w => (Returned tt, emit (Slept dt) (set_clock (clock w + dt) w)).

(** [with semaphore: body].  The permit is taken before the body and
    given back when the body returns or raises.  With no permit left the
    caller blocks; run on its own, it then blocks for ever. *)
Definition with_semaphore {A : Type} (body : M A) : M A :=
  fun w =>
    if permits w <=? 0 then (Diverged, w)
    else
      match body (set_permits (permits w - 1) w) with
      | (Diverged, w') => (Diverged, w')
      | (r, w') => (r, set_permits (permits w' + 1) w')
      end.

(* ===================================================================== *)
(** ** The [ratelimit] decorators                                          *)
(* ===================================================================== *)

(** The decorators of the [ratelimit] package, as its module
    [decorators] has them: [limits] keeps the start of the current window
    and the number of attempts counted in it, and [sleep_and_retry] sleeps
    for the time an attempt over the budget is told and calls again.
    Times are in milliseconds. *)

(** [limits(calls, period)] created at time [now]; the number of calls is
    clamped to 1 from below. *)
Definition limits (calls period now : Z) : RateLimitDecorator :=
  mk_limiter (Z.max 1 calls) period now 0.

Definition period_remaining (d : RateLimitDecorator) (now : Z) : Z :=
  period d - (now - last_reset d).

(** The bookkeeping the wrapper does under its lock, at time [now]: the
    new state and whether the call goes through ([None]) or raises with
    the time left in the window. *)
Definition limiter_attempt (d : RateLimitDecorator) (now : Z)
  : RateLimitDecorator * option Z :=
  let remaining := period_remaining d now in
  let d := if remaining <=? 0
           then mk_limiter (clamped_calls d) (period d) now 0 else d in
  let d := mk_limiter (clamped_calls d) (period d) (last_reset d) (num_calls d + 1) in
  if clamped_calls d <? num_calls d then (d, Some remaining) else (d, None).

(** The wrapper of [limits]. *)
Definition limits_wrapper {A : Type} (func : M A) : M A :=
  fun w =>
    match limiter_attempt (limiter w) (clock w) with
    | (d, Some remaining) =>
        (Raised (RateLimitException (py "too many calls") remaining), set_limiter d w)
    | (d, None) => func (set_limiter d w)
    end.

(** The wrapper of [sleep_and_retry]: [while True], bounded by [fuel]. *)
Fixpoint sleep_and_retry {A : Type} (fuel : nat) (func : M A) : M A :=
  match fuel with
  | O => fun w => (Diverged, w)
  | S fuel' =>
      fun w =>
        match func w with
        | (Raised (RateLimitException _ remaining), w') =>
            (time_sleep remaining ≫= fun _ => sleep_and_retry fuel' func) w'
        | r => r
        end
  end.

(* ===================================================================== *)
(** ** [validate_channel]                                                  *)
(* ===================================================================== *)

Definition channel_url (channel : pystr) : pystr :=
  py "https://logs.ivr.fi/channel/" ++ channel.

Definition validate_channel (E : env) (channel : pystr) : M bool :=
  let url := channel_url channel in
  try_except
    (response ← requests_get E (mk_request url []);
     mret (negb (contains (py "No logs found") (text response))
           && (status_code response =? 200)))
    (fun e => if is_RequestException e then mret false else raise e).

(* ===================================================================== *)
(** ** [download_single_day]                                               *)
(* ===================================================================== *)

(** [t.strftime("%Y-%m-%dT00:00:00Z")] *)
Definition strftime_rfc3339 (t : datetime) : pystr :=
  strftime_Ymd t ++ py "T00:00:00Z".

Definition log_filename (channel date_str : pystr) : pystr :=
  py "logs/" ++ channel ++ py "_logs_" ++ date_str ++ py ".txt".

(** The function under the decorators. *)
Definition download_single_day_body (E : env) (U : ucd)
  (channel date_str : pystr) : M pystr :=
  current_date ← lift (strptime U date_str fmt_Ymd);
  next_date ← lift (add_days current_date 1);
  let from_date := strftime_rfc3339 current_date in
  let to_date := strftime_rfc3339 next_date in
  let filename := log_filename channel date_str in
  file_exists ← os_path_exists filename;
  if (file_exists : bool) then
    mret (py "Skipped " ++ date_str ++ py " - file exists")
  else
    with_semaphore
      (try_except
         (let url := channel_url channel in
          let params := [(py "from", from_date); (py "to", to_date)] in
          response ← requests_get E (mk_request url params);
          _ ← raise_for_status response;
          _ ← open_write E filename (text response);
          mret (py "Successfully downloaded " ++ date_str))
         (fun e =>
            if is_RequestException e then
              let error_msg :=
                py "Error downloading " ++ date_str ++ py ": " ++ str_exn e in
              _ ← logging_error error_msg; mret error_msg
            else if is_Exception e then
              let error_msg :=
                py "Unexpected error for " ++ date_str ++ py ": " ++ str_exn e in
              _ ← logging_error error_msg; mret error_msg
            else raise e)).

(** [download_single_day] as the module exports it:
    [sleep_and_retry(limits(calls=5, period=1)(...))]. *)
Definition download_single_day (E : env) (U : ucd) (fuel : nat)
  (channel date_str : pystr) : M pystr :=
  sleep_and_retry fuel (limits_wrapper (download_single_day_body E U channel date_str)).

(** The decorator of the module: five calls a second, created when the
    module is loaded at time [now]. *)
Definition module_limiter (now : Z) : RateLimitDecorator := limits 5 1000 now.

(* ===================================================================== *)
(** ** [download_logs_parallel]                                            *)
(* ===================================================================== *)

(** [d[k] = v] on a dictionary kept in insertion order. *)
Fixpoint dict_set (k v : pystr) (d : list (pystr * pystr)) : list (pystr * pystr) :=
  match d with
  | [] => [(k, v)]
  | (k', v') :: d' =>
      if bool_decide (k = k') then (k, v) :: d' else (k', v') :: dict_set k v d'
  end.

(** What the loop over the completed futures has seen: the result or the
    exception of every future, and the dictionary of failures. *)
Record batch := mk_batch {
  results : list (pystr * (pystr + exn));
  failed_downloads : list (pystr * pystr)
}.

(** The body of [for future in as_completed(...)], over the days in the
    order their futures complete.  Each call runs to its end before the
    next one is looked at. *)
Fixpoint collect (E : env) (U : ucd) (fuel : nat) (channel : pystr)
  (order : list pystr) (b : batch) : M batch :=
  match order with
  | [] => mret b
  | date :: order' =>
      fun w =>
        match download_single_day E U fuel channel date w with
        | (Returned result, w') =>
            let failed :=
              if contains (py "Error") result
              then dict_set date result (failed_downloads b)
              else failed_downloads b in
            collect E U fuel channel order'
              (mk_batch (results b ++ [(date, inl result)]) failed) w'
        | (Raised e, w') =>
            if is_Exception e then
              collect E U fuel channel order'
                (mk_batch (results b ++ [(date, inr e)])
                          (dict_set date (str_exn e) (failed_downloads b))) w'
            else (Raised e, w')
        | (Diverged, w') => (Diverged, w')
        end
  end.

Definition newline : pystr := [10%N].

Definition report_filename (channel : pystr) : pystr :=
  py "failed_downloads_" ++ channel ++ py ".txt".

Definition report_line (entry : pystr * pystr) : pystr :=
  fst entry ++ py ": " ++ snd entry ++ newline.

(** The model returns what the function has in its local variables when
    it ends (the Python function returns [None]). *)
Definition download_logs_parallel (E : env) (U : ucd) (fuel : nat)
  (channel start_date_str end_date_str : pystr)
  (max_workers max_concurrent_requests : Z) : M batch :=
  _ ← (fun w => match mkdir_logs E (files w) with
                | Some e => (Raised e, w)
                | None => (Returned tt, w)
                end);
  dates ← lift (generate_date_list U fuel start_date_str end_date_str);
  _ ← (if max_concurrent_requests <? 0
       then raise (ValueError (py "semaphore initial value must be >= 0"))
       else fun w => (Returned tt, set_permits max_concurrent_requests w));
  _ ← (if max_workers <=? 0
       then raise (ValueError (py "max_workers must be greater than 0"))
       else mret tt);
  b ← collect E U fuel channel (as_completed E dates) (mk_batch [] []);
  _ ← (match failed_downloads b with
       | [] => mret tt
       | _ :: _ =>
           open_write E (report_filename channel)
             (concat (map report_line (failed_downloads b)))
       end);
  mret b.

(* ===================================================================== *)
(** ** [parse_chat_line]                                                   *)
(* ===================================================================== *)

Definition lbracket : N := 91.
Definition rbracket : N := 93.
Definition hash : N := 35.

(** Regex [.]: any character but the line feed. *)
Definition dot (c : N) : bool := negb (c =? 10)%N.

(** Regex [[^:]] *)
Definition not_colon (c : N) : bool := negb (c =? colon)%N.

(** [re.match(r'\[(.*?)\](.+)', line)]: the two groups. *)
Definition timestamp_re (line : pystr) : option (pystr * pystr) :=
  lit lbracket line (fun s1 =>
  rep_lazy dot s1 [] (fun g1 s2 =>
  lit rbracket s2 (fun s3 =>
  rep_greedy dot 1 s3 (fun g2 _ => Some (g1, g2))))).

(** [re.match(r'\s*#(\w+)\s+([^:]+):(.+)', rest)]: the three groups. *)
Definition message_re (U : ucd) (rest : pystr) : option (pystr * pystr * pystr) :=
  rep_greedy (isspace U) 0 rest (fun _ s1 =>
  lit hash s1 (fun s2 =>
  rep_greedy (isword U) 1 s2 (fun g1 s3 =>
  rep_greedy (isspace U) 1 s3 (fun _ s4 =>
  rep_greedy not_colon 1 s4 (fun g2 s5 =>
  lit colon s5 (fun s6 =>
  rep_greedy dot 1 s6 (fun g3 _ => Some (g1, g2, g3)))))))).

(** The dictionary [parse_chat_line] returns. *)
Record chat_row := mk_row {
  row_timestamp : datetime;
  row_channel : pystr;
  row_username : pystr;
  row_message : pystr
}.

(** The text stream [sys.stdout].  [print] has the stream encode the
    text; a character for which the codec has no bytes, under the error
    handler [strict], makes it raise [UnicodeEncodeError], and nothing of
    the text is written.  Which characters the stream takes outside ASCII,
    and how the error reads, is the stream's; the ASCII characters every
    codec of a text stream takes.  The stream is open and its device
    accepts what is written. *)
Record text_stream := mk_stream {
  takes : N -> bool;
  encode_error : pystr -> pystr       (* str(e) of the error for a text *)
}.

Definition encodable (O : text_stream) (c : N) : bool :=
  (c <? 128)%N || takes O c.

(** [UnicodeEncodeError], a subclass of [ValueError]. *)
Definition UnicodeEncodeError (msg : pystr) : exn := ValueError msg.

(** What [print(text)] raises on the stream, if it raises. *)
Definition print_raises (O : text_stream) (text : pystr) : option exn :=
  if forallb (encodable O) text then None
  else Some (UnicodeEncodeError (encode_error O text)).

(** The line [parse_chat_line] prints when the timestamp does not read. *)
Definition parse_error_line (line : pystr) (e : exn) : pystr :=
  py "Error parsing line: " ++ line ++ py ", Error: " ++ str_exn e.

(** What [parse_chat_line] does: the lines it prints and its outcome,
    [Returned None] being Python's [None].  The [print] of the [except]
    clause is not itself under a [try]: what it raises leaves the
    function. *)
Definition parse_chat_line (U : ucd) (O : text_stream) (line : pystr)
  : list pystr * outcome (option chat_row) :=
  match timestamp_re line with
  | None => ([], Returned None)
  | Some (timestamp_str, rest) =>
      match strptime U (strip U timestamp_str) fmt_Ymd_HMS with
      | Returned timestamp =>
          match message_re U rest with
          | Some (channel, username, message) =>
              ([], Returned (Some (mk_row timestamp channel
                                          (strip U username) (strip U message))))
          | None => ([], Returned None)
          end
      | Raised e =>
          if is_ValueError e then
            match print_raises O (parse_error_line line e) with
            | None => ([parse_error_line line e], Returned None)
            | Some e' => ([], Raised e')
            end
          else ([], Raised e)
      | Diverged => ([], Diverged)
      end
  end.

(* ===================================================================== *)
(** ** The limiter under concurrent callers                                *)
(* ===================================================================== *)






(* ===================================================================== *)
(** ** Vocabulary of the statements                                        *)
(* ===================================================================== *)

(** *** Dates *)

(** [a > b] on datetimes. *)
Definition datetime_gt (a b : datetime) : Prop := datetime_le a b = false.

(** Days in the year [y]. *)
Definition days_in_year (y : Z) : Z := if is_leap y then 366 else 365.

(** The year, month and day a [date] object can hold. *)
Definition valid_ymd (y m d : Z) : Prop :=
  MINYEAR <= y <= MAXYEAR /\ 1 <= m <= 12 /\ 1 <= d <= days_in_month y m.

(** The last steps of [ord2ymd]: month and day of the [n]-th day of a
    year, counted from 0. *)
Definition month_of_yday (leapyear : bool) (n : Z) : Z * Z :=
  let m := Z.shiftr (n + 50) 5 in
  let preceding := DAYS_BEFORE_MONTH m + (if (2 <? m) && leapyear then 1 else 0) in
  if n <? preceding then
    let m' := m - 1 in
    let preceding' :=
      preceding - (DAYS_IN_MONTH m' + (if (m' =? 2) && leapyear then 1 else 0)) in
    (m', n - preceding' + 1)
  else (m, n - preceding + 1).

Definition yday_ok (leapyear : bool) (n : Z) : bool :=
  let '(m, d) := month_of_yday leapyear n in
  (1 <=? m) && (m <=? 12) && (1 <=? d) &&
  (d <=? DAYS_IN_MONTH m + (if (m =? 2) && leapyear then 1 else 0)) &&
  (DAYS_BEFORE_MONTH m + (if (2 <? m) && leapyear then 1 else 0) + d =? n + 1).

(** The datetime [i] days after [t]. *)
Definition day_at (t : datetime) (i : Z) : datetime :=
  let '(y, m, d) := ord2ymd (toordinal t + i) in
  mk_datetime y m d (hour t) (minute t) (second t).

(** The [n] consecutive days that start at [t]. *)
Definition days_from (t : datetime) (n : nat) : list datetime :=
  map (fun i => day_at t (Z.of_nat i)) (seq 0 n).

(** Midnight. *)
Definition at_midnight (t : datetime) : Prop :=
  hour t = 0 /\ minute t = 0 /\ second t = 0.

Definition dec_30_2023 : datetime := mk_datetime 2023 12 30 0 0 0.
Definition jan_1_2024 : datetime := mk_datetime 2024 1 1 0 0 0.
Definition jan_2_2024 : datetime := mk_datetime 2024 1 2 0 0 0.
Definition dec_31_9999 : datetime := mk_datetime 9999 12 31 0 0 0.

(** *** What [strptime] reads *)

(** An alternative all of whose ranges are ranges of ASCII digits. *)
Fixpoint alt_wf (alt : list cclass) : bool :=
  match alt with
  | [] => true
  | CRange lo hi :: alt' => (48 <=? lo)%N && (hi <=? 57)%N && alt_wf alt'
  | _ :: alt' => alt_wf alt'
  end.

(** The least and the greatest number an alternative can read, after a
    number between [lo] and [hi]. *)
Fixpoint alt_bounds (alt : list cclass) (lo hi : Z) : Z * Z :=
  match alt with
  | [] => (lo, hi)
  | CRange a b :: alt' =>
      alt_bounds alt' (lo * 10 + (Z.of_N a - 48)) (hi * 10 + (Z.of_N b - 48))
  | CDigit :: alt' => alt_bounds alt' (lo * 10) (hi * 10 + 9)
  | CBlank :: alt' => alt_bounds alt' lo hi
  end.

Definition field_lo (f : tm_field) : Z :=
  match f with TY => 0 | Tm => 1 | Td => 1 | TH => 0 | TM => 0 | TS => 0 end.

Definition field_hi (f : tm_field) : Z :=
  match f with TY => 9999 | Tm => 12 | Td => 31 | TH => 23 | TM => 59 | TS => 61 end.

Definition tm_get (f : tm_field) (t : tm) : Z :=
  match f with
  | TY => tm_Y t | Tm => tm_m t | Td => tm_d t
  | TH => tm_H t | TM => tm_M t | TS => tm_S t
  end.

(** Every field is a number its directive can read. *)
Definition tm_ok (t : tm) : Prop :=
  forall f, field_lo f <= tm_get f t <= field_hi f.

(** An item of a format that sets no field of the time of day. *)
Definition date_item (it : fmt_item) : Prop :=
  match it with
  | Directive TH | Directive TM | Directive TS => False
  | _ => True
  end.

(** A character a string in the format [%Y-%m-%d] can hold, or more
    generally a format with the literals [lits]. *)
Definition fmt_char (U : ucd) (lits : list N) (c : N) : Prop :=
  is_Some (decimal U c) \/ isspace U c = true \/ In c lits.

Fixpoint fmt_literals (items : list fmt_item) : list N :=
  match items with
  | [] => []
  | Literal c :: items' => c :: fmt_literals items'
  | _ :: items' => fmt_literals items'
  end.

(** The date string parses and is not the last day of the calendar. *)
Definition day_parses (U : ucd) (date_str : pystr) : Prop :=
  exists current_date next_date,
    strptime U date_str fmt_Ymd = Returned current_date /\
    add_days current_date 1 = Returned next_date.

(** *** Lines of a chat log *)

(** [needle] occurs in [haystack]. *)
Definition substring (needle haystack : pystr) : Prop :=
  exists pre post, haystack = pre ++ needle ++ post.

(** The part of a line after the bracket has the form
    [<spaces>#<channel><spaces><username>:<message>]. *)
Definition chat_shape (U : ucd) (rest : pystr) : Prop :=
  exists sp ch sp' user msg tail,
    rest = sp ++ hash :: ch ++ sp' ++ user ++ colon :: msg ++ tail /\
    Forall (fun c => isspace U c = true) sp /\
    ch <> [] /\ Forall (fun c => isword U c = true) ch /\
    sp' <> [] /\ Forall (fun c => isspace U c = true) sp' /\
    user <> [] /\ Forall (fun c => c <> colon) user /\
    msg <> [] /\ Forall (fun c => c <> 10%N) msg.

(** The line starts with a bracketed timestamp in the format
    [%Y-%m-%d %H:%M:%S] and goes on in the shape above. *)
Definition well_formed (U : ucd) (line : pystr) : Prop :=
  exists ts rest,
    line = lbracket :: ts ++ rbracket :: rest /\
    (exists t, strptime U (strip U ts) fmt_Ymd_HMS = Returned t) /\
    chat_shape U rest.

Definition example_line : pystr := py "[2023-05-01 10:00:00] #foo bar: hello world".

(** A string of the shape [pattern]: one character for each test. *)
Fixpoint shaped (pattern : list (N -> bool)) (s : pystr) : bool :=
  match pattern, s with
  | [], [] => true
  | p :: pattern', c :: s' => p c && shaped pattern' s'
  | _, _ => false
  end.

Definition ascii_digit (c : N) : bool := in_range 48 57 c.

(** A timestamp written [YYYY-MM-DD HH:MM:SS], as the design notes have
    it. *)
Definition padded_timestamp (ts : pystr) : bool :=
  shaped [ascii_digit; ascii_digit; ascii_digit; ascii_digit; N.eqb dash;
          ascii_digit; ascii_digit; N.eqb dash; ascii_digit; ascii_digit;
          N.eqb 32; ascii_digit; ascii_digit; N.eqb colon;
          ascii_digit; ascii_digit; N.eqb colon; ascii_digit; ascii_digit] ts.

(** The line format in the words of the design notes,
    [[<timestamp>] #<channel> <username>: <message>]; of the four parts
    only the timestamp is held to its format. *)
Definition noted_line (line : pystr) : Prop :=
  exists ts channel username message,
    padded_timestamp ts = true /\
    line = lbracket :: ts ++ rbracket :: 32%N :: hash :: channel ++
           32%N :: username ++ colon :: 32%N :: message.

(** A line whose timestamp has no leading zeros. *)
Definition unpadded_line : pystr := py "[2023-5-1 9:5:7] #foo bar: hi".

Definition unpadded_row : chat_row :=
  mk_row (mk_datetime 2023 5 1 9 5 7) (py "foo") (py "bar") (py "hi").

(** *** What the terminal can show *)

(** The stream has bytes for every character of the text. *)
Definition encodes (O : text_stream) (text : pystr) : Prop :=
  Forall (fun c => encodable O c = true) text.

Definition surrogate (c : N) : bool := in_range 55296 57343 c.

(** The place of the first surrogate of a text, and the length of the run
    of surrogates that starts there. *)
Fixpoint first_surrogate (text : pystr) : nat :=
  match text with
  | [] => O
  | c :: text' => if surrogate c then O else S (first_surrogate text')
  end.

Definition surrogate_run (text : pystr) : nat :=
  run surrogate (drop (first_surrogate text) text).

(** [str(e)] of the error the UTF-8 codec raises for a text with a
    surrogate in it. *)
Definition utf8_error (text : pystr) : pystr :=
  let start := first_surrogate text in
  match surrogate_run text with
  | 1%nat =>
      py "'utf-8' codec can't encode character '" ++
      backslash :: 117%N :: hex 4 (nth start text 0%N) ++
      py "' in position " ++ str_int (Z.of_nat start) ++
      py ": surrogates not allowed"
  | n =>
      py "'utf-8' codec can't encode characters in position " ++
      str_int (Z.of_nat start) ++ py "-" ++
      str_int (Z.of_nat (start + n - 1)) ++ py ": surrogates not allowed"
  end.

(** A terminal in UTF-8: every character but the surrogates. *)
Definition utf8 : text_stream :=
  mk_stream (fun c => negb (surrogate c)) utf8_error.

(** A line with a lone surrogate between the brackets; such a character
    comes out of a file name or a text that was decoded with the handler
    [surrogateescape]. *)
Definition surrogate_line : pystr :=
  lbracket :: 55296%N :: rbracket :: py " #foo bar: hi".

Definition example_row : chat_row :=
  mk_row (mk_datetime 2023 5 1 10 0 0) (py "foo") (py "bar") (py "hello world").

(** *** The budget of the limiter *)




(** *** Runs of the downloader *)

(** The request [validate_channel] sends. *)
Definition probe (channel : pystr) : request := mk_request (channel_url channel) [].

(** The requests in a trace. *)
Definition sent (tr : list event) : list request :=
  omap (fun e => match e with Sent r => Some r | _ => None end) tr.

(** The paths written to in a trace. *)
Definition written (tr : list event) : list pystr :=
  omap (fun e => match e with Wrote p _ => Some p | _ => None end) tr.

Definition skipped_result (date_str : pystr) : pystr :=
  py "Skipped " ++ date_str ++ py " - file exists".

Definition success_result (date_str : pystr) : pystr :=
  py "Successfully downloaded " ++ date_str.

(** A future that ended well: the day was downloaded or skipped. *)
Definition day_ok (entry : pystr * (pystr + exn)) : Prop :=
  snd entry = inl (success_result (fst entry)) \/
  snd entry = inl (skipped_result (fst entry)).

(** The entry of a skipped day in the results. *)
Definition skipped_entry (date_str : pystr) : pystr * (pystr + exn) :=
  (date_str, inl (skipped_result date_str)).

(** The block under [try:] in [download_single_day]. *)
Definition try_block (E : env) (channel date_str filename from_date to_date : pystr)
  : M pystr :=
  let url := channel_url channel in
  let params := [(py "from", from_date); (py "to", to_date)] in
  response ← requests_get E (mk_request url params);
  _ ← raise_for_status response;
  _ ← open_write E filename (text response);
  mret (py "Successfully downloaded " ++ date_str).

(** Its two [except] clauses. *)
Definition except_clauses (date_str : pystr) (e : exn) : M pystr :=
  if is_RequestException e then
    let error_msg := py "Error downloading " ++ date_str ++ py ": " ++ str_exn e in
    _ ← logging_error error_msg; mret error_msg
  else if is_Exception e then
    let error_msg := py "Unexpected error for " ++ date_str ++ py ": " ++ str_exn e in
    _ ← logging_error error_msg; mret error_msg
  else raise e.

(** *** The semaphore under concurrent workers *)

(** [download_single_day] as far as its with statement: the call ends
    before it (the day is skipped, or the date raises), or it comes to
    [with semaphore:] with the block to run under it. *)
Definition before_gate (E : env) (U : ucd) (channel date_str : pystr)
  : M (pystr + M pystr) :=
  current_date ← lift (strptime U date_str fmt_Ymd);
  next_date ← lift (add_days current_date 1);
  let from_date := strftime_rfc3339 current_date in
  let to_date := strftime_rfc3339 next_date in
  let filename := log_filename channel date_str in
  file_exists ← os_path_exists filename;
  if (file_exists : bool) then
    mret (inl (py "Skipped " ++ date_str ++ py " - file exists"))
  else
    mret (inr (try_except
                 (try_block E channel date_str filename from_date to_date)
                 (except_clauses date_str))).

(** [semaphore.acquire()] once a permit is there, and
    [semaphore.release()]. *)
Definition sem_acquire (w : world) : world := set_permits (permits w - 1) w.
Definition sem_release (w : world) : world := set_permits (permits w + 1) w.

(** [with semaphore: block], put together from the two. *)
Definition gate (block : M pystr) : M pystr :=
  fun w =>
    if permits w <=? 0 then (Diverged, w)
    else
      match block (sem_acquire w) with
      | (Diverged, w') => (Diverged, w')
      | (r, w') => (r, sem_release w')
      end.

(** Where a submitted call is. *)
Inductive phase :=
| Queued                        (* the future is pending *)
| Cancelled                     (* the pending future was cancelled *)
| Calling                       (* a worker runs the call, outside the block *)
| AtGate (block : M pystr)      (* at the with statement, the block to come *)
| InBody (block : M pystr)      (* inside the block, holding a permit *)
| Finished (r : outcome pystr). (* the future has its result or exception *)

(** The world the workers share, and the call of every day. *)
Record pool := mk_pool {
  shared : world;
  tasks : list (pystr * phase)
}.

Definition holds_permit (t : pystr * phase) : bool :=
  match snd t with InBody _ => true | _ => false end.

Definition on_worker (t : pystr * phase) : bool :=
  match snd t with Calling | AtGate _ | InBody _ => true | _ => false end.

Definition in_body (s : pool) : nat := length (List.filter holds_permit (tasks s)).
Definition running (s : pool) : nat := length (List.filter on_worker (tasks s)).

(** One turn of the loop of [sleep_and_retry], as far as the with
    statement: the attempt at the limiter, then the sleep if it was
    refused, or the function up to the block. *)
Definition call_turn (E : env) (U : ucd) (channel date_str : pystr) (w : world)
  : phase * world :=
  match limits_wrapper (before_gate E U channel date_str) w with
  | (Raised (RateLimitException _ remaining), w') =>
      (Calling, snd (time_sleep remaining w'))
  | (Raised e, w') => (Finished (Raised e), w')
  | (Returned (inl result), w') => (Finished (Returned result), w')
  | (Returned (inr block), w') => (AtGate block, w')
  | (Diverged, w') => (Finished Diverged, w')
  end.

(** One step of one of the calls, under [max_workers] worker threads.
    Between two steps of a call the other calls take theirs, in any order.
    A pending future can be cancelled; a call that runs cannot.  What the
    block does to the world is put at the moment it is left; a block that
    never comes back (a request that is never answered) is never left. *)
Inductive pool_step (E : env) (U : ucd) (channel : pystr) (max_workers : Z)
  : pool -> pool -> Prop :=
| step_start s i d :
    tasks s !! i = Some (d, Queued) ->
    Z.of_nat (running s) < max_workers ->
    pool_step E U channel max_workers s
      (mk_pool (shared s) (<[i := (d, Calling)]> (tasks s)))
| step_cancel s i d :
    tasks s !! i = Some (d, Queued) ->
    pool_step E U channel max_workers s
      (mk_pool (shared s) (<[i := (d, Cancelled)]> (tasks s)))
| step_call s i d :
    tasks s !! i = Some (d, Calling) ->
    pool_step E U channel max_workers s
      (mk_pool (snd (call_turn E U channel d (shared s)))
               (<[i := (d, fst (call_turn E U channel d (shared s)))]> (tasks s)))
| step_enter s i d block :
    tasks s !! i = Some (d, AtGate block) ->
    0 < permits (shared s) ->
    pool_step E U channel max_workers s
      (mk_pool (sem_acquire (shared s)) (<[i := (d, InBody block)]> (tasks s)))
| step_leave s i d block r w' :
    tasks s !! i = Some (d, InBody block) ->
    block (shared s) = (r, w') ->
    r <> Diverged ->
    pool_step E U channel max_workers s
      (mk_pool (sem_release w') (<[i := (d, Finished r)]> (tasks s))).

(** [Semaphore(max_concurrent_requests)] and one future for each day. *)
Definition pool_init (max_concurrent_requests : Z) (w : world) (dates : list pystr)
  : pool :=
  mk_pool (set_permits max_concurrent_requests w) (map (fun d => (d, Queued)) dates).

(** The states some scheduling of the workers can reach. *)
Definition pool_reachable (E : env) (U : ucd) (channel : pystr)
  (max_workers max_concurrent_requests : Z) (w : world) (dates : list pystr)
  (s : pool) : Prop :=
  rtc (pool_step E U channel max_workers)
      (pool_init max_concurrent_requests w dates) s.

Definition default_max_workers : Z := 10.
Definition default_max_concurrent_requests : Z := 5.

(** A block that leaves the value of the semaphore alone. *)
Definition keeps_permits (block : M pystr) : Prop :=
  forall w, permits (snd (block w)) = permits w.

(** The blocks of the calls at the with statement or inside it. *)
Definition blocks_keep_permits (s : pool) : Prop :=
  Forall (fun t => match snd t with
                   | AtGate block | InBody block => keeps_permits block
                   | _ => True
                   end) (tasks s).

(** *** Services, disks and worlds of the examples *)

(** A service that answers every request with status 200 and one line. *)
Definition ok_response : response :=
  mk_response 200 (py "OK") (py "https://logs.ivr.fi/channel/foo")
              (py "[2024-01-02 10:00:00] #foo bar: hi").

Definition server_error : response :=
  mk_response 500 (py "Internal Server Error")
              (py "https://logs.ivr.fi/channel/foo") [].

(** The same with a disk that has room. *)
Definition calm : env :=
  mk_env (fun _ _ => Returned ok_response) (fun _ _ _ => Written)
         (fun _ => None) (fun l => l).

(** A run in which the service answers, the scheduler completes the
    futures in the order they were submitted, and the disk is full when
    the file of 2 January 2024 is written. *)
Definition full_disk : env :=
  mk_env (fun _ _ => Returned ok_response)
         (fun _ path _ =>
            if bool_decide (path = log_filename (py "foo") (py "2024-01-02"))
            then WriteFails (py "[Errno 28] No space left on device") []
            else Written)
         (fun _ => None)
         (fun l => l).

(** The service answers 500 for 2 January 2024 and 200 for the other
    days; the disk has room. *)
Definition one_bad_day : env :=
  mk_env (fun _ r =>
            if bool_decide (req_params r =
                            [(py "from", py "2024-01-02T00:00:00Z");
                             (py "to", py "2024-01-03T00:00:00Z")])
            then Returned server_error else Returned ok_response)
         (fun _ _ _ => Written) (fun _ => None) (fun l => l).

(** No network: every request raises a connection error. *)
Definition offline : env :=
  mk_env (fun _ _ => Raised (RequestException (py "Connection refused")))
         (fun _ _ _ => Written) (fun _ => None) (fun l => l).

(** Five seconds after the module was loaded: no file, no event. *)
Definition fresh_world : world := mk_world ∅ [] (module_limiter 0) 5000 0.

Definition jan_1_to_3 : list pystr := [py "2024-01-01"; py "2024-01-02"; py "2024-01-03"].

(** The block of the call for 1 January 2024. *)
Definition jan_1_block : M pystr :=
  try_except
    (try_block calm (py "foo") (py "2024-01-01")
       (log_filename (py "foo") (py "2024-01-01"))
       (py "2024-01-01T00:00:00Z") (py "2024-01-02T00:00:00Z"))
    (except_clauses (py "2024-01-01")).

(** Three days and five permits; the call of the first day has passed the
    limiter and is inside the with block. *)
Definition one_in_body : pool :=
  mk_pool (sem_acquire (set_limiter (mk_limiter 5 1000 5000 1)
                          (set_permits 5 fresh_world)))
          [(py "2024-01-01", InBody jan_1_block);
           (py "2024-01-02", Queued); (py "2024-01-03", Queued)].

(** The file of 1 January 2024 is there and the window that opened at
    0 ms has counted its five calls; the clock reads 100 ms. *)
Definition busy_world : world :=
  mk_world {[ log_filename (py "foo") (py "2024-01-01") := py "old" ]} []
           (mk_limiter 5 1000 0 5) 100 5.

(** The file of 31 December 9999 is there. *)
Definition last_day_world : world :=
  mk_world {[ log_filename (py "foo") (py "9999-12-31") := py "old" ]} []
           (module_limiter 0) 5000 5.

Definition jan_2_error : pystr :=
  py "Unexpected error for 2024-01-02: [Errno 28] No space left on device".

Definition jan_2_http_error : pystr :=
  py "Error downloading 2024-01-02: 500 Server Error: Internal Server Error for url: https://logs.ivr.fi/channel/foo".

(* ===================================================================== *)
(** ** [get_valid_date] *)
(* ===================================================================== *)

(** The terminal: the lines still to be typed, and what was written to
    it (the prompts as they are, the printed lines without their line
    feed). *)
Record console := mk_console {
  stdin : list pystr;
  stdout : list pystr
}.

(** [EOFError], a subclass of [Exception]. *)
Definition EOFError : exn := OtherError (py "EOF when reading a line").

(** [input(prompt)]: the prompt is written, one line is read; at the end
    of the input it raises [EOFError]. *)
Definition input (prompt : pystr) (c : console) : outcome pystr * console :=
  match stdin c with
  | [] => (Raised EOFError, mk_console [] (stdout c ++ [prompt]))
  | line :: rest => (Returned line, mk_console rest (stdout c ++ [prompt]))
  end.

(** [print(line)], for a line in ASCII, which every terminal takes. *)
Definition print (line : pystr) (c : console) : console :=
  mk_console (stdin c) (stdout c ++ [line]).

Definition invalid_date_message : pystr :=
  py "Invalid date format. Please use DD/MM/YYYY".

(** The [while True] loop of [get_valid_date]; [fuel] bounds the number of
    lines it asks for. *)
Fixpoint get_valid_date (U : ucd) (fuel : nat) (prompt : pystr) (c : console)
  : outcome pystr * console :=
  match fuel with
  | O => (Diverged, c)
  | S fuel' =>
      match input prompt c with
      | (Returned date_str, c') =>
          match strptime U date_str fmt_dmY with
          | Returned _ => (Returned date_str, c')
          | Raised e =>
              if is_ValueError e
              then get_valid_date U fuel' prompt (print invalid_date_message c')
              else (Raised e, c')
          | Diverged => (Diverged, c')
          end
      | (Raised e, c') => (Raised e, c')
      | (Diverged, c') => (Diverged, c')
      end
  end.

(* ===================================================================== *)
(** ** [process_log_files] *)
(* ===================================================================== *)

(** [t.strftime('%Y-%m-%d %H:%M:%S')] *)
Definition strftime_Ymd_HMS (t : datetime) : pystr :=
  strftime_Ymd t ++ py " " ++
  pad2 (hour t) ++ py ":" ++ pad2 (minute t) ++ py ":" ++ pad2 (second t).

(** [s.endswith(suffix)] *)
Definition endswith (s suffix : pystr) : bool := startswith (rev s) (rev suffix).

(** *** The writer of the [csv] module *)

Definition comma : N := 44.
Definition CR : N := 13.
Definition LF : N := 10.

(** The characters that make [csv.writer], in its default dialect, put a
    field in quotes: the delimiter, the quote character and the characters
    of the line terminator. *)
Definition csv_special (c : N) : bool :=
  (c =? comma)%N || (c =? dquote)%N || (c =? CR)%N || (c =? LF)%N.

(** Inside quotes a quote character is written twice. *)
Fixpoint csv_escape (field : pystr) : pystr :=
  match field with
  | [] => []
  | c :: field' =>
      if (c =? dquote)%N then dquote :: dquote :: csv_escape field'
      else c :: csv_escape field'
  end.

Definition csv_field (field : pystr) : pystr :=
  if existsb csv_special field then dquote :: csv_escape field ++ [dquote] else field.

Fixpoint join (sep : N) (l : list pystr) : pystr :=
  match l with
  | [] => []
  | [x] => x
  | x :: l' => x ++ sep :: join sep l'
  end.

(** The text [writerow(fields)] writes; a record of one empty field is
    written as two quote characters. *)
Definition csv_record (fields : list pystr) : pystr :=
  match fields with
  | [[]] => [dquote; dquote; CR; LF]
  | _ => join comma (map csv_field fields) ++ [CR; LF]
  end.

(** The text of the file after the rows [table] were written. *)
Definition csv_text (table : list (list pystr)) : pystr :=
  concat (map csv_record table).

(** *** The run of the conversion *)

(** What is done to the output file once it is open. *)
Inductive sink_op :=
| SinkRow (fields : list pystr)    (* csv_writer.writerow *)
| SinkFlush                        (* csvfile.flush *)
| SinkClose.                       (* leaving the with block *)

(** The part of a run that the script does not decide: what [os.walk]
    yields for a directory (the root and the file names of every directory
    it visits, in its order), how [pathlib] joins a root and a name, what
    reading a file yields (the lines of [for line in f], then the exception
    that ends the reading, if there is one; a file that cannot be opened
    yields no line), which operations on the output fail (given the
    rows it has taken so far), and the stream that [print] writes to. *)
Record logs_env := mk_logs_env {
  os_walk : pystr -> list (pystr * list pystr);
  path_join : pystr -> pystr -> pystr;
  read_lines : pystr -> list pystr * option exn;
  mkdir_processed : option exn;
  open_output : option exn;
  sink_fault : list (list pystr) -> sink_op -> option exn;
  logs_exist : bool;
  sys_stdout : text_stream
}.

(** The two counters, the rows the writer has taken, and the lines
    printed. *)
Record conversion := mk_conversion {
  total_lines : Z;
  processed_lines : Z;
  table : list (list pystr);
  printed : list pystr
}.

Definition C (A : Type) : Type := conversion -> outcome A * conversion.

#[export] Instance C_ret : MRet C := fun A a s => (Returned a, s).
#[export] Instance C_bind : MBind C := fun A B f m s =>
  match m s with
  | (Returned a, s') => f a s'
  | (Raised e, s') => (Raised e, s')
  | (Diverged, s') => (Diverged, s')
  end.

Definition raise_C {A : Type} (e : exn) : C A := fun s => (Raised e, s).

Definition fail_if (o : option exn) : C unit :=
  match o with Some e => raise_C e | None => mret tt end.

(** [print(line)]: the line is written, or the stream refuses it. *)
Definition print_out (E : logs_env) (line : pystr) : C unit :=
  fun s =>
    match print_raises (sys_stdout E) line with
    | Some e => (Raised e, s)
    | None =>
        (Returned tt,
         mk_conversion (total_lines s) (processed_lines s) (table s)
                       (printed s ++ [line]))
    end.

Definition count_total : C unit :=
  fun s => (Returned tt,
            mk_conversion (total_lines s + 1) (processed_lines s) (table s) (printed s)).

Definition count_processed : C unit :=
  fun s => (Returned tt,
            mk_conversion (total_lines s) (processed_lines s + 1) (table s) (printed s)).

Definition get_processed : C Z := fun s => (Returned (processed_lines s), s).

Definition writerow (E : logs_env) (fields : list pystr) : C unit :=
  fun s =>
    match sink_fault E (table s) (SinkRow fields) with
    | Some e => (Raised e, s)
    | None =>
        (Returned tt,
         mk_conversion (total_lines s) (processed_lines s) (table s ++ [fields])
                       (printed s))
    end.

Definition flush (E : logs_env) : C unit :=
  fun s => (match sink_fault E (table s) SinkFlush with
            | Some e => Raised e
            | None => Returned tt
            end, s).

(** [parse_chat_line(line)], with what it prints. *)
Definition call_parse_chat_line (E : logs_env) (U : ucd) (line : pystr)
  : C (option chat_row) :=
  fun s =>
    (snd (parse_chat_line U (sys_stdout E) line),
     mk_conversion (total_lines s) (processed_lines s) (table s)
                   (printed s ++ fst (parse_chat_line U (sys_stdout E) line))).

Definition try_except_C {A : Type} (body : C A) (handler : exn -> C A) : C A :=
  fun s =>
    match body s with
    | (Raised e, s') => handler e s'
    | r => r
    end.

(** [try: body / finally: final] *)
Definition try_finally {A : Type} (body : C A) (final : C unit) : C A :=
  fun s =>
    match body s with
    | (Diverged, s') => (Diverged, s')
    | (r, s') =>
        match final s' with
        | (Returned _, s'') => (r, s'')
        | (Raised e, s'') => (Raised e, s'')
        | (Diverged, s'') => (Diverged, s'')
        end
    end.

(** The fields of the row written for a parsed line. *)
Definition row_fields (row : chat_row) (file_path : pystr) : list pystr :=
  [strftime_Ymd_HMS (row_timestamp row); row_channel row; row_username row;
   row_message row; file_path].

(** [for line in f: ...] over the lines read. *)
Fixpoint for_lines (E : logs_env) (U : ucd) (file_path : pystr) (lines : list pystr)
  : C unit :=
  match lines with
  | [] => mret tt
  | line :: lines' =>
      _ ← count_total;
      let line := strip U line in
      match line with
      | [] => for_lines E U file_path lines'
      | _ :: _ =>
          parsed_line ← call_parse_chat_line E U line;
          _ ← match parsed_line with
              | Some row =>
                  _ ← count_processed;
                  writerow E (row_fields row file_path)
              | None => mret tt
              end;
          processed ← get_processed;
          _ ← (if processed mod 10000 =? 0 then flush E else mret tt);
          for_lines E U file_path lines'
      end
  end.

Definition txt : pystr := py ".txt".

(** The body of [for file in files] for a file whose name ends in
    [.txt]. *)
Definition process_file (E : logs_env) (U : ucd) (root file : pystr) : C unit :=
  let file_path := path_join E root file in
  _ ← print_out E (py "Processing " ++ file_path);
  try_except_C
    (_ ← for_lines E U file_path (fst (read_lines E file_path));
     fail_if (snd (read_lines E file_path)))
    (fun e =>
       if is_Exception e
       then print_out E (py "Error processing " ++ file ++ py ": " ++ str_exn e)
       else raise_C e).

Fixpoint for_files (E : logs_env) (U : ucd) (root : pystr) (files : list pystr)
  : C unit :=
  match files with
  | [] => mret tt
  | file :: files' =>
      _ ← (if endswith file txt then process_file E U root file else mret tt);
      for_files E U root files'
  end.

Fixpoint for_walk (E : logs_env) (U : ucd) (dirs : list (pystr * list pystr))
  : C unit :=
  match dirs with
  | [] => mret tt
  | (root, files) :: dirs' =>
      _ ← for_files E U root files;
      for_walk E U dirs'
  end.

Definition output_file : pystr := py "processed_logs/combined_chat_logs.csv".

Definition csv_header : list pystr :=
  [py "timestamp"; py "channel"; py "username"; py "message"; py "source_file"].

(** [with open(output_file, 'w', ...) as csvfile: body] *)
Definition with_output (E : logs_env) (body : C unit) : C unit :=
  fun s =>
    match open_output E with
    | Some e => (Raised e, s)
    | None =>
        match body s with
        | (Diverged, s') => (Diverged, s')
        | (r, s') =>
            match sink_fault E (table s') SinkClose with
            | Some e => (Raised e, s')
            | None => (r, s')
            end
        end
    end.

(** The four lines of the summary. *)
Definition summary_lines (s : conversion) : list pystr :=
  [LF :: py "Processing summary:";
   py "Total lines read: " ++ str_int (total_lines s);
   py "Successfully processed lines: " ++ str_int (processed_lines s);
   py "Output saved to: " ++ output_file].

Fixpoint print_all (E : logs_env) (lines : list pystr) : C unit :=
  match lines with
  | [] => mret tt
  | line :: lines' => _ ← print_out E line; print_all E lines'
  end.

(** The [finally] clause. *)
Definition summary (E : logs_env) : C unit :=
  fun s => print_all E (summary_lines s) s.

Definition interrupted_message : pystr :=
  LF :: py "Process interrupted by user. Saving progress...".

(** The clause [except KeyboardInterrupt]. *)
Definition on_interrupt (E : logs_env) (e : exn) : C unit :=
  match e with
  | KeyboardInterrupt => print_out E interrupted_message
  | _ => raise_C e
  end.

(** [process_log_files(logs_directory)]: its outcome, and the counters,
    the rows written and the lines printed when it ends. *)
Definition process_log_files (E : logs_env) (U : ucd) (logs_directory : pystr)
  : outcome pystr * conversion :=
  (_ ← fail_if (mkdir_processed E);
   _ ← try_finally
         (try_except_C
            (with_output E
               (_ ← writerow E csv_header;
                for_walk E U (os_walk E logs_directory)))
            (on_interrupt E))
         (summary E);
   mret output_file) (mk_conversion 0 0 [] []).

(** The script: the directory [logs] is converted if it exists. *)
Definition convert_logs (E : logs_env) (U : ucd) : outcome unit * conversion :=
  if logs_exist E then
    match process_log_files E U (py "logs") with
    | (Returned _, s) => (Returned tt, s)
    | (Raised e, s) => (Raised e, s)
    | (Diverged, s) => (Diverged, s)
    end
  else print_out E (py "Directory logs does not exist!") (mk_conversion 0 0 [] []).

(* ===================================================================== *)
(** ** Vocabulary of the further statements *)
(* ===================================================================== *)

(** *** Dates *)

(** The day of [t] at 00:00:00, which is what a format without a time of
    day reads. *)
Definition midnight (t : datetime) : datetime :=
  mk_datetime (year t) (month t) (day t) 0 0 0.

(** The values a two-digit directive reads back from its own rendering. *)
Definition pad2_range (f : tm_field) (v : Z) : Prop :=
  match f with
  | TY => False
  | Tm => 1 <= v <= 12
  | Td => 1 <= v <= 31
  | TH => 0 <= v <= 23
  | TM | TS => 0 <= v <= 59
  end.

(** [strptime] reads the string in the format [%d/%m/%Y]. *)
Definition accepted (U : ucd) (date_str : pystr) : Prop :=
  exists t, strptime U date_str fmt_dmY = Returned t.

(** What the terminal shows after the lines [bad] were refused. *)
Definition refusals (prompt : pystr) (bad : list pystr) : list pystr :=
  concat (map (fun _ => [prompt; invalid_date_message]) bad).

(** *** One day's download *)

(** The request [download_single_day] sends for the day [current_date]:
    the messages from its midnight to the next. *)
Definition day_request (channel : pystr) (current_date next_date : datetime) : request :=
  mk_request (channel_url channel)
    [(py "from", strftime_rfc3339 current_date); (py "to", strftime_rfc3339 next_date)].


(** [str(e)] of the [HTTPError] that [raise_for_status] raises for a
    response with a status from 400 to 599. *)
Definition http_error_message (r : response) : pystr :=
  str_int3 (status_code r) ++
  (if status_code r <? 500 then py " Client Error: " else py " Server Error: ") ++
  reason r ++ py " for url: " ++ url r.

Definition download_error (date_str msg : pystr) : pystr :=
  py "Error downloading " ++ date_str ++ py ": " ++ msg.

Definition unexpected_error (date_str msg : pystr) : pystr :=
  py "Unexpected error for " ++ date_str ++ py ": " ++ msg.

(** The request fails: [requests.get] raises a [RequestException], or the
    response carries a status from 400 to 599; [msg] is [str(e)] of the
    exception the [try] block then sees. *)
Definition request_fails (E : env) (req : request) (msg : pystr) : Prop :=
  (forall tr, http_get E tr req = Raised (RequestException msg)) \/
  (exists r, (forall tr, http_get E tr req = Returned r) /\
             400 <= status_code r < 600 /\ msg = http_error_message r).

(** The file in which the [logging] module keeps the messages of
    [logging.error]; the model keeps them as [Logged] events and says
    nothing of this file. *)
Definition logging_file : pystr := py "download_log.txt".

(** *** The failures of a batch *)

(** The entry a completed future leaves in [failed_downloads]: a result
    that holds the word "Error", or the text of an exception. *)
Definition failure_of (entry : pystr * (pystr + exn)) : option (pystr * pystr) :=
  match snd entry with
  | inl result =>
      if contains (py "Error") result then Some (fst entry, result) else None
  | inr e => Some (fst entry, str_exn e)
  end.

(** The text of the failure report. *)
Definition report_text (failed : list (pystr * pystr)) : pystr :=
  concat (map report_line failed).

(** *** The fields of a row *)

(** A string with no white space at either end. *)
Definition trimmed (U : ucd) (s : pystr) : Prop :=
  (forall c, head s = Some c -> isspace U c = false) /\
  (forall c, last s = Some c -> isspace U c = false).

(** No character is both white space and a word character (as in the
    Unicode database). *)
Definition separated (U : ucd) : Prop :=
  forall c, isspace U c = true -> isword U c = false.

(** A line put together from its parts:
    [[<ts>]<sp>#<channel><sp'><user>:<msg>]. *)
Definition chat_line (ts sp channel sp' user msg : pystr) : pystr :=
  lbracket :: ts ++ rbracket :: sp ++ hash :: channel ++ sp' ++ user ++ colon :: msg.

(** *** The table that should come out *)

(** The paths of the files read: those whose name ends in [.txt], in the
    order of the walk. *)
Definition txt_paths (E : logs_env) (logs_directory : pystr) : list pystr :=
  flat_map (fun d => map (path_join E (fst d))
                         (List.filter (fun file => endswith file txt) (snd d)))
           (os_walk E logs_directory).

(** The row of one line of the file [file_path], if it has one. *)
Definition row_of (E : logs_env) (U : ucd) (file_path line : pystr)
  : option (list pystr) :=
  match strip U line with
  | [] => None
  | _ :: _ =>
      match snd (parse_chat_line U (sys_stdout E) (strip U line)) with
      | Returned (Some row) => Some (row_fields row file_path)
      | _ => None
      end
  end.

(** The rows of the lines read from one file. *)
Definition rows_of (E : logs_env) (U : ucd) (file_path : pystr) : list (list pystr) :=
  omap (row_of E U file_path) (fst (read_lines E file_path)).

(** The lines read from the files [paths], and their rows. *)
Definition lines_from (E : logs_env) (paths : list pystr) : list pystr :=
  concat (map (fun p => fst (read_lines E p)) paths).

Definition rows_from (E : logs_env) (U : ucd) (paths : list pystr) : list (list pystr) :=
  concat (map (rows_of E U) paths).

(** The terminal can show what the conversion has to say about the file
    [file] of the directory [root]: its name, its path, the lines read
    from it, and the text of the exception that ends its reading. *)
Definition file_shown (E : logs_env) (root file : pystr) : Prop :=
  encodes (sys_stdout E) file /\
  encodes (sys_stdout E) (path_join E root file) /\
  Forall (encodes (sys_stdout E)) (fst (read_lines E (path_join E root file))) /\
  (forall e, snd (read_lines E (path_join E root file)) = Some e ->
             encodes (sys_stdout E) (str_exn e)).

(** The same of every file of the directory whose name ends in [.txt]. *)
Definition files_shown (E : logs_env) (root : pystr) (names : list pystr) : Prop :=
  Forall (fun file => endswith file txt = true -> file_shown E root file) names.

(** The same of every directory of the walk. *)
Definition logs_shown (E : logs_env) (logs_directory : pystr) : Prop :=
  Forall (fun d => files_shown E (fst d) (snd d)) (os_walk E logs_directory).

(** The line printed for a file that is about to be read, and the line
    printed when its reading or the writing of its rows has raised [e]. *)
Definition processing_line (E : logs_env) (root file : pystr) : pystr :=
  py "Processing " ++ path_join E root file.

Definition error_line (file : pystr) (e : exn) : pystr :=
  py "Error processing " ++ file ++ py ": " ++ str_exn e.

(** The terminal refuses the text: [print] raises [e] for it. *)
Definition refused (E : logs_env) (text : pystr) (e : exn) : Prop :=
  ~ encodes (sys_stdout E) text /\
  e = UnicodeEncodeError (encode_error (sys_stdout E) text).

(** [e] is what [print] raises for a line about the file [file] of
    [root]: the line that says the file is processed, or the line that
    reports an exception of its reading or of the writing of its rows. *)
Definition print_fails (E : logs_env) (root file : pystr) (e : exn) : Prop :=
  refused E (processing_line E root file) e \/
  exists e0, is_Exception e0 = true /\ refused E (error_line file e0) e.

(** The output never fails. *)
Definition sound_output (E : logs_env) : Prop :=
  mkdir_processed E = None /\ open_output E = None /\
  forall t op, sink_fault E t op = None.

(** The reading of the file was cut short by Ctrl-C. *)
Definition interrupted (E : logs_env) (file_path : pystr) : Prop :=
  snd (read_lines E file_path) = Some KeyboardInterrupt.

(** From [s] to [s'] the files [paths] were converted. *)
Definition converted (E : logs_env) (U : ucd) (s : conversion) (paths : list pystr)
  (s' : conversion) : Prop :=
  total_lines s' = total_lines s + Z.of_nat (length (lines_from E paths)) /\
  processed_lines s' = processed_lines s + Z.of_nat (length (rows_from E U paths)) /\
  table s' = table s ++ rows_from E U paths.

(** The counters and the table agree: no more lines processed than read,
    and no more rows written, the header apart, than lines processed. *)
Definition counts_ok (s : conversion) : Prop :=
  0 <= processed_lines s <= total_lines s /\
  Z.of_nat (length (table s)) <= processed_lines s + 1.

(** A table all of whose rows have the five fields of the header. *)
Definition five_columns (t : list (list pystr)) : Prop :=
  Forall (fun fields => length fields = 5%nat) t.

(** *** Services, worlds and directories of the examples *)

(** The world of [fresh_world] with the five permits of the default
    semaphore. *)
Definition fresh_world_5 : world := set_permits 5 fresh_world.

(** A service that answers every request with status 404. *)
Definition not_found : response :=
  mk_response 404 (py "Not Found") (py "https://logs.ivr.fi/channel/foo") [].

Definition no_such_channel : env :=
  mk_env (fun _ _ => Returned not_found) (fun _ _ _ => Written)
         (fun _ => None) (fun l => l).

(** What the batch of 1 to 3 January 2024 has in its local variables at
    the end, when the service answers 500 for 2 January. *)
Definition batch_of_one_bad_day : batch :=
  mk_batch
    [(py "2024-01-01", inl (success_result (py "2024-01-01")));
     (py "2024-01-02", inl jan_2_http_error);
     (py "2024-01-03", inl (success_result (py "2024-01-03")))]
    [(py "2024-01-02", jan_2_http_error)].

(** A run that is asked for a month that does not exist. *)
Definition bad_start : pystr := py "01/13/2024".

Definition second_line : pystr := py "[2023-05-01 10:00:05] #foo baz: a, b".

(** What reading the files of the examples yields; [b_ends] is how the
    reading of [logs/sub/b.txt] ends after its one line. *)
Definition demo_read (b_ends : option exn) (file_path : pystr)
  : list pystr * option exn :=
  if bool_decide (file_path = py "logs/a.txt") then
    ([example_line ++ [LF]; [LF]; py "no timestamp here" ++ [LF]], None)
  else if bool_decide (file_path = py "logs/sub/b.txt") then
    ([second_line ++ [LF]], b_ends)
  else ([], Some (OSError (py "[Errno 2] No such file or directory"))).

(** [logs] holds [a.txt] and [notes.md], [logs/sub] holds [b.txt] and
    [c.txt]; the output takes every row. *)
Definition demo_logs (b_ends : option exn) : logs_env :=
  mk_logs_env
    (fun top => [(top, [py "a.txt"; py "notes.md"]);
                 (top ++ py "/sub", [py "b.txt"; py "c.txt"])])
    (fun root file => root ++ py "/" ++ file)
    (demo_read b_ends)
    None None (fun _ _ => None) true utf8.

(** The reading of [b.txt] ends with a byte that is not UTF-8. *)
Definition undecodable : exn :=
  OtherError (py "'utf-8' codec can't decode byte 0xff in position 40: invalid start byte").

(** The same directories with an output file that cannot be opened. *)
Definition unwritable : logs_env :=
  mk_logs_env
    (os_walk (demo_logs None)) (path_join (demo_logs None)) (demo_read None)
    None (Some (OSError (py "[Errno 13] Permission denied: 'processed_logs/combined_chat_logs.csv'")))
    (fun _ _ => None) true utf8.

(** A file name with a byte that is not UTF-8 in it, which [os.walk]
    gives as a lone surrogate. *)
Definition odd_name : pystr := py "a" ++ [56575%N] ++ py ".txt".

(** A directory that holds this one file; the terminal is in UTF-8. *)
Definition misnamed : logs_env :=
  mk_logs_env
    (fun top => [(top, [odd_name])])
    (fun root file => root ++ py "/" ++ file)
    (fun _ => ([], None))
    None None (fun _ _ => None) true utf8.

(** What [print] raises for the line that names the file. *)
Definition misnamed_error : exn :=
  UnicodeEncodeError
    (py "'utf-8' codec can't encode character '\udcff' in position 17: surrogates not allowed").

(** A message with a comma, a quote and a line feed in it. *)
Definition awkward_row : list pystr :=
  [py "2023-05-01 10:00:00"; py "foo"; py "bar"; [104; 105; 44; 32; 34; 120; 34; 10; 33]%N;
   py "logs/a.txt"].

(* ===================================================================== *)
(** * Properties                                                          *)
(* ===================================================================== *)

(** Linear arithmetic with division and remainder by constants. *)
Ltac zlia := Z.div_mod_to_equations; lia.

(** ** The calendar *)

Lemma is_leap_true y : is_leap y = true <-> (y mod 4 = 0 /\ (y mod 100 <> 0 \/ y mod 400 = 0)).
Proof.
  unfold is_leap. rewrite andb_true_iff, orb_true_iff, negb_true_iff.
  rewrite !Z.eqb_eq, Z.eqb_neq. tauto.
Qed.

Lemma is_leap_false y : is_leap y = false <-> ~ (y mod 4 = 0 /\ (y mod 100 <> 0 \/ y mod 400 = 0)).
Proof. rewrite <- is_leap_true. destruct (is_leap y); split; congruence. Qed.

Lemma days_before_year_succ y :
  days_before_year (y + 1) = days_before_year y + days_in_year y.
Proof.
  unfold days_before_year, days_in_year.
  destruct (is_leap y) eqn:E.
  - apply is_leap_true in E. zlia.
  - apply is_leap_false in E. zlia.
Qed.

Lemma days_before_year_mono y1 y2 :
  y1 <= y2 -> days_before_year y1 <= days_before_year y2.
Proof.
  intros H. replace y2 with (y1 + Z.of_nat (Z.to_nat (y2 - y1))) by lia.
  induction (Z.to_nat (y2 - y1)) as [|k IH].
  - rewrite Z.add_0_r. lia.
  - replace (y1 + Z.of_nat (S k)) with (y1 + Z.of_nat k + 1) by lia.
    rewrite days_before_year_succ. unfold days_in_year.
    destruct (is_leap _); lia.
Qed.

Lemma days_before_year_next y1 y2 :
  y1 < y2 -> days_before_year y1 + days_in_year y1 <= days_before_year y2.
Proof.
  intros H. rewrite <- days_before_year_succ. apply days_before_year_mono. lia.
Qed.

Ltac month_cases m :=
  let H := fresh in
  assert (m = 1 \/ m = 2 \/ m = 3 \/ m = 4 \/ m = 5 \/ m = 6 \/
          m = 7 \/ m = 8 \/ m = 9 \/ m = 10 \/ m = 11 \/ m = 12) as H by lia;
  repeat (destruct H as [H|H]); subst m.

Lemma days_before_month_bounds y m :
  1 <= m <= 12 ->
  0 <= days_before_month y m /\
  days_before_month y m + days_in_month y m <= days_in_year y /\
  1 <= days_in_month y m.
Proof.
  intros Hm. unfold days_before_month, days_in_month, days_in_year.
  month_cases m; destruct (is_leap y); simpl; lia.
Qed.

Lemma days_before_month_next y m1 m2 :
  1 <= m1 -> m1 < m2 -> m2 <= 12 ->
  days_before_month y m1 + days_in_month y m1 <= days_before_month y m2.
Proof.
  intros H1 H2 H3. unfold days_before_month, days_in_month.
  month_cases m1; month_cases m2; try lia; destruct (is_leap y); simpl; lia.
Qed.

Lemma ymd2ord_year_bounds y m d :
  1 <= m <= 12 -> 1 <= d <= days_in_month y m ->
  days_before_year y < ymd2ord y m d <= days_before_year y + days_in_year y.
Proof.
  intros Hm Hd. unfold ymd2ord.
  pose proof (days_before_month_bounds y m Hm). lia.
Qed.

Lemma ymd2ord_lt y1 m1 d1 y2 m2 d2 :
  1 <= m1 <= 12 -> 1 <= d1 <= days_in_month y1 m1 ->
  1 <= m2 <= 12 -> 1 <= d2 <= days_in_month y2 m2 ->
  y1 < y2 \/ (y1 = y2 /\ (m1 < m2 \/ (m1 = m2 /\ d1 < d2))) ->
  ymd2ord y1 m1 d1 < ymd2ord y2 m2 d2.
Proof.
  intros Hm1 Hd1 Hm2 Hd2 [Hy | [-> [Hm | [-> Hd]]]].
  - pose proof (ymd2ord_year_bounds y1 m1 d1 Hm1 Hd1).
    pose proof (ymd2ord_year_bounds y2 m2 d2 Hm2 Hd2).
    pose proof (days_before_year_next y1 y2 Hy). lia.
  - unfold ymd2ord.
    pose proof (days_before_month_next y2 m1 m2 ltac:(lia) Hm ltac:(lia)). lia.
  - unfold ymd2ord. lia.
Qed.

Lemma ymd2ord_range y m d :
  valid_ymd y m d -> 1 <= ymd2ord y m d <= MAXORDINAL.
Proof.
  intros (Hy & Hm & Hd). unfold MINYEAR, MAXYEAR in Hy.
  pose proof (ymd2ord_year_bounds y m d Hm Hd) as H.
  pose proof (days_before_year_mono 1 y ltac:(lia)) as H1.
  pose proof (days_before_year_mono (y + 1) 10000 ltac:(lia)) as H2.
  rewrite days_before_year_succ in H2.
  change (days_before_year 1) with 0 in H1.
  change (days_before_year 10000) with MAXORDINAL in H2. lia.
Qed.

Lemma valid_datetime_ymd t : valid_datetime t -> valid_ymd (year t) (month t) (day t).
Proof. unfold valid_datetime, valid_ymd. tauto. Qed.

Lemma datetime_le_toordinal a b :
  valid_datetime a -> valid_datetime b ->
  hour a = hour b -> minute a = minute b -> second a = second b ->
  datetime_le a b = (toordinal a <=? toordinal b).
Proof.
  intros Va Vb Hh Hm Hs.
  apply valid_datetime_ymd in Va, Vb. destruct Va as (_ & Ma & Da), Vb as (_ & Mb & Db).
  unfold datetime_le, datetime_key, toordinal. cbn [lex_le].
  rewrite Hh, Hm, Hs, !Z.ltb_irrefl, !Z.eqb_refl. cbn [orb andb].
  pose proof (ymd2ord_lt (year a) (month a) (day a) (year b) (month b) (day b) Ma Da Mb Db) as Hab.
  pose proof (ymd2ord_lt (year b) (month b) (day b) (year a) (month a) (day a) Mb Db Ma Da) as Hba.
  destruct (Z.leb_spec (ymd2ord (year a) (month a) (day a)) (ymd2ord (year b) (month b) (day b)));
    destruct (Z.ltb_spec (year a) (year b)); cbn [orb]; try reflexivity; try lia;
    destruct (Z.eqb_spec (year a) (year b)); cbn [andb]; try reflexivity; try lia;
    destruct (Z.ltb_spec (month a) (month b)); cbn [orb]; try reflexivity; try lia;
    destruct (Z.eqb_spec (month a) (month b)); cbn [andb]; try reflexivity; try lia;
    destruct (Z.ltb_spec (day a) (day b)); cbn [orb]; try reflexivity; try lia;
    destruct (Z.eqb_spec (day a) (day b)); cbn [andb]; try reflexivity; try lia.
  exfalso. rewrite e, e0, e1 in H. lia.
Qed.

Lemma yday_ok_all (leapyear : bool) n :
  0 <= n < (if leapyear then 366 else 365) -> yday_ok leapyear n = true.
Proof.
  intros H.
  assert (forallb (yday_ok leapyear) (map Z.of_nat (seq 0 (if leapyear then 366 else 365))) = true) as A
    by (destruct leapyear; vm_compute; reflexivity).
  rewrite forallb_forall in A. apply A.
  apply in_map_iff. exists (Z.to_nat n). split; [lia|].
  apply in_seq. destruct leapyear; lia.
Qed.

Lemma month_of_yday_spec y n :
  0 <= n < days_in_year y ->
  let '(m, d) := month_of_yday (is_leap y) n in
  1 <= m <= 12 /\ 1 <= d <= days_in_month y m /\ days_before_month y m + d = n + 1.
Proof.
  intros H. pose proof (yday_ok_all (is_leap y) n H) as A.
  unfold yday_ok in A. destruct (month_of_yday (is_leap y) n) as [m d].
  rewrite !andb_true_iff, !Z.leb_le, Z.eqb_eq in A.
  unfold days_in_month, days_before_month.
  destruct A as ((((A1 & A2) & A3) & A4) & A5).
  repeat split; try lia.
  destruct ((m =? 2) && is_leap y) eqn:E; [|lia].
  apply andb_true_iff in E. destruct E as [E _]. apply Z.eqb_eq in E. subst m.
  simpl in A4. lia.
Qed.

Lemma ord2ymd_spec n :
  1 <= n <= MAXORDINAL ->
  let '(y, m, d) := ord2ymd n in valid_ymd y m d /\ ymd2ord y m d = n.
Proof.
  intros Hn. unfold MAXORDINAL in Hn. unfold ord2ymd, DI400Y, DI100Y, DI4Y.
  set (n0 := n - 1).
  set (n400 := n0 / 146097). set (r1 := n0 mod 146097).
  set (n100 := r1 / 36524). set (r2 := r1 mod 36524).
  set (n4 := r2 / 1461). set (r3 := r2 mod 1461).
  set (n1 := r3 / 365). set (r4 := r3 mod 365).
  assert (n0 = 146097 * n400 + r1 /\ 0 <= r1 < 146097) as [E1 B1] by (subst n400 r1; zlia).
  assert (r1 = 36524 * n100 + r2 /\ 0 <= r2 < 36524) as [E2 B2] by (subst n100 r2; zlia).
  assert (r2 = 1461 * n4 + r3 /\ 0 <= r3 < 1461) as [E3 B3] by (subst n4 r3; zlia).
  assert (r3 = 365 * n1 + r4 /\ 0 <= r4 < 365) as [E4 B4] by (subst n1 r4; zlia).
  assert (n = n0 + 1) as En by (subst n0; lia).
  clearbody n0 n400 r1 n100 r2 n4 r3 n1 r4.
  set (y := n400 * 400 + 1 + n100 * 100 + n4 * 4 + n1).
  assert (0 <= n400 <= 24 /\ 0 <= n100 <= 4 /\ 0 <= n4 <= 24 /\ 0 <= n1 <= 4) as B by lia.
  destruct ((n1 =? 4) || (n100 =? 4)) eqn:Last.
  - (* the last day of a leap year *)
    assert (days_before_year y = n0 + 1) as Dn.
    { apply orb_true_iff in Last. rewrite !Z.eqb_eq in Last.
      unfold days_before_year. subst y. zlia. }
    assert (is_leap (y - 1) = true) as L.
    { apply is_leap_true. apply orb_true_iff in Last. rewrite !Z.eqb_eq in Last.
      subst y. zlia. }
    assert (days_before_year y = days_before_year (y - 1) + 366) as S.
    { replace y with (y - 1 + 1) at 1 by lia. rewrite days_before_year_succ.
      unfold days_in_year. now rewrite L. }
    unfold valid_ymd, ymd2ord, days_in_month, days_before_month, MINYEAR, MAXYEAR.
    rewrite L. simpl. 
    assert (2 <= y <= 10000).
    { pose proof (days_before_year_mono 10001 y). 
      pose proof (days_before_year_mono y 1).
      change (days_before_year 10001) with 3652425 in *.
      change (days_before_year 1) with 0 in *. lia. }
    lia.
  - apply orb_false_iff in Last. rewrite !Z.eqb_neq in Last.
    assert (days_before_year y = 146097 * n400 + 36524 * n100 + 1461 * n4 + 365 * n1) as Dy.
    { unfold days_before_year. subst y. zlia. }
    set (leapyear := (n1 =? 3) && (negb (n4 =? 24) || (n100 =? 3))).
    assert (leapyear = is_leap y) as L.
    { subst leapyear. destruct (is_leap y) eqn:E.
      - apply is_leap_true in E. 
        rewrite andb_true_iff, orb_true_iff, negb_true_iff, !Z.eqb_eq, Z.eqb_neq.
        subst y. zlia.
      - apply is_leap_false in E.
        apply not_true_is_false. intros C. apply E.
        rewrite andb_true_iff, orb_true_iff, negb_true_iff, !Z.eqb_eq, Z.eqb_neq in C.
        subst y. zlia. }
    assert (0 <= r4 < days_in_year y) as R by (unfold days_in_year; destruct (is_leap y); lia).
    pose proof (month_of_yday_spec y r4 R) as M.
    unfold month_of_yday in M. rewrite <- L in M.
    match goal with |- context [if ?c then _ else _] => destruct c end.
    all: destruct M as (M1 & M2 & M3); unfold valid_ymd, ymd2ord, MINYEAR, MAXYEAR;
      repeat split; try lia.
    all: subst y; lia.
Qed.

(** ** [strptime] returns datetimes that exist *)

Lemma decimal_bounds U c v : decimal U c = Some v -> 0 <= v <= 9.
Proof.
  unfold decimal, in_range. destruct (c <? 128)%N.
  - destruct ((48 <=? c)%N && (c <=? 57)%N) eqn:E; [|discriminate].
    apply andb_true_iff in E. rewrite !N.leb_le in E. intros [= <-]. lia.
  - destruct (ucd_decimal U c) as [d|]; [|discriminate].
    cbn. intros [= <-]. pose proof (fin_to_nat_lt d). lia.
Qed.

Lemma decimal_in_range U lo hi c :
  (48 <= lo)%N -> (hi <= 57)%N -> in_range lo hi c = true ->
  exists v, decimal U c = Some v /\ Z.of_N lo - 48 <= v <= Z.of_N hi - 48.
Proof.
  unfold in_range, decimal. intros Hlo Hhi E.
  apply andb_true_iff in E. rewrite !N.leb_le in E.
  replace (c <? 128)%N with true by (symmetry; apply N.ltb_lt; lia).
  unfold in_range.
  replace ((48 <=? c)%N && (c <=? 57)%N) with true
    by (symmetry; apply andb_true_iff; rewrite !N.leb_le; lia).
  eexists. split; [reflexivity|]. lia.
Qed.

Lemma alt_match_bounds U alt : forall s acc lo hi v rest,
  alt_wf alt = true ->
  alt_match U alt s acc = Some (v, rest) ->
  lo <= acc <= hi ->
  fst (alt_bounds alt lo hi) <= v <= snd (alt_bounds alt lo hi).
Proof.
  induction alt as [|cl alt IH]; intros s acc lo hi v rest Hwf Hm Hacc.
  - simpl in *. injection Hm as <- _. lia.
  - destruct s as [|c s]; [discriminate|]. cbn [alt_match] in Hm.
    destruct cl as [a b| |]; cbn [alt_wf alt_bounds class_value] in *.
    + apply andb_true_iff in Hwf. destruct Hwf as [Hr Hwf].
      apply andb_true_iff in Hr. rewrite !N.leb_le in Hr.
      destruct (in_range a b c) eqn:E; [|discriminate].
      destruct (decimal_in_range U a b c ltac:(lia) ltac:(lia) E) as (d & Hdec & Hd).
      rewrite Hdec in Hm.
      eapply IH; [exact Hwf|exact Hm|lia].
    + destruct (decimal U c) as [d|] eqn:E; [|discriminate].
      apply decimal_bounds in E.
      eapply IH; [exact Hwf|exact Hm|lia].
    + destruct (c =? 32)%N; [|discriminate].
      eapply IH; [exact Hwf|exact Hm|lia].
Qed.

Lemma first_alt_inv {R} U alts : forall s (k : Z -> pystr -> option R) r,
  first_alt U alts s k = Some r ->
  exists alt v rest,
    In alt alts /\ alt_match U alt s 0 = Some (v, rest) /\ k v rest = Some r.
Proof.
  induction alts as [|alt alts IH]; intros s k r H; [discriminate|].
  cbn [first_alt] in H.
  destruct (alt_match U alt s 0) as [[v rest]|] eqn:E.
  - destruct (k v rest) eqn:K.
    + injection H as <-. exists alt, v, rest. simpl. auto.
    + destruct (IH _ _ _ H) as (a & v' & rest' & ? & ? & ?).
      exists a, v', rest'. simpl. auto.
  - destruct (IH _ _ _ H) as (a & v' & rest' & ? & ? & ?).
    exists a, v', rest'. simpl. auto.
Qed.

Lemma directive_alts_bounds f alt :
  In alt (directive_alts f) ->
  alt_wf alt = true /\
  field_lo f <= fst (alt_bounds alt 0 0) /\ snd (alt_bounds alt 0 0) <= field_hi f.
Proof.
  destruct f; simpl; intros H;
    repeat (destruct H as [<-|H]; [vm_compute; intuition congruence|]); destruct H.
Qed.

Lemma directive_value_bounds {R} U f s (k : Z -> pystr -> option R) r :
  first_alt U (directive_alts f) s k = Some r ->
  exists v rest, field_lo f <= v <= field_hi f /\ k v rest = Some r.
Proof.
  intros H. destruct (first_alt_inv U _ _ _ _ H) as (alt & v & rest & Hin & Hm & Hk).
  destruct (directive_alts_bounds f alt Hin) as (Hwf & Hlo & Hhi).
  pose proof (alt_match_bounds U alt s 0 0 0 v rest Hwf Hm ltac:(lia)).
  exists v, rest. split; [lia|exact Hk].
Qed.

Lemma greedy_inv {R} n : forall lo s (k : pystr -> pystr -> option R) r,
  greedy n lo s k = Some r ->
  exists j, (lo <= j <= n)%nat /\ k (take j s) (drop j s) = Some r.
Proof.
  induction n as [|n IH]; intros lo s k r H; cbn [greedy] in H.
  - destruct (0 <? lo)%nat eqn:E; [discriminate|]. apply Nat.ltb_ge in E.
    destruct (k (take 0 s) (drop 0 s)) eqn:K; [|discriminate].
    injection H as <-. exists O. split; [lia|exact K].
  - destruct (S n <? lo)%nat eqn:E; [discriminate|]. apply Nat.ltb_ge in E.
    destruct (k (take (S n) s) (drop (S n) s)) eqn:K.
    + injection H as <-. exists (S n). split; [lia|exact K].
    + destruct (IH _ _ _ _ H) as (j & Hj & Hk). exists j. split; [lia|exact Hk].
Qed.

Lemma tm_set_ok f v t :
  tm_ok t -> field_lo f <= v <= field_hi f -> tm_ok (tm_set f v t).
Proof.
  intros Ht Hv g. pose proof (Ht g). destruct f, g; simpl in *; lia.
Qed.

Lemma match_fmt_ok U items : forall s acc t rest,
  tm_ok acc -> match_fmt U items s acc = Some (t, rest) -> tm_ok t.
Proof.
  induction items as [|it items IH]; intros s acc t rest Hacc H.
  - simpl in H. injection H as <- _. exact Hacc.
  - destruct it as [f|c|]; cbn [match_fmt] in H.
    + apply directive_value_bounds in H. destruct H as (v & rest' & Hv & H).
      eapply IH; [|exact H]. now apply tm_set_ok.
    + unfold lit in H. destruct s as [|c' s]; [discriminate|].
      destruct (c =? c')%N; [|discriminate]. eapply IH; eauto.
    + unfold rep_greedy in H. apply greedy_inv in H. destruct H as (j & _ & H).
      eapply IH; eauto.
Qed.

Lemma match_fmt_date_only U items : forall s acc t rest,
  Forall date_item items ->
  match_fmt U items s acc = Some (t, rest) ->
  tm_H t = tm_H acc /\ tm_M t = tm_M acc /\ tm_S t = tm_S acc.
Proof.
  induction items as [|it items IH]; intros s acc t rest Hd H.
  - simpl in H. injection H as <- _. auto.
  - inversion Hd as [|? ? Hit Hd']; subst.
    destruct it as [f|c|]; cbn [match_fmt] in H.
    + apply first_alt_inv in H. destruct H as (alt & v & rest' & _ & _ & H).
      apply IH in H; [|exact Hd']. destruct f; simpl in *; tauto.
    + unfold lit in H. destruct s as [|c' s]; [discriminate|].
      destruct (c =? c')%N; [|discriminate]. eapply IH; eauto.
    + unfold rep_greedy in H. apply greedy_inv in H. destruct H as (j & _ & H).
      eapply IH; eauto.
Qed.

Lemma tm_default_ok : tm_ok tm_default.
Proof. intros f. destruct f; simpl; lia. Qed.

Lemma strptime_inv U data f t :
  strptime U data f = Returned t ->
  exists x, match_fmt U (fmt_items f) data tm_default = Some (x, []) /\
    t = mk_datetime (tm_Y x) (tm_m x) (tm_d x) (tm_H x) (tm_M x) (tm_S x) /\
    MINYEAR <= tm_Y x /\ tm_d x <= days_in_month (tm_Y x) (tm_m x) /\ tm_S x <= 59.
Proof.
  unfold strptime. destruct (match_fmt U (fmt_items f) data tm_default) as [[x rest]|];
    [|discriminate].
  destruct rest; [|discriminate].
  destruct (Z.ltb_spec (tm_Y x) MINYEAR); [discriminate|].
  destruct (Z.ltb_spec (days_in_month (tm_Y x) (tm_m x)) (tm_d x)); [discriminate|].
  destruct (Z.ltb_spec 59 (tm_S x)); [discriminate|].
  intros [= <-]. exists x. repeat split; auto; lia.
Qed.

(** Whatever the format, a datetime that [strptime] returns exists. *)
Lemma strptime_valid U data f t :
  strptime U data f = Returned t -> valid_datetime t.
Proof.
  intros H. apply strptime_inv in H. destruct H as (x & Hm & -> & HY & Hd & HS).
  pose proof (match_fmt_ok U _ _ _ _ _ tm_default_ok Hm) as Ok.
  pose proof (Ok TY). pose proof (Ok Tm). pose proof (Ok Td).
  pose proof (Ok TH). pose proof (Ok TM). pose proof (Ok TS).
  unfold valid_datetime, MAXYEAR. simpl in *. lia.
Qed.

Lemma strptime_dmY_midnight U data t :
  strptime U data fmt_dmY = Returned t -> at_midnight t.
Proof.
  intros H. apply strptime_inv in H. destruct H as (x & Hm & -> & _).
  apply match_fmt_date_only in Hm.
  - unfold at_midnight. simpl in *. tauto.
  - simpl. repeat constructor.
Qed.

(** ** The loop of [generate_date_list] *)

Lemma ord2ymd_ymd2ord y m d :
  valid_ymd y m d -> ord2ymd (ymd2ord y m d) = (y, m, d).
Proof.
  intros V. pose proof (ymd2ord_range y m d V) as R.
  pose proof (ord2ymd_spec _ R) as S.
  destruct (ord2ymd (ymd2ord y m d)) as [[y' m'] d'].
  destruct S as ((_ & M' & D') & E). destruct V as (_ & M & D).
  pose proof (ymd2ord_lt y m d y' m' d' M D M' D').
  pose proof (ymd2ord_lt y' m' d' y m d M' D' M D).
  assert (y = y') by lia. subst y'.
  assert (m = m') by lia. subst m'.
  assert (d = d') by lia. subst d'. reflexivity.
Qed.

Lemma day_at_0 t : valid_datetime t -> day_at t 0 = t.
Proof.
  intros V. unfold day_at, toordinal. rewrite Z.add_0_r.
  rewrite ord2ymd_ymd2ord by now apply valid_datetime_ymd.
  now destruct t.
Qed.

Lemma toordinal_range t : valid_datetime t -> 1 <= toordinal t <= MAXORDINAL.
Proof. intros V. apply ymd2ord_range. now apply valid_datetime_ymd. Qed.

Lemma day_at_spec t i :
  valid_datetime t -> 1 <= toordinal t + i <= MAXORDINAL ->
  valid_datetime (day_at t i) /\ toordinal (day_at t i) = toordinal t + i /\
  hour (day_at t i) = hour t /\ minute (day_at t i) = minute t /\
  second (day_at t i) = second t.
Proof.
  intros V R. unfold day_at. pose proof (ord2ymd_spec _ R) as S.
  destruct (ord2ymd (toordinal t + i)) as [[y m] d].
  destruct S as (Vy & E). unfold valid_datetime, valid_ymd, toordinal in *.
  simpl. intuition.
Qed.

Lemma day_at_day_at t i j :
  valid_datetime t -> 1 <= toordinal t + i <= MAXORDINAL ->
  day_at (day_at t i) j = day_at t (i + j).
Proof.
  intros V R. destruct (day_at_spec t i V R) as (_ & E & Hh & Hm & Hs).
  unfold day_at at 1. rewrite E, Hh, Hm, Hs. unfold day_at.
  now rewrite Z.add_assoc.
Qed.

Lemma add_days_next t :
  valid_datetime t -> toordinal t < MAXORDINAL ->
  add_days t 1 = Returned (day_at t 1).
Proof.
  intros V L. pose proof (toordinal_range t V).
  unfold add_days, day_at.
  replace ((0 <? toordinal t + 1) && (toordinal t + 1 <=? MAXORDINAL)) with true
    by (symmetry; apply andb_true_iff; rewrite Z.ltb_lt, Z.leb_le; lia).
  now destruct (ord2ymd (toordinal t + 1)) as [[y m] d].
Qed.

Lemma days_from_S t n :
  valid_datetime t -> toordinal t < MAXORDINAL ->
  days_from t (S n) = t :: days_from (day_at t 1) n.
Proof.
  intros V L. pose proof (toordinal_range t V).
  unfold days_from. cbn [seq map]. rewrite day_at_0 by exact V. f_equal.
  rewrite <- seq_shift, map_map. apply map_ext. intros i.
  rewrite day_at_day_at by (auto; lia). f_equal. lia.
Qed.

Lemma date_loop_spec n : forall fuel current_date end_date date_list,
  valid_datetime current_date -> valid_datetime end_date ->
  hour current_date = hour end_date -> minute current_date = minute end_date ->
  second current_date = second end_date ->
  toordinal end_date < MAXORDINAL ->
  Z.of_nat n = Z.max 0 (toordinal end_date - toordinal current_date + 1) ->
  (n < fuel)%nat ->
  date_loop fuel current_date end_date date_list
  = Returned (date_list ++ map strftime_Ymd (days_from current_date n)).
Proof.
  induction n as [|n IH]; intros fuel cur end_ acc Vc Ve Hh Hm Hs Hmax Hn Hfuel;
    (destruct fuel as [|fuel]; [lia|]); cbn [date_loop];
    rewrite (datetime_le_toordinal cur end_ Vc Ve Hh Hm Hs).
  - destruct (Z.leb_spec (toordinal cur) (toordinal end_)); [lia|].
    simpl. now rewrite app_nil_r.
  - destruct (Z.leb_spec (toordinal cur) (toordinal end_)); [|lia].
    rewrite add_days_next by (auto; lia). cbn [mbind outcome_bind].
    destruct (day_at_spec cur 1 Vc) as (V' & E' & Hh' & Hm' & Hs').
    { pose proof (toordinal_range cur Vc). lia. }
    rewrite IH; try congruence; try lia.
    rewrite days_from_S by (auto; lia).
    cbn [map]. rewrite <- app_assoc. reflexivity.
Qed.

Lemma days_from_lookup t n i :
  (i < n)%nat -> days_from t n !! i = Some (day_at t (Z.of_nat i)).
Proof.
  intros H. unfold days_from. rewrite list_lookup_fmap.
  rewrite lookup_seq_lt by exact H. reflexivity.
Qed.

(** C4 (as the code has it).  When both dates parse, the start is not
    after the end and the end is before 31 December 9999,
    [generate_date_list] returns the renderings of
    [(end - start).days + 1] datetimes: the first is the start, the last
    is the end, each is one day after the one before, and all exist. *)
Theorem generate_date_list_range
  (U : ucd) (fuel : nat) (start_date_str end_date_str : pystr)
  (start_date end_date : datetime) :
  strptime U start_date_str fmt_dmY = Returned start_date ->
  strptime U end_date_str fmt_dmY = Returned end_date ->
  datetime_le start_date end_date = true ->
  toordinal end_date < MAXORDINAL ->
  (Z.to_nat (days_between start_date end_date) + 1 < fuel)%nat ->
  exists days : list datetime,
    generate_date_list U fuel start_date_str end_date_str
      = Returned (map strftime_Ymd days) /\
    Z.of_nat (length days) = days_between start_date end_date + 1 /\
    head days = Some start_date /\
    last days = Some end_date /\
    (forall i a b, days !! i = Some a -> days !! S i = Some b ->
                   toordinal b = toordinal a + 1) /\
    Forall valid_datetime days.
Proof.
  intros Hs He Hle Hmax Hfuel.
  pose proof (strptime_valid _ _ _ _ Hs) as Vs.
  pose proof (strptime_valid _ _ _ _ He) as Ve.
  destruct (strptime_dmY_midnight _ _ _ Hs) as (Sh & Sm & Ss).
  destruct (strptime_dmY_midnight _ _ _ He) as (Eh & Em & Es).
  rewrite datetime_le_toordinal in Hle by (auto; congruence).
  apply Z.leb_le in Hle. unfold days_between in *.
  pose proof (toordinal_range start_date Vs) as Rs.
  set (n := Z.to_nat (toordinal end_date - toordinal start_date + 1)).
  assert (Z.of_nat n = toordinal end_date - toordinal start_date + 1) as En by lia.
  exists (days_from start_date n).
  assert (forall i, (i < n)%nat -> 1 <= toordinal start_date + Z.of_nat i <= MAXORDINAL)
    as Ri by (intros; lia).
  assert (length (days_from start_date n) = n) as Len
    by (unfold days_from; now rewrite length_map, length_seq).
  split; [|split; [|split; [|split; [|split]]]].
  - unfold generate_date_list. rewrite Hs, He. cbn [mbind outcome_bind].
    rewrite (date_loop_spec n); auto; try congruence; try lia.
  - rewrite Len. lia.
  - destruct n as [|n']; [lia|]. rewrite days_from_S by (auto; lia). reflexivity.
  - rewrite last_lookup, Len.
    rewrite days_from_lookup by lia.
    f_equal. destruct (day_at_spec start_date (Z.of_nat (Init.Nat.pred n)) Vs)
      as (V & E & H1 & H2 & H3); [apply Ri; lia|].
    rewrite <- (day_at_0 end_date Ve).
    unfold day_at.
    replace (toordinal end_date + 0)
      with (toordinal start_date + Z.of_nat (Init.Nat.pred n)) by lia.
    now rewrite Sh, Sm, Ss, Eh, Em, Es.
  - intros i a b Ha Hb.
    assert (S i < n)%nat as Hi.
    { apply lookup_lt_Some in Hb. now rewrite Len in Hb. }
    rewrite days_from_lookup in Ha by lia. rewrite days_from_lookup in Hb by lia.
    injection Ha as <-. injection Hb as <-.
    destruct (day_at_spec start_date (Z.of_nat i) Vs) as (_ & -> & _); [apply Ri; lia|].
    destruct (day_at_spec start_date (Z.of_nat (S i)) Vs) as (_ & -> & _); [apply Ri; lia|].
    lia.
  - apply Forall_forall. intros d Hd. unfold days_from in Hd.
    apply list_elem_of_fmap in Hd. destruct Hd as (i & -> & Hi).
    apply elem_of_seq in Hi.
    apply day_at_spec; [exact Vs|apply Ri; lia].
Qed.

Lemma generate_date_list_range_witness :
  exists days : list datetime,
    generate_date_list ascii_only 8 (py "30/12/2023") (py "02/01/2024")
      = Returned (map strftime_Ymd days) /\
    Z.of_nat (length days) = days_between dec_30_2023 jan_2_2024 + 1 /\
    head days = Some dec_30_2023 /\
    last days = Some jan_2_2024 /\
    (forall i a b, days !! i = Some a -> days !! S i = Some b ->
                   toordinal b = toordinal a + 1) /\
    Forall valid_datetime days.
Proof.
  apply (generate_date_list_range ascii_only 8 (py "30/12/2023") (py "02/01/2024")
           dec_30_2023 jan_2_2024); try reflexivity.
  vm_compute. lia.
Defined.

(** ** Date ranges *)

Lemma date_loop_past_end fuel current_date end_date date_list :
  datetime_gt current_date end_date ->
  date_loop (S fuel) current_date end_date date_list = Returned date_list.
Proof. unfold datetime_gt. intros H. simpl. rewrite H. reflexivity. Qed.

(** C1 (as the code has it).  When the start date is after the end date,
    [generate_date_list] raises nothing: the loop body never runs and the
    function returns the empty list. *)
Theorem generate_date_list_reversed_range
  (U : ucd) (fuel : nat) (start_date_str end_date_str : pystr)
  (start_date end_date : datetime) :
  strptime U start_date_str fmt_dmY = Returned start_date ->
  strptime U end_date_str fmt_dmY = Returned end_date ->
  datetime_gt start_date end_date ->
  generate_date_list U (S fuel) start_date_str end_date_str = Returned [].
Proof.
  intros Hs He Hgt. unfold generate_date_list.
  rewrite Hs, He. cbn [mbind outcome_bind].
  now apply date_loop_past_end.
Qed.

Lemma generate_date_list_reversed_range_witness :
  strptime ascii_only (py "02/01/2024") fmt_dmY = Returned jan_2_2024 /\
  strptime ascii_only (py "01/01/2024") fmt_dmY = Returned jan_1_2024 /\
  datetime_gt jan_2_2024 jan_1_2024 /\
  generate_date_list ascii_only 1 (py "02/01/2024") (py "01/01/2024") = Returned [].
Proof.
  split; [reflexivity|]. split; [reflexivity|]. split; [reflexivity|].
  apply (generate_date_list_reversed_range ascii_only 0 _ _ jan_2_2024 jan_1_2024);
    reflexivity.
Defined.

(** C1 (as stated) fails: from 2 January 2024 back to 1 January 2024 the
    function returns a sequence, the empty one, and raises no error. *)
Lemma generate_date_list_reversed_range_no_error :
  strptime ascii_only (py "02/01/2024") fmt_dmY = Returned jan_2_2024 /\
  strptime ascii_only (py "01/01/2024") fmt_dmY = Returned jan_1_2024 /\
  datetime_gt jan_2_2024 jan_1_2024 /\
  ~ (exists e, generate_date_list ascii_only 1 (py "02/01/2024") (py "01/01/2024")
               = Raised e).
Proof.
  split; [reflexivity|]. split; [reflexivity|]. split; [reflexivity|].
  intros [e He]. vm_compute in He. discriminate He.
Qed.

(** For the range that ends on 31 December 9999 the loop appends the last
    day and then steps past [datetime.max]: there is no day after the last
    one a [datetime] can hold. *)
Lemma last_day_overflows (U : ucd) (fuel : nat) :
  generate_date_list U (S fuel) (py "31/12/9999") (py "31/12/9999")
  = Raised (OverflowError (py "date value out of range")).
Proof. reflexivity. Qed.

(** C4 (as stated) fails: 31 December 9999 is a valid date and a range of
    one day, and the call returns no sequence for it, with any fuel. *)
Lemma generate_date_list_last_day_overflows :
  strptime ascii_only (py "31/12/9999") fmt_dmY = Returned dec_31_9999 /\
  valid_datetime dec_31_9999 /\
  datetime_le dec_31_9999 dec_31_9999 = true /\
  forall fuel,
    ~ (exists l, generate_date_list ascii_only fuel (py "31/12/9999") (py "31/12/9999")
                 = Returned l).
Proof.
  split; [reflexivity|]. split; [vm_compute; intuition discriminate|].
  split; [reflexivity|].
  intros [|fuel] [l H]; [discriminate H|].
  rewrite last_day_overflows in H. discriminate H.
Qed.

(** ** Strings *)

Lemma startswith_spec s pre :
  startswith s pre = true <-> exists post, s = pre ++ post.
Proof.
  revert s. induction pre as [|p pre IH]; intros s.
  - destruct s; cbn [startswith]; split; eauto.
  - destruct s as [|c s]; cbn [startswith].
    + split; [discriminate|]. intros [post H]. discriminate H.
    + rewrite andb_true_iff, N.eqb_eq, IH. split.
      * intros [-> [post ->]]. eauto.
      * intros [post [= -> ->]]. eauto.
Qed.

Lemma contains_spec needle haystack :
  contains needle haystack = true <-> substring needle haystack.
Proof.
  unfold substring. induction haystack as [|c h IH]; cbn [contains].
  - rewrite orb_false_r, startswith_spec. split.
    + intros [post H]. exists [], post. exact H.
    + intros (pre & post & H). destruct pre; [eauto|discriminate].
  - rewrite orb_true_iff, IH, startswith_spec. split.
    + intros [[post H] | (pre & post & ->)].
      * exists [], post. exact H.
      * exists (c :: pre), post. reflexivity.
    + intros (pre & post & H). destruct pre as [|c' pre].
      * left. eauto.
      * right. injection H as -> ->. eauto.
Qed.

(** ** [validate_channel] *)

(** C8.  [validate_channel] answers true exactly when the probe comes
    back with status 200 and a body in which "No logs found" does not
    occur; when the probe raises a request error it answers false and
    raises nothing. *)
Theorem validate_channel_spec (E : env) (channel : pystr) (w : world) :
  (forall r, http_get E (trace w) (probe channel) = Returned r ->
     exists b, fst (validate_channel E channel w) = Returned b /\
       (b = true <->
        status_code r = 200 /\ ~ substring (py "No logs found") (text r))) /\
  (forall msg, http_get E (trace w) (probe channel) = Raised (RequestException msg) ->
     fst (validate_channel E channel w) = Returned false).
Proof.
  unfold validate_channel, try_except, requests_get, probe. split.
  - intros r H. eexists. split.
    { unfold mbind, M_bind. rewrite H. reflexivity. }
    rewrite andb_true_iff, negb_true_iff, Z.eqb_eq, <- contains_spec.
    destruct (contains _ _); intuition congruence.
  - intros msg H. unfold mbind, M_bind. rewrite H. reflexivity.
Qed.

Lemma validate_channel_spec_witness :
  (http_get calm (trace fresh_world) (probe (py "foo")) = Returned ok_response /\
   exists b, fst (validate_channel calm (py "foo") fresh_world) = Returned b /\
     (b = true <->
      status_code ok_response = 200 /\
      ~ substring (py "No logs found") (text ok_response))) /\
  (http_get offline (trace fresh_world) (probe (py "foo"))
   = Raised (RequestException (py "Connection refused")) /\
   fst (validate_channel offline (py "foo") fresh_world) = Returned false).
Proof.
  split; (split; [reflexivity|]).
  - apply (proj1 (validate_channel_spec calm (py "foo") fresh_world)). reflexivity.
  - apply (proj2 (validate_channel_spec offline (py "foo") fresh_world)
             (py "Connection refused")). reflexivity.
Defined.

(** ** [parse_chat_line] *)

Lemma strptime_total U data f :
  (exists t, strptime U data f = Returned t) \/
  (exists msg, strptime U data f = Raised (ValueError msg)).
Proof.
  unfold strptime.
  destruct (match_fmt U (fmt_items f) data tm_default) as [[t rest]|]; [|eauto].
  destruct rest; [|eauto].
  repeat match goal with |- context [if ?c then _ else _] => destruct c; [eauto|] end.
  eauto.
Qed.

Lemma lit_inv {R} c s (k : pystr -> option R) r :
  lit c s k = Some r -> exists s', s = c :: s' /\ k s' = Some r.
Proof.
  unfold lit. destruct s as [|c' s]; [discriminate|].
  destruct (N.eqb_spec c c'); [|discriminate]. subst. eauto.
Qed.

Lemma rep_lazy_inv {R} p : forall s acc (k : pystr -> pystr -> option R) r,
  rep_lazy p s acc k = Some r ->
  exists g rest, s = g ++ rest /\ Forall (fun c => p c = true) g /\
                 k (acc ++ g) rest = Some r.
Proof.
  induction s as [|c s IH]; intros acc k r H; cbn [rep_lazy] in H.
  - destruct (k acc []) eqn:K; [|discriminate]. injection H as <-.
    exists [], []. rewrite !app_nil_r. split; [reflexivity|]. split; [apply Forall_nil_2|exact K].
  - destruct (k acc (c :: s)) eqn:K.
    + injection H as <-. exists [], (c :: s). rewrite !app_nil_r.
      split; [reflexivity|]. split; [apply Forall_nil_2|exact K].
    + destruct (p c) eqn:P; [|discriminate].
      destruct (IH _ _ _ H) as (g & rest & -> & Hg & Hk).
      exists (c :: g), rest. rewrite <- app_assoc in Hk.
      split; [reflexivity|]. split; [now apply Forall_cons_2|exact Hk].
Qed.

Lemma run_take p : forall s j,
  (j <= run p s)%nat -> Forall (fun c => p c = true) (take j s).
Proof.
  induction s as [|c s IH]; intros j H; destruct j; simpl;
    try apply Forall_nil_2.
  simpl in H. destruct (p c) eqn:P; [|lia].
  apply Forall_cons_2; [exact P|]. apply IH. lia.
Qed.

Lemma rep_greedy_inv {R} p lo s (k : pystr -> pystr -> option R) r :
  rep_greedy p lo s k = Some r ->
  exists g rest, s = g ++ rest /\ Forall (fun c => p c = true) g /\
                 (lo <= length g)%nat /\ k g rest = Some r.
Proof.
  unfold rep_greedy. intros H. apply greedy_inv in H.
  destruct H as (j & [Hlo Hj] & Hk).
  exists (take j s), (drop j s). rewrite take_drop.
  split; [reflexivity|]. split; [now apply run_take|]. split; [|exact Hk].
  rewrite length_take. 
  assert (run p s <= length s)%nat.
  { clear. induction s as [|c s IH]; simpl; [lia|]. destruct (p c); lia. }
  lia.
Qed.

Lemma timestamp_re_inv line g1 g2 :
  timestamp_re line = Some (g1, g2) ->
  exists tail, line = lbracket :: g1 ++ rbracket :: g2 ++ tail.
Proof.
  unfold timestamp_re. intros H.
  apply lit_inv in H. destruct H as (s1 & -> & H).
  apply rep_lazy_inv in H. destruct H as (a & s2 & -> & _ & H).
  apply lit_inv in H. destruct H as (s3 & -> & H).
  apply rep_greedy_inv in H. destruct H as (b & tail & -> & _ & _ & H).
  injection H as <- <-. exists tail. reflexivity.
Qed.

Lemma nonempty_length {A} (l : list A) : (1 <= length l)%nat -> l <> [].
Proof. destruct l; simpl; [lia|discriminate]. Qed.

Lemma message_re_inv U rest ch user msg :
  message_re U rest = Some (ch, user, msg) ->
  exists sp sp' tail,
    rest = sp ++ hash :: ch ++ sp' ++ user ++ colon :: msg ++ tail /\
    Forall (fun c => isspace U c = true) sp /\
    ch <> [] /\ Forall (fun c => isword U c = true) ch /\
    sp' <> [] /\ Forall (fun c => isspace U c = true) sp' /\
    user <> [] /\ Forall (fun c => c <> colon) user /\
    msg <> [] /\ Forall (fun c => c <> 10%N) msg.
Proof.
  unfold message_re. intros H.
  apply rep_greedy_inv in H. destruct H as (sp & s1 & -> & Hsp & _ & H).
  apply lit_inv in H. destruct H as (s2 & -> & H).
  apply rep_greedy_inv in H. destruct H as (a & s3 & -> & Ha & La & H).
  apply rep_greedy_inv in H. destruct H as (sp' & s4 & -> & Hsp' & Lsp' & H).
  apply rep_greedy_inv in H. destruct H as (b & s5 & -> & Hb & Lb & H).
  apply lit_inv in H. destruct H as (s6 & -> & H).
  apply rep_greedy_inv in H. destruct H as (c & tail & -> & Hc & Lc & H).
  injection H as <- <- <-.
  exists sp, sp', tail.
  split; [reflexivity|].
  repeat (split; [solve [auto using nonempty_length]|]).
  split; [|split; [auto using nonempty_length|]].
  - eapply Forall_impl; [exact Hb|]. unfold not_colon. intros x Hx ->.
    now rewrite N.eqb_refl in Hx.
  - eapply Forall_impl; [exact Hc|]. unfold dot. intros x Hx ->.
    now rewrite N.eqb_refl in Hx.
Qed.

(** A row comes only from a well-formed line. *)
Lemma parse_chat_line_row_inv U O line row :
  snd (parse_chat_line U O line) = Returned (Some row) -> well_formed U line.
Proof.
  unfold parse_chat_line.
  destruct (timestamp_re line) as [[ts rest]|] eqn:T; [|discriminate].
  destruct (strptime U (strip U ts) fmt_Ymd_HMS) as [t|e|] eqn:P.
  - destruct (message_re U rest) as [[[ch user] msg]|] eqn:Mre; [|discriminate].
    intros _. apply timestamp_re_inv in T. destruct T as (tail & ->).
    apply message_re_inv in Mre.
    destruct Mre as (sp & sp' & tail' & -> & H1 & H2 & H3 & H4 & H5 & H6 & H7 & H8 & H9).
    exists ts, ((sp ++ hash :: ch ++ sp' ++ user ++ colon :: msg ++ tail') ++ tail).
    split; [reflexivity|]. split; [eauto|].
    exists sp, ch, sp', user, msg, (tail' ++ tail).
    repeat split; auto.
    rewrite <- !app_assoc. simpl. rewrite <- !app_assoc. simpl.
    now rewrite <- !app_assoc.
  - destruct (is_ValueError e); [|discriminate].
    destruct (print_raises O _); discriminate.
  - discriminate.
Qed.

(** ** The rate limiter *)

Lemma limiter_attempt_cases d now :
  let d' := fst (limiter_attempt d now) in
  clamped_calls d' = clamped_calls d /\ period d' = period d /\
  ((now < last_reset d + period d /\ last_reset d' = last_reset d /\
    num_calls d' = num_calls d + 1) \/
   (last_reset d + period d <= now /\ last_reset d' = now /\ num_calls d' = 1)) /\
  (snd (limiter_attempt d now) = None <-> num_calls d' <= clamped_calls d) /\
  (forall rem, snd (limiter_attempt d now) = Some rem ->
               rem = period_remaining d now).
Proof.
  unfold limiter_attempt, period_remaining.
  destruct (Z.leb_spec (period d - (now - last_reset d)) 0) as [H|H]; cbn.
  - destruct (Z.ltb_spec (clamped_calls d) (0 + 1)); cbn;
      (repeat split; try lia; try congruence; try (right; lia)).
  - destruct (Z.ltb_spec (clamped_calls d) (num_calls d + 1)); cbn;
      (repeat split; try lia; try congruence; try (left; lia)).
Qed.






(** A caller over the budget is told how long the window still lasts;
    when it comes back after that long, and nobody came in between, it
    opens the next window and goes through. *)
Lemma limiter_delay d now d' rem :
  1 <= clamped_calls d ->
  limiter_attempt d now = (d', Some rem) ->
  0 < rem /\ now + rem = last_reset d + period d /\
  forall t', now + rem <= t' -> snd (limiter_attempt d' t') = None.
Proof.
  intros HN H.
  pose proof (limiter_attempt_cases d now) as (Hc & Hp & Hcase & Hadm & Hrem).
  rewrite H in *. cbn [fst snd] in *.
  specialize (Hrem rem eq_refl). unfold period_remaining in Hrem.
  assert (~ num_calls d' <= clamped_calls d) as Hover
    by (intros C; apply Hadm in C; discriminate).
  destruct Hcase as [(? & E1 & E2)|(? & E1 & E2)]; [|lia].
  split; [lia|]. split; [lia|]. intros t' Ht'.
  pose proof (limiter_attempt_cases d' t') as (_ & _ & Hcase' & Hadm' & _).
  cbn zeta in *. apply Hadm'.
  destruct Hcase' as [(? & _)|(_ & _ & ->)]; lia.
Qed.

Lemma download_single_day_body_no_rate_limit E U channel date_str w msg rem w' :
  download_single_day_body E U channel date_str w
  <> (Raised (RateLimitException msg rem), w').
Proof.
  unfold download_single_day_body, lift, os_path_exists, with_semaphore, try_except.
  unfold mbind, M_bind.
  destruct (strptime_total U date_str fmt_Ymd) as [[t ->]|[m ->]]; [|discriminate].
  unfold add_days.
  destruct ((0 <? toordinal t + 1) && (toordinal t + 1 <=? MAXORDINAL)); [|discriminate].
  destruct (ord2ymd (toordinal t + 1)) as [[y mo] d].
  destruct (bool_decide _); [discriminate|].
  destruct (permits w <=? 0); [discriminate|].
  unfold requests_get, raise_for_status, open_write, logging_error, tell, raise, mret, M_ret.
  destruct (http_get E _ _) as [r|e|]; cbn.
  - destruct ((400 <=? status_code r) && (status_code r <? 500)); cbn; [discriminate|].
    destruct ((500 <=? status_code r) && (status_code r <? 600)); cbn; [discriminate|].
    destruct (disk_write E _ _ _); cbn; discriminate.
  - destruct (is_RequestException e) eqn:R; cbn; [discriminate|].
    destruct e; cbn; try discriminate.
  - discriminate.
Qed.

(** The decorated function always gets to run its body: at once when the
    attempt is within the budget, after one sleep to the end of the
    window otherwise. *)
Lemma download_single_day_runs E U fuel channel date_str w :
  1 <= clamped_calls (limiter w) ->
  download_single_day E U (S (S fuel)) channel date_str w =
  match limiter_attempt (limiter w) (clock w) with
  | (d, None) => download_single_day_body E U channel date_str (set_limiter d w)
  | (d, Some rem) =>
      let w1 := emit (Slept rem) (set_clock (clock w + rem) (set_limiter d w)) in
      download_single_day_body E U channel date_str
        (set_limiter (fst (limiter_attempt d (clock w + rem))) w1)
  end.
Proof.
  intros HN. unfold download_single_day.
  cbn [sleep_and_retry]. unfold limits_wrapper at 1.
  destruct (limiter_attempt (limiter w) (clock w)) as [d [rem|]] eqn:A.
  - destruct (limiter_delay _ _ _ _ HN A) as (_ & _ & Hretry).
    unfold time_sleep, mbind, M_bind. cbn beta iota.
    unfold limits_wrapper. cbn [limiter clock emit set_clock set_limiter].
    specialize (Hretry (clock w + rem) ltac:(lia)).
    destruct (limiter_attempt d (clock w + rem)) as [d2 o2]. cbn in Hretry. subst o2.
    cbn [fst].
    match goal with |- match ?b with _ => _ end = _ => destruct b as [[r|e|] w2] eqn:B end;
      try reflexivity.
    destruct e; try reflexivity.
    exfalso. eapply download_single_day_body_no_rate_limit. exact B.
  - match goal with |- match ?b with _ => _ end = _ => destruct b as [[r|e|] w2] eqn:B end;
      try reflexivity.
    destruct e; try reflexivity.
    exfalso. eapply download_single_day_body_no_rate_limit. exact B.
Qed.




(** ** The body of [download_single_day] *)

Lemma download_single_day_body_unfold E U channel date_str :
  download_single_day_body E U channel date_str =
  (current_date ← lift (strptime U date_str fmt_Ymd);
   next_date ← lift (add_days current_date 1);
   file_exists ← os_path_exists (log_filename channel date_str);
   if (file_exists : bool) then mret (skipped_result date_str)
   else with_semaphore
          (try_except
             (try_block E channel date_str (log_filename channel date_str)
                (strftime_rfc3339 current_date) (strftime_rfc3339 next_date))
             (except_clauses date_str))).
Proof. reflexivity. Qed.

Lemma is_Some_insert_mono (m : gmap pystr pystr) k v p :
  is_Some (m !! p) -> is_Some (<[k := v]> m !! p).
Proof.
  intros H. destruct (decide (k = p)) as [->|Hne].
  - rewrite lookup_insert_eq. eauto.
  - now rewrite lookup_insert_ne.
Qed.

Lemma try_block_cases E channel date_str filename from_date to_date w :
  let '(r, w') := try_block E channel date_str filename from_date to_date w in
  (forall p, is_Some (files w !! p) -> is_Some (files w' !! p)) /\
  limiter w' = limiter w /\
  match r with
  | Returned s => s = success_result date_str /\ is_Some (files w' !! filename)
  | _ => True
  end.
Proof.
  unfold try_block, requests_get, raise_for_status, open_write, raise, mbind, M_bind,
    mret, M_ret.
  destruct (http_get E _ _) as [r|e|]; cbn; auto.
  destruct ((400 <=? status_code r) && (status_code r <? 500)); cbn; auto.
  destruct ((500 <=? status_code r) && (status_code r <? 600)); cbn; auto.
  destruct (disk_write E _ _ _); cbn; auto using is_Some_insert_mono.
  split; [auto using is_Some_insert_mono|]. split; [reflexivity|].
  split; [reflexivity|]. rewrite lookup_insert_eq. eauto.
Qed.

Lemma except_clauses_cases date_str e w :
  let '(r, w') := except_clauses date_str e w in
  files w' = files w /\ limiter w' = limiter w /\
  match r with
  | Returned s => s <> success_result date_str /\ s <> skipped_result date_str
  | Raised e' => e' = e
  | Diverged => False
  end.
Proof.
  unfold except_clauses, logging_error, tell, raise, mbind, M_bind, mret, M_ret.
  destruct (is_RequestException e); cbn.
  - repeat split; discriminate.
  - destruct (is_Exception e); cbn; repeat split; discriminate.
Qed.

Lemma body_cases E U channel date_str w :
  let '(r, w') := download_single_day_body E U channel date_str w in
  (forall p, is_Some (files w !! p) -> is_Some (files w' !! p)) /\
  limiter w' = limiter w /\
  match r with
  | Returned s =>
      s = success_result date_str \/ s = skipped_result date_str ->
      day_parses U date_str /\
      is_Some (files w' !! log_filename channel date_str)
  | _ => True
  end.
Proof.
  unfold day_parses. rewrite download_single_day_body_unfold.
  unfold lift, os_path_exists, with_semaphore, try_except, mbind, M_bind, mret, M_ret.
  destruct (strptime U date_str fmt_Ymd) as [cur|e|] eqn:P; auto.
  destruct (add_days cur 1) as [nxt|e|] eqn:A; auto.
  assert (exists current_date next_date,
             Returned cur = Returned current_date /\
             add_days current_date 1 = Returned next_date) as Hparse by eauto.
  case_bool_decide as Hex.
  { split; [auto|]. split; [reflexivity|]. intros _. split; assumption. }
  destruct (permits w <=? 0); auto.
  pose proof (try_block_cases E channel date_str (log_filename channel date_str)
                (strftime_rfc3339 cur) (strftime_rfc3339 nxt)
                (set_permits (permits w - 1) w)) as T.
  destruct (try_block _ _ _ _ _ _ _) as [[s|e|] w1]; cbn in T |- *.
  - destruct T as (T1 & T2 & T3 & T4). split; [exact T1|]. split; [exact T2|].
    intros _. split; assumption.
  - destruct T as (T1 & T2 & _).
    pose proof (except_clauses_cases date_str e w1) as X.
    destruct (except_clauses date_str e w1) as [[s|e'|] w2]; cbn.
    + destruct X as (X1 & X2 & X3 & X4). rewrite X1, X2.
      split; [exact T1|]. split; [exact T2|]. intros [C|C]; contradiction.
    + destruct X as (X1 & X2 & _). rewrite X1, X2. auto.
    + destruct X as (_ & _ & []).
  - destruct T as (T1 & T2 & _). auto.
Qed.

Lemma body_skip E U channel date_str w current_date next_date :
  strptime U date_str fmt_Ymd = Returned current_date ->
  add_days current_date 1 = Returned next_date ->
  is_Some (files w !! log_filename channel date_str) ->
  download_single_day_body E U channel date_str w
  = (Returned (skipped_result date_str), w).
Proof.
  intros Hp Ha Hf. rewrite download_single_day_body_unfold.
  unfold lift, os_path_exists, mbind, M_bind. rewrite Hp, Ha.
  rewrite bool_decide_eq_true_2 by exact Hf. reflexivity.
Qed.

Lemma try_block_permits E channel date_str filename from_date to_date w :
  permits (snd (try_block E channel date_str filename from_date to_date w)) = permits w.
Proof.
  unfold try_block, requests_get, raise_for_status, open_write, raise, mbind, M_bind,
    mret, M_ret.
  destruct (http_get E _ _) as [r|e|]; cbn; auto.
  destruct ((400 <=? status_code r) && (status_code r <? 500)); cbn; auto.
  destruct ((500 <=? status_code r) && (status_code r <? 600)); cbn; auto.
  destruct (disk_write E _ _ _); cbn; auto.
Qed.

Lemma except_clauses_permits date_str e w :
  permits (snd (except_clauses date_str e w)) = permits w.
Proof.
  unfold except_clauses, logging_error, tell, raise, mbind, M_bind, mret, M_ret.
  destruct (is_RequestException e); cbn; auto.
  destruct (is_Exception e); cbn; auto.
Qed.

(** Whichever way [download_single_day] comes back, by a return, by a
    caught error or by an exception that leaves the with block, the
    semaphore has the permits it had. *)
Lemma body_releases_permit E U channel date_str w :
  let '(r, w') := download_single_day_body E U channel date_str w in
  r <> Diverged -> permits w' = permits w.
Proof.
  rewrite download_single_day_body_unfold.
  unfold lift, os_path_exists, with_semaphore, try_except, mbind, M_bind, mret, M_ret.
  destruct (strptime U date_str fmt_Ymd) as [cur|e|]; auto.
  destruct (add_days cur 1) as [nxt|e|]; auto.
  case_bool_decide; auto.
  destruct (permits w <=? 0); [congruence|].
  pose proof (try_block_permits E channel date_str (log_filename channel date_str)
                (strftime_rfc3339 cur) (strftime_rfc3339 nxt)
                (set_permits (permits w - 1) w)) as T.
  destruct (try_block _ _ _ _ _ _ _) as [[s|e|] w1]; cbn in T |- *.
  - intros _. lia.
  - pose proof (except_clauses_permits date_str e w1) as X.
    destruct (except_clauses date_str e w1) as [[s|e'|] w2]; cbn in X |- *;
      try congruence; intros _; lia.
  - congruence.
Qed.

(** ** The semaphore *)

(** The with statement is an acquire, the block and a release. *)
Lemma with_semaphore_gate (block : M pystr) w : with_semaphore block w = gate block w.
Proof. reflexivity. Qed.

(** [download_single_day] is its part before the with statement, and then
    the block under the semaphore. *)
Lemma body_through_gate E U channel date_str w :
  download_single_day_body E U channel date_str w
  = match before_gate E U channel date_str w with
    | (Returned (inl result), w') => (Returned result, w')
    | (Returned (inr block), w') => gate block w'
    | (Raised e, w') => (Raised e, w')
    | (Diverged, w') => (Diverged, w')
    end.
Proof.
  rewrite download_single_day_body_unfold.
  unfold before_gate, lift, os_path_exists, mbind, M_bind, mret, M_ret.
  destruct (strptime U date_str fmt_Ymd) as [cur|e|]; try reflexivity.
  destruct (add_days cur 1) as [nxt|e|]; try reflexivity.
  destruct (bool_decide _); reflexivity.
Qed.

Lemma guarded_block_permits E channel date_str filename from_date to_date :
  keeps_permits (try_except (try_block E channel date_str filename from_date to_date)
                            (except_clauses date_str)).
Proof.
  intros w. unfold try_except.
  pose proof (try_block_permits E channel date_str filename from_date to_date w) as T.
  destruct (try_block _ _ _ _ _ _ _) as [[s|e|] w1]; cbn [snd] in T |- *; try exact T.
  rewrite except_clauses_permits. exact T.
Qed.

(** The part before the with statement changes nothing, and the block it
    comes to leaves the semaphore alone. *)
Lemma before_gate_spec E U channel date_str w :
  snd (before_gate E U channel date_str w) = w /\
  forall block, fst (before_gate E U channel date_str w) = Returned (inr block) ->
                keeps_permits block.
Proof.
  unfold before_gate, lift, os_path_exists, mbind, M_bind, mret, M_ret.
  destruct (strptime U date_str fmt_Ymd) as [cur|e|]; try (split; [reflexivity|discriminate]).
  destruct (add_days cur 1) as [nxt|e|]; try (split; [reflexivity|discriminate]).
  destruct (bool_decide _); (split; [reflexivity|]); [discriminate|].
  intros block [= <-]. apply guarded_block_permits.
Qed.

Lemma call_turn_spec E U channel date_str w :
  permits (snd (call_turn E U channel date_str w)) = permits w /\
  match fst (call_turn E U channel date_str w) with
  | AtGate block => keeps_permits block
  | InBody _ | Queued | Cancelled => False
  | _ => True
  end.
Proof.
  unfold call_turn, limits_wrapper.
  destruct (limiter_attempt (limiter w) (clock w)) as [d [rem|]].
  - cbn. auto.
  - destruct (before_gate_spec E U channel date_str (set_limiter d w)) as [Hw Hb].
    destruct (before_gate E U channel date_str (set_limiter d w)) as [[[res|block]|e|] w1];
      cbn [fst snd] in *; subst w1.
    + cbn. auto.
    + cbn. split; [reflexivity|]. apply Hb. reflexivity.
    + destruct e; cbn; auto.
    + cbn. auto.
Qed.

Lemma count_insert (f : pystr * phase -> bool) l : forall i t t',
  l !! i = Some t ->
  Z.of_nat (length (List.filter f (<[i := t']> l)))
  = Z.of_nat (length (List.filter f l))
    - (if f t then 1 else 0) + (if f t' then 1 else 0).
Proof.
  induction l as [|h l IH]; intros i t t' H; [discriminate|].
  destruct i as [|i]; cbn in H.
  - injection H as ->. change (<[0%nat := t']> (t :: l)) with (t' :: l).
    cbn [List.filter]. destruct (f t), (f t'); cbn [length]; lia.
  - specialize (IH i t t' H).
    change (<[S i := t']> (h :: l)) with (h :: <[i := t']> l).
    cbn [List.filter]. destruct (f h); cbn [length]; lia.
Qed.

Lemma blocks_keep_insert s i t w :
  blocks_keep_permits s ->
  match snd t with AtGate block | InBody block => keeps_permits block | _ => True end ->
  blocks_keep_permits (mk_pool w (<[i := t]> (tasks s))).
Proof.
  unfold blocks_keep_permits. cbn [tasks]. intros H Ht.
  apply Forall_insert; assumption.
Qed.

Lemma blocks_keep_lookup s i d block :
  blocks_keep_permits s ->
  tasks s !! i = Some (d, AtGate block) \/ tasks s !! i = Some (d, InBody block) ->
  keeps_permits block.
Proof.
  unfold blocks_keep_permits. intros H Hi. rewrite Forall_lookup in H.
  destruct Hi as [Hi|Hi]; exact (H _ _ Hi).
Qed.

(** A step leaves the permits and the calls inside the block in balance. *)
Lemma pool_step_balance E U channel W s s' :
  pool_step E U channel W s s' ->
  blocks_keep_permits s ->
  permits (shared s') + Z.of_nat (in_body s')
  = permits (shared s) + Z.of_nat (in_body s) /\
  blocks_keep_permits s'.
Proof.
  intros H K.
  destruct H as [s i d Hi Hw | s i d Hi | s i d Hi | s i d block Hi Hp
                | s i d block r w' Hi Hb Hr];
    unfold in_body; cbn [shared tasks];
    rewrite (count_insert holds_permit _ _ _ _ Hi); cbn [holds_permit snd].
  - split; [lia|]. apply blocks_keep_insert; [exact K|exact I].
  - split; [lia|]. apply blocks_keep_insert; [exact K|exact I].
  - destruct (call_turn_spec E U channel d (shared s)) as [Hw Hf]. rewrite Hw.
    split.
    + destruct (fst (call_turn E U channel d (shared s)));
        cbn [holds_permit snd]; first [lia | destruct Hf].
    + apply blocks_keep_insert; [exact K|].
      cbn [snd]. destruct (fst (call_turn E U channel d (shared s)));
        first [exact I | exact Hf | destruct Hf].
  - split; [unfold sem_acquire; cbn [permits set_permits]; lia|].
    apply blocks_keep_insert; [exact K|]. cbn [snd].
    eapply blocks_keep_lookup; [exact K|left; exact Hi].
  - assert (permits w' = permits (shared s)) as Hw.
    { pose proof (blocks_keep_lookup s i d block K (or_intror Hi) (shared s)) as B.
      rewrite Hb in B. exact B. }
    split; [unfold sem_release; cbn [permits set_permits]; lia|].
    apply blocks_keep_insert; [exact K|exact I].
Qed.

Lemma filter_holds_queued dates :
  List.filter holds_permit (map (fun d => (d, Queued)) dates) = [].
Proof. induction dates as [|d dates IH]; [reflexivity|exact IH]. Qed.

Lemma pool_reachable_balance E U channel W M w dates s :
  pool_reachable E U channel W M w dates s ->
  permits (shared s) + Z.of_nat (in_body s) = M /\ blocks_keep_permits s.
Proof.
  unfold pool_reachable. revert s. apply rtc_ind_r.
  - unfold pool_init, in_body, blocks_keep_permits. cbn [shared tasks permits set_permits].
    rewrite filter_holds_queued. split; [cbn; lia|].
    apply Forall_forall. intros t Ht. apply list_elem_of_fmap in Ht.
    destruct Ht as (d & -> & _). exact I.
  - intros y z _ Hstep [IH K].
    destruct (pool_step_balance _ _ _ _ _ _ Hstep K) as [Hb K']. split; [lia|exact K'].
Qed.

(** The permits are never in debt. *)
Lemma pool_reachable_permits E U channel W M w dates s :
  0 <= M ->
  pool_reachable E U channel W M w dates s -> 0 <= permits (shared s).
Proof.
  intros HM. unfold pool_reachable. revert s. apply rtc_ind_r.
  - cbn. exact HM.
  - intros y z Hy Hstep IH.
    destruct (pool_reachable_balance _ _ _ _ _ _ _ _ Hy) as [_ K].
    destruct Hstep as [s i d Hi Hw | s i d Hi | s i d Hi | s i d block Hi Hp
                      | s i d block r w' Hi Hb Hr]; cbn [shared]; try exact IH.
    + destruct (call_turn_spec E U channel d (shared s)) as [Hw _]. lia.
    + unfold sem_acquire. cbn. lia.
    + pose proof (blocks_keep_lookup s i d block K (or_intror Hi) (shared s)) as B.
      rewrite Hb in B. cbn [snd] in B. unfold sem_release. cbn. lia.
Qed.

(** A call that has left the block has done so by the step that gives the
    permit back. *)
Lemma leaving_step E U channel W s s' i d block :
  pool_step E U channel W s s' ->
  tasks s !! i = Some (d, InBody block) ->
  tasks s' !! i <> Some (d, InBody block) ->
  exists r w',
    block (shared s) = (r, w') /\ r <> Diverged /\
    s' = mk_pool (sem_release w') (<[i := (d, Finished r)]> (tasks s)).
Proof.
  intros H Hi Hout.
  assert (forall k t w, tasks s !! k = Some t -> snd t <> InBody block ->
            mk_pool w (<[k := t]> (tasks s)) = s' -> False) as Other.
  { intros k t w Hk Ht <-. apply Hout. cbn [tasks].
    destruct (decide (k = i)) as [->|Hne].
    - rewrite Hi in Hk. injection Hk as <-. destruct Ht. reflexivity.
    - rewrite list_lookup_insert_ne by exact Hne. exact Hi. }
  destruct H as [s i' d' Hi' Hw | s i' d' Hi' | s i' d' Hi' | s i' d' block' Hi' Hp
                | s i' d' block' r w' Hi' Hb Hr].
  - exfalso. destruct (decide (i' = i)) as [->|Hne]; [congruence|].
    apply Hout. cbn [tasks]. rewrite list_lookup_insert_ne by exact Hne. exact Hi.
  - exfalso. destruct (decide (i' = i)) as [->|Hne]; [congruence|].
    apply Hout. cbn [tasks]. rewrite list_lookup_insert_ne by exact Hne. exact Hi.
  - exfalso. destruct (decide (i' = i)) as [->|Hne]; [congruence|].
    apply Hout. cbn [tasks]. rewrite list_lookup_insert_ne by exact Hne. exact Hi.
  - exfalso. destruct (decide (i' = i)) as [->|Hne]; [congruence|].
    apply Hout. cbn [tasks]. rewrite list_lookup_insert_ne by exact Hne. exact Hi.
  - destruct (decide (i' = i)) as [->|Hne].
    + rewrite Hi in Hi'. injection Hi' as <- <-. exists r, w'. auto.
    + exfalso. apply Hout. cbn [tasks].
      rewrite list_lookup_insert_ne by exact Hne. exact Hi.
Qed.

Lemma singleton_insert (t t' : pystr * phase) : <[0%nat := t']> [t] = [t'].
Proof. reflexivity. Qed.

(** A call run on its own is a schedule of the pool: what
    [download_single_day] returns or raises, and the world it leaves, is
    what the steps of its call come to. *)
Lemma solo_schedule E U channel W date_str : forall fuel w r w',
  download_single_day E U fuel channel date_str w = (r, w') ->
  r <> Diverged ->
  rtc (pool_step E U channel W)
      (mk_pool w [(date_str, Calling)]) (mk_pool w' [(date_str, Finished r)]).
Proof.
  unfold download_single_day.
  induction fuel as [|fuel IH]; intros w r w' H Hr; [injection H as <- _; congruence|].
  cbn [sleep_and_retry] in H.
  pose proof (step_call E U channel W (mk_pool w [(date_str, Calling)]) O date_str
                eq_refl) as Step.
  cbn [shared tasks] in Step. rewrite singleton_insert in Step.
  unfold call_turn in Step. unfold limits_wrapper in H, Step.
  destruct (limiter_attempt (limiter w) (clock w)) as [d [rem|]].
  - cbn [fst snd] in Step. eapply rtc_l; [exact Step|].
    apply IH; [|exact Hr]. unfold mbind, M_bind in H.
    destruct (time_sleep rem (set_limiter d w)) as [[[]| |] w1] eqn:T;
      cbn [snd]; try discriminate T; exact H.
  - assert (download_single_day_body E U channel date_str (set_limiter d w) = (r, w'))
      as B.
    { destruct (download_single_day_body E U channel date_str (set_limiter d w))
        as [[res|e|] w1] eqn:B; try exact H.
      destruct e; try exact H.
      exfalso. eapply download_single_day_body_no_rate_limit. exact B. }
    clear H. pose proof B as B0. rewrite body_through_gate in B.
    destruct (before_gate E U channel date_str (set_limiter d w))
      as [[[res|block]|e|] w1].
    + injection B as <- <-. cbn [fst snd] in Step. apply rtc_once. exact Step.
    + cbn [fst snd] in Step. eapply rtc_l; [exact Step|].
      unfold gate in B. destruct (Z.leb_spec (permits w1) 0); [congruence|].
      destruct (block (sem_acquire w1)) as [r0 w2] eqn:Bl.
      assert (r0 = r /\ sem_release w2 = w' /\ r0 <> Diverged) as (-> & <- & Hr0).
      { destruct r0; injection B as <- <-; repeat split; congruence. }
      eapply rtc_l.
      { apply (step_enter E U channel W (mk_pool w1 [(date_str, AtGate block)]) O
                 date_str block eq_refl). cbn. lia. }
      cbn [shared tasks]. rewrite singleton_insert.
      apply rtc_once.
      apply (step_leave E U channel W
               (mk_pool (sem_acquire w1) [(date_str, InBody block)]) O date_str block
               r w2 eq_refl Bl Hr0).
    + injection B as <- <-.
      destruct e; cbn [fst snd] in Step; try (apply rtc_once; exact Step).
      exfalso. eapply download_single_day_body_no_rate_limit. exact B0.
    + congruence.
Qed.

(** C6.  Whatever the scheduling of the workers, the calls inside the
    with block are never more than [max_concurrent_requests]: with the
    permits left in the semaphore they make up its first value.  A call
    leaves the block only when the block has come back, by a return or by
    an exception, and the step that takes it out gives the permit back,
    after which any call that waits at the with statement can take it; a
    block that has come back can always be left.  A future is cancelled
    only while it is pending, when it holds nothing; a call that runs
    cannot be cancelled.  The steps are those of the code:
    [download_single_day] is its part before the with statement followed
    by an acquire, the block and a release, and every call run on its own
    is one of the schedules. *)
Theorem semaphore_bounds_bodies (E : env) (U : ucd) (channel : pystr)
  (max_workers max_concurrent_requests : Z) (w0 : world) (dates : list pystr)
  (s : pool) :
  0 <= max_concurrent_requests ->
  pool_reachable E U channel max_workers max_concurrent_requests w0 dates s ->
  (Z.of_nat (in_body s) <= max_concurrent_requests /\
   permits (shared s) + Z.of_nat (in_body s) = max_concurrent_requests) /\
  (forall s' i d block,
     pool_step E U channel max_workers s s' ->
     tasks s !! i = Some (d, InBody block) ->
     tasks s' !! i <> Some (d, InBody block) ->
     (exists r, r <> Diverged /\ fst (block (shared s)) = r /\
                tasks s' !! i = Some (d, Finished r)) /\
     permits (shared s') = permits (shared s) + 1 /\
     forall j d' block', tasks s' !! j = Some (d', AtGate block') ->
       exists s'', pool_step E U channel max_workers s' s'' /\
                   tasks s'' !! j = Some (d', InBody block')) /\
  (forall i d block,
     tasks s !! i = Some (d, InBody block) ->
     fst (block (shared s)) <> Diverged ->
     exists s', pool_step E U channel max_workers s s' /\
                tasks s' !! i = Some (d, Finished (fst (block (shared s)))) /\
                permits (shared s') = permits (shared s) + 1) /\
  (forall s' i d,
     pool_step E U channel max_workers s s' ->
     tasks s' !! i = Some (d, Cancelled) ->
     tasks s !! i = Some (d, Cancelled) \/
     (tasks s !! i = Some (d, Queued) /\ shared s' = shared s)) /\
  (forall d w,
     download_single_day_body E U channel d w
     = match before_gate E U channel d w with
       | (Returned (inl result), w') => (Returned result, w')
       | (Returned (inr block), w') => gate block w'
       | (Raised e, w') => (Raised e, w')
       | (Diverged, w') => (Diverged, w')
       end) /\
  (forall fuel d w r w',
     download_single_day E U fuel channel d w = (r, w') -> r <> Diverged ->
     rtc (pool_step E U channel max_workers)
         (mk_pool w [(d, Calling)]) (mk_pool w' [(d, Finished r)])).
Proof.
  intros HM HR.
  destruct (pool_reachable_balance _ _ _ _ _ _ _ _ HR) as [Hbal K].
  pose proof (pool_reachable_permits _ _ _ _ _ _ _ _ HM HR) as Hpos.
  split; [split; [lia|exact Hbal]|].
  split; [|split; [|split; [|split]]].
  - intros s' i d block Hstep Hin Hout.
    destruct (leaving_step _ _ _ _ _ _ _ _ _ Hstep Hin Hout) as (r & w' & Hb & Hr & ->).
    assert (permits w' = permits (shared s)) as Hw.
    { pose proof (blocks_keep_lookup s i d block K (or_intror Hin) (shared s)) as B.
      rewrite Hb in B. exact B. }
    assert (i < length (tasks s))%nat as Hi by (eapply lookup_lt_Some; exact Hin).
    split; [|split].
    + exists r. split; [exact Hr|]. split; [rewrite Hb; reflexivity|].
      cbn [tasks]. apply list_lookup_insert_eq. exact Hi.
    + unfold sem_release. cbn [shared permits set_permits]. lia.
    + intros j d' block' Hj. eexists. split.
      * apply (step_enter _ _ _ _ _ j d' block' Hj).
        unfold sem_release. cbn [shared permits set_permits]. lia.
      * cbn [tasks]. apply list_lookup_insert_eq. eapply lookup_lt_Some. exact Hj.
  - intros i d block Hi Hr.
    destruct (block (shared s)) as [r w'] eqn:Hb. cbn [fst] in *.
    assert (permits w' = permits (shared s)) as Hw.
    { pose proof (blocks_keep_lookup s i d block K (or_intror Hi) (shared s)) as B.
      rewrite Hb in B. exact B. }
    eexists. split; [apply (step_leave _ _ _ _ _ i d block r w' Hi Hb Hr)|].
    cbn [tasks shared]. split.
    + apply list_lookup_insert_eq. eapply lookup_lt_Some. exact Hi.
    + unfold sem_release. cbn [permits set_permits]. lia.
  - intros s' i d Hstep Hc.
    destruct Hstep as [s i' d' Hi' Hw | s i' d' Hi' | s i' d' Hi' | s i' d' block' Hi' Hp
                      | s i' d' block' r w' Hi' Hb Hr]; cbn [tasks shared] in Hc |- *;
      (destruct (decide (i' = i)) as [->|Hne];
       [rewrite list_lookup_insert_eq in Hc by (eapply lookup_lt_Some; exact Hi')
       |rewrite list_lookup_insert_ne in Hc by exact Hne; left; exact Hc]);
      try discriminate Hc.
    + injection Hc as ->. right. auto.
    + injection Hc as -> Hc.
      pose proof (call_turn_spec E U channel d (shared s)) as [_ Hf].
      rewrite Hc in Hf. destruct Hf.
  - intros d w. apply body_through_gate.
  - intros fuel d w r w'. apply solo_schedule.
Qed.

Lemma one_in_body_reachable :
  pool_reachable calm ascii_only (py "foo")
    default_max_workers default_max_concurrent_requests fresh_world jan_1_to_3
    one_in_body.
Proof.
  unfold pool_reachable.
  eapply rtc_l.
  { apply (step_start _ _ _ _ _ O (py "2024-01-01")); [reflexivity|vm_compute; reflexivity]. }
  eapply rtc_l.
  { apply (step_call _ _ _ _ _ O (py "2024-01-01")). reflexivity. }
  eapply rtc_l.
  { apply (step_enter _ _ _ _ _ O (py "2024-01-01") jan_1_block);
      [vm_compute; reflexivity|vm_compute; reflexivity]. }
  vm_compute. apply rtc_refl.
Qed.

Lemma semaphore_bounds_bodies_witness :
  0 <= default_max_concurrent_requests /\
  pool_reachable calm ascii_only (py "foo")
    default_max_workers default_max_concurrent_requests fresh_world jan_1_to_3
    one_in_body /\
  Z.of_nat (in_body one_in_body) <= default_max_concurrent_requests /\
  permits (shared one_in_body) + Z.of_nat (in_body one_in_body)
  = default_max_concurrent_requests.
Proof.
  assert (0 <= default_max_concurrent_requests) as H0
    by (unfold default_max_concurrent_requests; lia).
  split; [exact H0|]. split; [exact one_in_body_reachable|].
  exact (proj1 (semaphore_bounds_bodies _ _ _ _ _ _ _ _ H0 one_in_body_reachable)).
Defined.

(** ** The batch under a failing disk *)

(** C3 (failing input).  The disk is full when the file of 2 January 2024
    is written.  The error is caught and turned into the string
    "Unexpected error for ...", in which the test ["Error" in result] finds
    nothing: the day is not recorded in [failed_downloads].  The defect is
    the one of C7. *)
Theorem write_failure_not_recorded :
  exists b w,
    download_logs_parallel full_disk ascii_only 8 (py "foo")
      (py "01/01/2024") (py "03/01/2024") 10 5 fresh_world = (Returned b, w) /\
    results b = [ (py "2024-01-01", inl (success_result (py "2024-01-01")));
                  (py "2024-01-02", inl jan_2_error);
                  (py "2024-01-03", inl (success_result (py "2024-01-03"))) ] /\
    contains (py "Error") jan_2_error = false /\
    failed_downloads b = [].
Proof. do 2 eexists. split; [vm_compute; reflexivity|]. repeat split. Qed.

(** C7 (failing input).  In the same run a day failed, the error was
    logged, and no failure report is written.  The defect is the one of
    C3. *)
Theorem write_failure_not_reported :
  let w := snd (download_logs_parallel full_disk ascii_only 8 (py "foo")
                  (py "01/01/2024") (py "03/01/2024") 10 5 fresh_world) in
  In (Logged jan_2_error) (trace w) /\
  ~ In (report_filename (py "foo")) (written (trace w)) /\
  files w !! report_filename (py "foo") = None.
Proof.
  vm_compute. split; [auto 10|]. split; [|reflexivity].
  intros H. repeat (destruct H as [H|H]; [discriminate H|]). exact H.
Qed.

(** The path of a request error: the result starts with "Error", so the
    batch records the day. *)
Lemma request_error_is_recorded date_str e w :
  is_RequestException e = true ->
  fst (except_clauses date_str e w)
  = Returned (py "Error downloading " ++ date_str ++ py ": " ++ str_exn e) /\
  contains (py "Error") (py "Error downloading " ++ date_str ++ py ": " ++ str_exn e)
  = true.
Proof.
  intros H. unfold except_clauses. rewrite H. split; [reflexivity|].
  apply contains_spec. exists [], (py " downloading " ++ date_str ++ py ": " ++ str_exn e).
  reflexivity.
Qed.

(** The scenario of the design notes: the service answers 500 for
    2 January 2024.  The day is recorded and the report holds its line. *)
Example http_500_is_reported :
  exists b w,
    download_logs_parallel one_bad_day ascii_only 8 (py "foo")
      (py "01/01/2024") (py "03/01/2024") 10 5 fresh_world = (Returned b, w) /\
    failed_downloads b = [(py "2024-01-02", jan_2_http_error)] /\
    files w !! report_filename (py "foo")
    = Some (py "2024-01-02: " ++ jan_2_http_error ++ newline).
Proof. do 2 eexists. split; [vm_compute; reflexivity|]. split; reflexivity. Qed.

(** The report follows the dictionary of failures: nothing is written
    when it is empty, and otherwise the file holds one line for each of
    its entries. *)
Lemma failure_report_follows_failed_downloads E U fuel channel
  start_date_str end_date_str max_workers max_concurrent_requests w0 b w1 :
  download_logs_parallel E U fuel channel start_date_str end_date_str
    max_workers max_concurrent_requests w0 = (Returned b, w1) ->
  exists dates w',
    collect E U fuel channel (as_completed E dates) (mk_batch [] [])
      (set_permits max_concurrent_requests w0) = (Returned b, w') /\
    (failed_downloads b = [] -> w1 = w') /\
    (failed_downloads b <> [] ->
     trace w1 = trace w' ++
                [Wrote (report_filename channel)
                       (concat (map report_line (failed_downloads b)))] /\
     files w1 !! report_filename channel
     = Some (concat (map report_line (failed_downloads b)))).
Proof.
  unfold download_logs_parallel, lift, raise, open_write, mbind, M_bind, mret, M_ret.
  intros H.
  destruct (mkdir_logs E (files w0)); [discriminate|].
  destruct (generate_date_list U fuel start_date_str end_date_str) as [dates| |];
    try discriminate.
  destruct (max_concurrent_requests <? 0); [discriminate|].
  destruct (max_workers <=? 0); [discriminate|].
  destruct (collect E U fuel channel (as_completed E dates) (mk_batch [] [])
              (set_permits max_concurrent_requests w0)) as [[b'| |] w'] eqn:C;
    try discriminate.
  exists dates, w'.
  destruct (failed_downloads b') as [|entry rest] eqn:F.
  - injection H as <- <-. rewrite F. split; [exact C|]. split; [reflexivity|].
    intros N. contradiction.
  - destruct (disk_write E _ _ _); try discriminate.
    injection H as <- <-. rewrite F. split; [exact C|].
    split; [discriminate|]. intros _. cbn [trace files emit set_files].
    split; [reflexivity|]. apply lookup_insert_eq.
Qed.

(** C2 (as stated) fails.  The file of the day exists and the window is
    used up: the call is skipped, after the limiter has made it sleep
    900 ms and has counted it as the first call of the next window. *)
Lemma skipped_day_takes_rate_limit :
  let '(r, w) := download_single_day calm ascii_only 2 (py "foo") (py "2024-01-01")
                   busy_world in
  r = Returned (skipped_result (py "2024-01-01")) /\
  trace w = [Slept 900] /\
  limiter busy_world = mk_limiter 5 1000 0 5 /\
  limiter w = mk_limiter 5 1000 1000 1.
Proof. vm_compute. repeat split. Qed.

(** The file of 31 December 9999 exists, and still the call is not
    skipped: the day after does not exist, and the function raises before
    it looks for the file. *)
Example last_day_is_not_skipped :
  fst (download_single_day calm ascii_only 2 (py "foo") (py "9999-12-31") last_day_world)
  = Raised (OverflowError (py "date value out of range")).
Proof. reflexivity. Qed.

(** ** Days already downloaded *)

Lemma alt_match_chars U alt : forall s acc v rest,
  alt_wf alt = true ->
  alt_match U alt s acc = Some (v, rest) ->
  exists pre, s = pre ++ rest /\
              Forall (fun c => is_Some (decimal U c) \/ isspace U c = true) pre.
Proof.
  induction alt as [|cl alt IH]; intros s acc v rest Hwf H.
  - injection H as _ <-. exists []. split; [reflexivity|constructor].
  - destruct s as [|c s]; [discriminate|]. cbn [alt_match] in H.
    assert (forall acc', alt_wf alt = true -> alt_match U alt s acc' = Some (v, rest) ->
              (is_Some (decimal U c) \/ isspace U c = true) ->
              exists pre, c :: s = pre ++ rest /\
                Forall (fun c => is_Some (decimal U c) \/ isspace U c = true) pre) as Step.
    { intros acc' W M C. destruct (IH _ _ _ _ W M) as (pre & -> & F).
      exists (c :: pre). split; [reflexivity|]. now constructor. }
    destruct cl as [a b| |]; cbn [alt_wf class_value] in *.
    + apply andb_true_iff in Hwf. destruct Hwf as [Hr Hwf].
      apply andb_true_iff in Hr. rewrite !N.leb_le in Hr.
      destruct (in_range a b c) eqn:R; [|discriminate].
      destruct (decimal_in_range U a b c ltac:(lia) ltac:(lia) R) as (d & Hd & _).
      rewrite Hd in H. eapply Step; [exact Hwf|exact H|]. left. eauto.
    + destruct (decimal U c) as [d|] eqn:Hd; [|discriminate].
      eapply Step; [exact Hwf|exact H|]. left. eauto.
    + destruct (N.eqb_spec c 32); [|discriminate]. subst c.
      eapply Step; [exact Hwf|exact H|]. right. reflexivity.
Qed.

Lemma fmt_char_weaken U lits lits' c :
  (forall x, In x lits -> In x lits') -> fmt_char U lits c -> fmt_char U lits' c.
Proof. unfold fmt_char. intuition. Qed.

Lemma match_fmt_chars U items : forall s acc t rest,
  match_fmt U items s acc = Some (t, rest) ->
  exists pre, s = pre ++ rest /\ Forall (fmt_char U (fmt_literals items)) pre.
Proof.
  induction items as [|it items IH]; intros s acc t rest H.
  - injection H as _ <-. exists []. split; [reflexivity|constructor].
  - destruct it as [f|c|]; cbn [match_fmt fmt_literals] in *.
    + apply first_alt_inv in H. destruct H as (alt & v & rest' & Hin & Hm & Hk).
      destruct (directive_alts_bounds f alt Hin) as (Hwf & _).
      destruct (alt_match_chars U alt _ _ _ _ Hwf Hm) as (p1 & -> & F1).
      destruct (IH _ _ _ _ Hk) as (p2 & -> & F2).
      exists (p1 ++ p2). rewrite <- app_assoc. split; [reflexivity|].
      apply Forall_app. split; [|exact F2].
      eapply Forall_impl; [exact F1|]. unfold fmt_char. intuition.
    + apply lit_inv in H. destruct H as (s' & -> & H).
      destruct (IH _ _ _ _ H) as (p & -> & F).
      exists (c :: p). split; [reflexivity|]. constructor.
      * unfold fmt_char. right. right. now left.
      * eapply Forall_impl; [exact F|]. intros x. apply fmt_char_weaken.
        intros y. now right.
    + apply rep_greedy_inv in H. destruct H as (g & s' & -> & Fg & _ & H).
      destruct (IH _ _ _ _ H) as (p & -> & F).
      exists (g ++ p). rewrite <- app_assoc. split; [reflexivity|].
      apply Forall_app. split; [|exact F].
      eapply Forall_impl; [exact Fg|]. unfold fmt_char. intuition.
Qed.

Lemma strptime_Ymd_no_E U date_str t :
  strptime U date_str fmt_Ymd = Returned t -> Forall (fun c => c <> 69%N) date_str.
Proof.
  intros H. apply strptime_inv in H. destruct H as (x & Hm & _).
  apply match_fmt_chars in Hm. destruct Hm as (pre & -> & F).
  rewrite app_nil_r. eapply Forall_impl; [exact F|].
  intros c [[d Hd]|[Hs|Hl]] ->.
  - discriminate Hd.
  - discriminate Hs.
  - cbn in Hl. intuition discriminate.
Qed.

Lemma startswith_absent x needle haystack :
  Forall (fun c => c <> x) haystack -> startswith haystack (x :: needle) = false.
Proof.
  intros F. destruct haystack as [|c h]; [reflexivity|]. cbn [startswith].
  inversion F; subst. destruct (N.eqb_spec x c); [congruence|reflexivity].
Qed.

Lemma contains_absent x needle haystack :
  Forall (fun c => c <> x) haystack -> contains (x :: needle) haystack = false.
Proof.
  induction haystack as [|c h IH]; intros F; cbn [contains].
  - reflexivity.
  - rewrite startswith_absent by exact F. inversion F; subst. now apply IH.
Qed.

Lemma skipped_result_no_error U date_str t :
  strptime U date_str fmt_Ymd = Returned t ->
  contains (py "Error") (skipped_result date_str) = false.
Proof.
  intros H. apply strptime_Ymd_no_E in H.
  apply (contains_absent 69%N). unfold skipped_result.
  repeat (apply Forall_app; split); try exact H;
    cbn; repeat (constructor; [discriminate|]); constructor.
Qed.

Lemma limiter_attempt_clamped d now :
  clamped_calls (fst (limiter_attempt d now)) = clamped_calls d /\
  period (fst (limiter_attempt d now)) = period d.
Proof. split; apply (limiter_attempt_cases d now). Qed.

Lemma download_single_day_cases E U fuel channel date_str w :
  1 <= clamped_calls (limiter w) ->
  let '(r, w') := download_single_day E U (S (S fuel)) channel date_str w in
  (forall p, is_Some (files w !! p) -> is_Some (files w' !! p)) /\
  (clamped_calls (limiter w') = clamped_calls (limiter w) /\
   period (limiter w') = period (limiter w)) /\
  match r with
  | Returned s =>
      s = success_result date_str \/ s = skipped_result date_str ->
      day_parses U date_str /\
      is_Some (files w' !! log_filename channel date_str)
  | _ => True
  end.
Proof.
  intros HN. rewrite download_single_day_runs by exact HN.
  pose proof (limiter_attempt_clamped (limiter w) (clock w)) as [C1 Q1].
  destruct (limiter_attempt (limiter w) (clock w)) as [d [rem|]]; cbn [fst] in C1, Q1.
  - pose proof (limiter_attempt_clamped d (clock w + rem)) as [C2 Q2].
    cbn zeta.
    match goal with |- context [download_single_day_body E U channel date_str ?x] =>
      pose proof (body_cases E U channel date_str x) as B;
      destruct (download_single_day_body E U channel date_str x) as [r w'] end.
    cbn [files limiter set_limiter emit set_clock] in B.
    destruct B as (B1 & B2 & B3). rewrite B2.
    split; [exact B1|]. split; [split; congruence|exact B3].
  - match goal with |- context [download_single_day_body E U channel date_str ?x] =>
      pose proof (body_cases E U channel date_str x) as B;
      destruct (download_single_day_body E U channel date_str x) as [r w'] end.
    cbn [files limiter set_limiter] in B.
    destruct B as (B1 & B2 & B3). rewrite B2.
    split; [exact B1|]. split; [split; congruence|exact B3].
Qed.

Lemma sent_snoc_slept tr dt : sent (tr ++ [Slept dt]) = sent tr.
Proof. unfold sent. rewrite omap_app. cbn. now rewrite app_nil_r. Qed.

Lemma written_snoc_slept tr dt : written (tr ++ [Slept dt]) = written tr.
Proof. unfold written. rewrite omap_app. cbn. now rewrite app_nil_r. Qed.

(** A day whose file exists: the call is skipped, nothing is sent or
    written, no permit is taken, and the limiter has counted the call. *)
Lemma download_single_day_skip E U fuel channel date_str w current_date next_date :
  1 <= clamped_calls (limiter w) -> 0 < period (limiter w) ->
  strptime U date_str fmt_Ymd = Returned current_date ->
  add_days current_date 1 = Returned next_date ->
  is_Some (files w !! log_filename channel date_str) ->
  exists w',
    download_single_day E U (S (S fuel)) channel date_str w
    = (Returned (skipped_result date_str), w') /\
    files w' = files w /\ permits w' = permits w /\
    sent (trace w') = sent (trace w) /\ written (trace w') = written (trace w) /\
    clamped_calls (limiter w') = clamped_calls (limiter w) /\
    period (limiter w') = period (limiter w) /\
    limiter w' <> limiter w.
Proof.
  intros HN HP Hp Ha Hf. rewrite download_single_day_runs by exact HN.
  pose proof (limiter_attempt_cases (limiter w) (clock w)) as (C1 & P1 & Case1 & Adm1 & Rem1).
  destruct (limiter_attempt (limiter w) (clock w)) as [d [rem|]] eqn:A1;
    cbn [fst snd] in *.
  - pose proof (limiter_attempt_cases d (clock w + rem)) as (C2 & P2 & Case2 & _).
    cbn zeta in *. eexists. split.
    { apply (body_skip _ _ _ _ _ current_date next_date); auto. }
    cbn [files permits trace limiter set_limiter emit set_clock].
    rewrite sent_snoc_slept, written_snoc_slept.
    repeat (split; [reflexivity || congruence|]).
    specialize (Rem1 rem eq_refl). unfold period_remaining in Rem1.
    intros Heq. rewrite Heq in *.
    destruct Case1 as [(? & E1 & E2)|(? & E1 & E2)];
      destruct Case2 as [(? & F1 & F2)|(? & F1 & F2)]; lia.
  - eexists. split.
    { apply (body_skip _ _ _ _ _ current_date next_date); auto. }
    cbn [files permits trace limiter set_limiter].
    repeat (split; [reflexivity || congruence|]).
    intros Heq. rewrite Heq in *.
    destruct Case1 as [(? & E1 & E2)|(? & E1 & E2)]; lia.
Qed.

Lemma collect_results E U fuel channel : forall order b w b' w',
  1 <= clamped_calls (limiter w) ->
  collect E U (S (S fuel)) channel order b w = (Returned b', w') ->
  exists new,
    results b' = results b ++ new /\ map fst new = order /\
    (forall p, is_Some (files w !! p) -> is_Some (files w' !! p)) /\
    (clamped_calls (limiter w') = clamped_calls (limiter w) /\
     period (limiter w') = period (limiter w)) /\
    Forall (fun entry => day_ok entry ->
              day_parses U (fst entry) /\
              is_Some (files w' !! log_filename channel (fst entry))) new.
Proof.
  induction order as [|date order IH]; intros b w b' w' HN H.
  - injection H as <- <-. exists []. rewrite app_nil_r.
    repeat split; auto.
  - cbn [collect] in H.
    pose proof (download_single_day_cases E U fuel channel date w HN) as D.
    destruct (download_single_day E U (S (S fuel)) channel date w) as [[s|e|] w1];
      [| |discriminate].
    + destruct D as (D1 & [D2 D2'] & D3).
      apply IH in H; [|lia]. cbn [results] in H.
      destruct H as (new & Hres & Hfst & Hmono & [Hcl Hpe] & Hall).
      exists ((date, inl s) :: new). rewrite Hres, <- app_assoc.
      split; [reflexivity|]. split; [cbn; now rewrite Hfst|].
      split; [auto|]. split; [split; congruence|].
      constructor; [|exact Hall].
      intros [Hok|Hok]; cbn [fst snd] in *; injection Hok as ->;
        (destruct D3 as [Dp Df]; [auto|]; split; [exact Dp|auto]).
    + destruct D as (D1 & [D2 D2'] & _).
      destruct (is_Exception e); [|discriminate].
      apply IH in H; [|lia]. cbn [results] in H.
      destruct H as (new & Hres & Hfst & Hmono & [Hcl Hpe] & Hall).
      exists ((date, inr e) :: new). rewrite Hres, <- app_assoc.
      split; [reflexivity|]. split; [cbn; now rewrite Hfst|].
      split; [auto|]. split; [split; congruence|].
      constructor; [|exact Hall].
      intros [Hok|Hok]; discriminate Hok.
Qed.

Lemma collect_skips E U fuel channel : forall order b w,
  1 <= clamped_calls (limiter w) -> 0 < period (limiter w) ->
  Forall (fun d => day_parses U d /\ is_Some (files w !! log_filename channel d)) order ->
  exists w',
    collect E U (S (S fuel)) channel order b w
    = (Returned (mk_batch (results b ++ map skipped_entry order) (failed_downloads b)), w') /\
    files w' = files w /\ permits w' = permits w /\
    sent (trace w') = sent (trace w) /\ written (trace w') = written (trace w).
Proof.
  induction order as [|date order IH]; intros b w HN HP Hall.
  - exists w. cbn. rewrite app_nil_r. now destruct b.
  - inversion Hall as [|? ? [(cur & nxt & Hp & Ha) Hf] Hall']; subst.
    destruct (download_single_day_skip E U fuel channel date w cur nxt HN HP Hp Ha Hf)
      as (w1 & Hrun & F1 & P1 & S1 & W1 & C1 & Q1 & _).
    cbn [collect]. rewrite Hrun.
    rewrite (skipped_result_no_error U date cur Hp).
    destruct (IH (mk_batch (results b ++ [(date, inl (skipped_result date))])
                           (failed_downloads b)) w1) as (w' & Hc & F & P & S' & W');
      [lia|lia| |].
    { eapply Forall_impl; [exact Hall'|]. intros d [? ?]. rewrite F1. auto. }
    exists w'. rewrite Hc. cbn [results failed_downloads].
    rewrite <- app_assoc. split; [reflexivity|].
    repeat split; congruence.
Qed.

Lemma download_logs_parallel_inv E U fuel channel start_date_str end_date_str
  max_workers max_concurrent_requests w0 b1 w1 :
  download_logs_parallel E U fuel channel start_date_str end_date_str
    max_workers max_concurrent_requests w0 = (Returned b1, w1) ->
  exists dates w1',
    mkdir_logs E (files w0) = None /\
    generate_date_list U fuel start_date_str end_date_str = Returned dates /\
    0 <= max_concurrent_requests /\ 0 < max_workers /\
    collect E U fuel channel (as_completed E dates) (mk_batch [] [])
      (set_permits max_concurrent_requests w0) = (Returned b1, w1') /\
    (forall p, is_Some (files w1' !! p) -> is_Some (files w1 !! p)) /\
    limiter w1 = limiter w1'.
Proof.
  unfold download_logs_parallel, lift, raise, open_write, mbind, M_bind, mret, M_ret.
  intros H.
  destruct (mkdir_logs E (files w0)) eqn:Mk; [discriminate|].
  destruct (generate_date_list U fuel start_date_str end_date_str) as [dates| |] eqn:G;
    try discriminate.
  destruct (Z.ltb_spec max_concurrent_requests 0); [discriminate|].
  destruct (Z.leb_spec max_workers 0); [discriminate|].
  destruct (collect E U fuel channel (as_completed E dates) (mk_batch [] [])
              (set_permits max_concurrent_requests w0)) as [[b| |] w1'] eqn:C;
    try discriminate.
  exists dates, w1'.
  destruct (failed_downloads b) as [|entry rest].
  - injection H as <- <-. repeat split; auto; lia.
  - destruct (disk_write E _ _ _); try discriminate.
    injection H as <- <-. cbn [files limiter emit set_files].
    repeat split; auto using is_Some_insert_mono; lia.
Qed.

(** C2 (as the code has it).  When the file of a day before
    31 December 9999 exists, [download_single_day] returns the skipped
    outcome, sends no request, writes nothing and takes no permit; the
    rate limiter, which wraps the whole function, does count the call.
    After a run in which every day was downloaded or skipped, a second run
    over the same range, whatever the service and the scheduler do,
    skips every day and sends no request. *)
Theorem existing_days_are_skipped :
  (forall E U fuel channel date_str w current_date next_date,
     1 <= clamped_calls (limiter w) -> 0 < period (limiter w) ->
     strptime U date_str fmt_Ymd = Returned current_date ->
     add_days current_date 1 = Returned next_date ->
     is_Some (files w !! log_filename channel date_str) ->
     exists w',
       download_single_day E U (S (S fuel)) channel date_str w
       = (Returned (skipped_result date_str), w') /\
       sent (trace w') = sent (trace w) /\
       written (trace w') = written (trace w) /\
       files w' = files w /\ permits w' = permits w /\
       limiter w' <> limiter w) /\
  (forall E E2 U fuel channel start_date_str end_date_str
          max_workers max_concurrent_requests w0 b1 w1 dates,
     1 <= clamped_calls (limiter w0) -> 0 < period (limiter w0) ->
     generate_date_list U (S (S fuel)) start_date_str end_date_str = Returned dates ->
     Permutation (as_completed E dates) dates ->
     Permutation (as_completed E2 dates) dates ->
     download_logs_parallel E U (S (S fuel)) channel start_date_str end_date_str
       max_workers max_concurrent_requests w0 = (Returned b1, w1) ->
     Forall day_ok (results b1) ->
     mkdir_logs E2 (files w1) = None ->
     exists b2 w2,
       download_logs_parallel E2 U (S (S fuel)) channel start_date_str end_date_str
         max_workers max_concurrent_requests w1 = (Returned b2, w2) /\
       results b2 = map skipped_entry (as_completed E2 dates) /\
       failed_downloads b2 = [] /\
       sent (trace w2) = sent (trace w1) /\
       written (trace w2) = written (trace w1) /\
       files w2 = files w1).
Proof.
  split.
  - intros E U fuel channel date_str w cur nxt HN HP Hp Ha Hf.
    destruct (download_single_day_skip E U fuel channel date_str w cur nxt HN HP Hp Ha Hf)
      as (w' & H1 & H2 & H3 & H4 & H5 & _ & _ & H8).
    exists w'. auto 10.
  - intros E E2 U fuel channel s e max_workers max_concurrent_requests
            w0 b1 w1 dates HN HP G P1 P2 Run Ok Mk.
    apply download_logs_parallel_inv in Run.
    destruct Run as (dates' & w1' & _ & G' & Hmcr & Hmw & C & Mono & L).
    rewrite G in G'. injection G' as <-.
    apply collect_results in C; [|exact HN].
    destruct C as (new & Hres & Hfst & _ & Hcl & Hall). cbn [results app] in Hres.
    destruct Hcl as [Hcl Hpe]. cbn [limiter set_permits] in Hcl, Hpe.
    rewrite <- L in Hcl, Hpe.
    assert (Forall (fun d => day_parses U d /\
                             is_Some (files w1 !! log_filename channel d))
                   (as_completed E2 dates)) as Hdays.
    { apply Forall_forall. intros d Hd.
      assert (d ∈ map fst new) as Hin.
      { rewrite Hfst. rewrite P1. now rewrite <- P2. }
      apply list_elem_of_fmap in Hin. destruct Hin as (entry & -> & Hentry).
      rewrite Forall_forall in Hall, Ok. rewrite Hres in Ok.
      destruct (Hall entry Hentry (Ok entry Hentry)) as [Hpar Hfile].
      split; [exact Hpar|auto]. }
    destruct (collect_skips E2 U fuel channel (as_completed E2 dates) (mk_batch [] [])
                (set_permits max_concurrent_requests w1))
      as (w2 & Hc & F & P & S2 & W2); cbn [limiter set_permits files]; try lia; auto.
    exists (mk_batch (map skipped_entry (as_completed E2 dates)) []), w2.
    split.
    { unfold download_logs_parallel, lift, raise, mbind, M_bind, mret, M_ret.
      rewrite Mk, G.
      destruct (Z.ltb_spec max_concurrent_requests 0); [lia|].
      destruct (Z.leb_spec max_workers 0); [lia|].
      rewrite Hc. reflexivity. }
    cbn [results failed_downloads]. repeat split; auto.
Qed.

Lemma existing_days_are_skipped_witness :
  (exists w',
     download_single_day calm ascii_only 2 (py "foo") (py "2024-01-01") busy_world
     = (Returned (skipped_result (py "2024-01-01")), w') /\
     sent (trace w') = sent (trace busy_world) /\
     written (trace w') = written (trace busy_world) /\
     files w' = files busy_world /\ permits w' = permits busy_world /\
     limiter w' <> limiter busy_world) /\
  exists b2 w2,
    download_logs_parallel full_disk ascii_only 8 (py "foo")
      (py "01/01/2024") (py "03/01/2024") 10 5
      (snd (download_logs_parallel calm ascii_only 8 (py "foo")
              (py "01/01/2024") (py "03/01/2024") 10 5 fresh_world))
    = (Returned b2, w2) /\
    results b2 = map skipped_entry
                   (as_completed full_disk
                      [py "2024-01-01"; py "2024-01-02"; py "2024-01-03"]) /\
    failed_downloads b2 = [] /\
    sent (trace w2)
    = sent (trace (snd (download_logs_parallel calm ascii_only 8 (py "foo")
                          (py "01/01/2024") (py "03/01/2024") 10 5 fresh_world))) /\
    written (trace w2)
    = written (trace (snd (download_logs_parallel calm ascii_only 8 (py "foo")
                             (py "01/01/2024") (py "03/01/2024") 10 5 fresh_world))) /\
    files w2
    = files (snd (download_logs_parallel calm ascii_only 8 (py "foo")
                    (py "01/01/2024") (py "03/01/2024") 10 5 fresh_world)).
Proof.
  split.
  { apply (proj1 existing_days_are_skipped calm ascii_only O (py "foo") (py "2024-01-01")
             busy_world jan_1_2024 jan_2_2024).
    - vm_compute. discriminate.
    - reflexivity.
    - reflexivity.
    - reflexivity.
    - vm_compute. eauto. }
  apply (proj2 existing_days_are_skipped calm full_disk ascii_only 6%nat (py "foo")
           (py "01/01/2024") (py "03/01/2024") 10 5 fresh_world
           (mk_batch [ (py "2024-01-01", inl (success_result (py "2024-01-01")));
                       (py "2024-01-02", inl (success_result (py "2024-01-02")));
                       (py "2024-01-03", inl (success_result (py "2024-01-03"))) ] [])).
  - vm_compute. discriminate.
  - reflexivity.
  - vm_compute. reflexivity.
  - apply Permutation_refl.
  - apply Permutation_refl.
  - vm_compute. reflexivity.
  - repeat constructor.
  - reflexivity.
Defined.

(** ** What [parse_chat_line] prints and raises *)

Lemma lstrip_keeps U (P : N -> Prop) s : Forall P s -> Forall P (lstrip U s).
Proof.
  induction 1 as [|c s Hc Hs IH]; cbn [lstrip]; [constructor|].
  destruct (isspace U c); [exact IH|constructor; assumption].
Qed.

Lemma strip_keeps U (P : N -> Prop) s : Forall P s -> Forall P (strip U s).
Proof.
  intros H. unfold strip, rstrip.
  apply List.Forall_rev, lstrip_keeps, List.Forall_rev, lstrip_keeps, H.
Qed.

Lemma print_raises_encodes O text : encodes O text -> print_raises O text = None.
Proof.
  intros H. unfold print_raises.
  replace (forallb (encodable O) text) with true; [reflexivity|].
  symmetry. apply List.forallb_forall. apply List.Forall_forall. exact H.
Qed.

Lemma print_raises_inv O text e :
  print_raises O text = Some e ->
  ~ encodes O text /\ e = UnicodeEncodeError (encode_error O text).
Proof.
  unfold print_raises. destruct (forallb (encodable O) text) eqn:F; [discriminate|].
  intros [= <-]. split; [|reflexivity].
  intros H. apply print_raises_encodes in H. unfold print_raises in H.
  rewrite F in H. discriminate H.
Qed.

(** Every stream takes a text in ASCII. *)
Lemma ascii_encodes O text :
  forallb (fun c => (c <? 128)%N) text = true -> encodes O text.
Proof.
  intros H. apply List.Forall_forall. intros c Hc.
  rewrite List.forallb_forall in H. unfold encodable. now rewrite (H c Hc).
Qed.

Lemma encodes_app O a b : encodes O a -> encodes O b -> encodes O (a ++ b).
Proof. intros Ha Hb. apply Forall_app. auto. Qed.

Lemma hex_ascii width : forall n, forallb (fun c => (c <? 128)%N) (hex width n) = true.
Proof.
  induction width as [|width IH]; intros n; [reflexivity|].
  cbn [hex]. rewrite forallb_app, IH. cbn [forallb andb]. rewrite andb_true_r.
  unfold hexdigit. pose proof (N.mod_upper_bound n 16 ltac:(discriminate)).
  destruct (N.ltb_spec (n mod 16) 10); apply N.ltb_lt; lia.
Qed.

Lemma repr_chars_encodes U O quote s :
  encodes O s -> encodes O (flat_map (repr_char U quote) s).
Proof.
  induction 1 as [|c s Hc Hs IH]; [constructor|].
  cbn [flat_map]. apply encodes_app; [|exact IH].
  unfold repr_char.
  repeat match goal with
         | |- context [if ?b then _ else _] => destruct b eqn:?
         end;
    try (apply ascii_encodes; cbn [forallb]; rewrite ?hex_ascii; reflexivity);
    try (constructor; [exact Hc|constructor]).
  constructor; [reflexivity|]. constructor; [exact Hc|constructor].
Qed.

(** [repr] adds only ASCII to the characters of its string. *)
Lemma repr_encodes U O s : encodes O s -> encodes O (repr U s).
Proof.
  intros H. unfold repr.
  set (quote := if existsb (N.eqb apostrophe) s && negb (existsb (N.eqb dquote) s)
                then dquote else apostrophe).
  assert (encodable O quote = true) as Hq
    by (unfold quote; destruct (_ && _); reflexivity).
  constructor; [exact Hq|].
  apply encodes_app; [|constructor; [exact Hq|constructor]].
  apply repr_chars_encodes. exact H.
Qed.

Lemma raised_message {A} m e : @Raised A (ValueError m) = Raised e -> str_exn e = m.
Proof. intros [= <-]. reflexivity. Qed.

(** The message of the [ValueError] that [strptime] raises holds, besides
    ASCII, only characters of the string and of the format. *)
Lemma strptime_error_encodes U O data f e :
  encodes O data -> encodes O (fmt_text f) ->
  strptime U data f = Raised e -> encodes O (str_exn e).
Proof.
  intros Hd Hf. unfold strptime.
  destruct (match_fmt U (fmt_items f) data tm_default) as [[t rest]|] eqn:Mf.
  - apply match_fmt_chars in Mf. destruct Mf as (pre & -> & _).
    apply Forall_app in Hd as [_ Hr].
    destruct rest as [|c rest].
    + repeat match goal with
             | |- context [if ?b then _ else _] => destruct b
             end;
        try discriminate;
        intros H; rewrite (raised_message _ _ H); apply ascii_encodes; reflexivity.
    + intros H. rewrite (raised_message _ _ H).
      apply encodes_app; [apply ascii_encodes; reflexivity|exact Hr].
  - intros H. rewrite (raised_message _ _ H).
    apply encodes_app; [apply ascii_encodes; reflexivity|].
    apply encodes_app; [apply repr_encodes; exact Hd|].
    apply encodes_app; [apply ascii_encodes; reflexivity|].
    apply repr_encodes; exact Hf.
Qed.

Lemma parse_error_line_encodes U O line ts rest msg :
  timestamp_re line = Some (ts, rest) ->
  strptime U (strip U ts) fmt_Ymd_HMS = Raised (ValueError msg) ->
  encodes O line ->
  encodes O (parse_error_line line (ValueError msg)).
Proof.
  intros T P H. unfold parse_error_line.
  apply encodes_app; [apply ascii_encodes; reflexivity|].
  apply encodes_app; [exact H|].
  apply encodes_app; [apply ascii_encodes; reflexivity|].
  apply (strptime_error_encodes U O _ _ _) with (3 := P).
  - apply strip_keeps. apply timestamp_re_inv in T. destruct T as (tail & ->).
    inversion H as [|? ? _ H']; subst. apply Forall_app in H' as [H' _]. exact H'.
  - apply ascii_encodes. reflexivity.
Qed.

(** On a line the terminal can show, [parse_chat_line] returns. *)
Lemma parse_chat_line_returns U O line :
  encodes O line ->
  exists o : option chat_row, snd (parse_chat_line U O line) = Returned o.
Proof.
  intros H. unfold parse_chat_line.
  destruct (timestamp_re line) as [[ts rest]|] eqn:T; [|simpl; eauto].
  destruct (strptime_total U (strip U ts) fmt_Ymd_HMS) as [[t ->]|[msg P]].
  - destruct (message_re U rest) as [[[c u] m]|]; simpl; eauto.
  - rewrite P. cbn [is_ValueError].
    rewrite (print_raises_encodes O _ (parse_error_line_encodes U O _ _ _ _ T P H)).
    simpl. eauto.
Qed.

(** What leaves [parse_chat_line] is the error of its [print]. *)
Lemma parse_chat_line_raises U O line e :
  snd (parse_chat_line U O line) = Raised e ->
  exists ts rest msg,
    timestamp_re line = Some (ts, rest) /\
    strptime U (strip U ts) fmt_Ymd_HMS = Raised (ValueError msg) /\
    ~ encodes O line /\
    e = UnicodeEncodeError
          (encode_error O (parse_error_line line (ValueError msg))) /\
    fst (parse_chat_line U O line) = [].
Proof.
  unfold parse_chat_line.
  destruct (timestamp_re line) as [[ts rest]|] eqn:T; [|discriminate].
  destruct (strptime_total U (strip U ts) fmt_Ymd_HMS) as [[t ->]|[msg P]].
  - destruct (message_re U rest) as [[[c u] m]|]; discriminate.
  - rewrite P. cbn [is_ValueError].
    destruct (print_raises O _) as [e'|] eqn:Pr; [|discriminate].
    intros [= <-]. apply print_raises_inv in Pr as [Hn ->].
    exists ts, rest, msg. repeat split; auto.
    intros H. apply Hn. eapply parse_error_line_encodes; eassumption.
Qed.

Lemma parse_chat_line_comes_back U O line :
  snd (parse_chat_line U O line) <> Diverged.
Proof.
  unfold parse_chat_line.
  destruct (timestamp_re line) as [[ts rest]|]; [|discriminate].
  destruct (strptime_total U (strip U ts) fmt_Ymd_HMS) as [[t ->]|[msg ->]].
  - destruct (message_re U rest) as [[[c u] m]|]; discriminate.
  - cbn [is_ValueError]. destruct (print_raises O _); discriminate.
Qed.

(** C10 (as the code has it).  On every line that the terminal can show,
    [parse_chat_line] returns a row or [None] and raises nothing: a
    bracketed text that is no timestamp makes [strptime] raise
    [ValueError], which is caught.  The one exception that leaves the
    function is the [UnicodeEncodeError] of the [print] in the [except]
    clause, for a line whose bracketed text is no timestamp and that holds
    a character the terminal cannot show; nothing is printed then.  The
    function always comes back. *)
Theorem parse_chat_line_total (U : ucd) (O : text_stream) (line : pystr) :
  (encodes O line ->
   exists o : option chat_row, snd (parse_chat_line U O line) = Returned o) /\
  (forall e, snd (parse_chat_line U O line) = Raised e ->
     exists ts rest msg,
       timestamp_re line = Some (ts, rest) /\
       strptime U (strip U ts) fmt_Ymd_HMS = Raised (ValueError msg) /\
       ~ encodes O line /\
       e = UnicodeEncodeError
             (encode_error O (parse_error_line line (ValueError msg))) /\
       fst (parse_chat_line U O line) = []) /\
  snd (parse_chat_line U O line) <> Diverged.
Proof.
  split; [apply parse_chat_line_returns|].
  split; [apply parse_chat_line_raises|apply parse_chat_line_comes_back].
Qed.

Lemma parse_chat_line_total_witness :
  encodes utf8 (py "[yesterday] #foo bar: hi") /\
  snd (parse_chat_line ascii_only utf8 (py "[yesterday] #foo bar: hi")) = Returned None.
Proof.
  assert (encodes utf8 (py "[yesterday] #foo bar: hi")) as H
    by (apply ascii_encodes; reflexivity).
  split; [exact H|].
  destruct (proj1 (parse_chat_line_total ascii_only utf8 (py "[yesterday] #foo bar: hi")) H)
    as [o Ho].
  rewrite Ho. vm_compute in Ho. congruence.
Defined.

(** C10 (as stated) fails.  The line has a lone surrogate between its
    brackets: the timestamp does not read, the [except] clause prints the
    line, and a terminal in UTF-8 has no bytes for it. *)
Lemma parse_chat_line_raises_on_surrogate :
  timestamp_re surrogate_line = Some ([55296%N], py " #foo bar: hi") /\
  snd (parse_chat_line ascii_only utf8 surrogate_line)
  = Raised (UnicodeEncodeError
              (py "'utf-8' codec can't encode character '\ud800' in position 21: surrogates not allowed")).
Proof. split; vm_compute; reflexivity. Qed.

(** ** The lines that give a row *)

Lemma not_well_formed_without_bracket U line :
  head line <> Some lbracket -> ~ well_formed U line.
Proof.
  intros H (ts & rest & -> & _). apply H. reflexivity.
Qed.

Lemma parse_chat_line_without_bracket U O line :
  head line <> Some lbracket -> parse_chat_line U O line = ([], Returned None).
Proof.
  intros H. unfold parse_chat_line, timestamp_re, lit.
  destruct line as [|c line]; [reflexivity|].
  destruct (N.eqb_spec lbracket c) as [<-|_]; [|reflexivity].
  destruct H. reflexivity.
Qed.

(** C9 (as the code has it).  The example line parses to the example row.
    A line gives a row only if it reads [[<ts>]<rest>], where [<ts>],
    without the white space at its ends, is a date and a time that
    [strptime] reads in the format [%Y-%m-%d %H:%M:%S], and [<rest>]
    starts with [<spaces>#<channel><spaces><username>:<message>]; any
    other line gives no row, and [None] when the terminal can show it.  A
    line that does not start with a bracket gives [None] and prints
    nothing. *)
Theorem parse_chat_line_spec (U : ucd) (O : text_stream) :
  snd (parse_chat_line U O example_line) = Returned (Some example_row) /\
  (forall line, ~ well_formed U line ->
     (forall row, snd (parse_chat_line U O line) <> Returned (Some row)) /\
     (encodes O line -> snd (parse_chat_line U O line) = Returned None)) /\
  (forall line, head line <> Some lbracket ->
     parse_chat_line U O line = ([], Returned None)).
Proof.
  split; [reflexivity|]. split; [|apply parse_chat_line_without_bracket].
  intros line Hwf.
  assert (forall row, snd (parse_chat_line U O line) <> Returned (Some row)) as Hno
    by (intros row H; apply Hwf; eapply parse_chat_line_row_inv; exact H).
  split; [exact Hno|].
  intros H. destruct (parse_chat_line_returns U O line H) as [[row|] Ho]; [|exact Ho].
  destruct (Hno row Ho).
Qed.

Lemma well_formed_has_hash U line : well_formed U line -> In hash line.
Proof.
  intros (ts & rest & -> & _ & sp & ch & sp' & user & msg & tail & -> & _).
  right. apply in_or_app. right. right. apply in_or_app. right. left. reflexivity.
Qed.

Lemma parse_chat_line_spec_witness :
  snd (parse_chat_line ascii_only utf8 example_line) = Returned (Some example_row) /\
  ~ well_formed ascii_only (py "[2023-05-01 10:00:00] foo bar") /\
  snd (parse_chat_line ascii_only utf8 (py "[2023-05-01 10:00:00] foo bar"))
  = Returned None /\
  parse_chat_line ascii_only utf8 (py "10:00:00 #foo bar: hello world")
  = ([], Returned None).
Proof.
  assert (~ well_formed ascii_only (py "[2023-05-01 10:00:00] foo bar")) as Hwf.
  { intros H. apply well_formed_has_hash in H. cbn in H. intuition discriminate. }
  destruct (parse_chat_line_spec ascii_only utf8) as (Hex & Hno & Hbr).
  split; [exact Hex|]. split; [exact Hwf|]. split.
  - apply (Hno _ Hwf). apply ascii_encodes. reflexivity.
  - apply Hbr. discriminate.
Defined.

Lemma shaped_length pattern : forall s,
  shaped pattern s = true -> length s = length pattern.
Proof.
  induction pattern as [|p pattern IH]; intros [|c s] H; cbn in H |- *;
    try discriminate H; [reflexivity|].
  apply andb_true_iff in H as [_ H]. f_equal. apply IH. exact H.
Qed.

(** C9 (as stated) fails.  The timestamp of the line is not written
    [YYYY-MM-DD HH:MM:SS], so the line is malformed for the format of the
    design notes, and it gives a row all the same: [strptime] reads the
    fields without their leading zeros. *)
Lemma parse_chat_line_reads_unpadded :
  ~ noted_line unpadded_line /\
  snd (parse_chat_line ascii_only utf8 unpadded_line) = Returned (Some unpadded_row).
Proof.
  split; [|vm_compute; reflexivity].
  intros (ts & channel & username & message & Hp & Hl).
  pose proof (shaped_length _ _ Hp) as L. cbn [length] in L.
  assert (ts = take 19 (drop 1 unpadded_line)) as ->.
  { rewrite Hl. cbn [drop]. symmetry. apply take_app_length'. symmetry. exact L. }
  vm_compute in Hp. discriminate Hp.
Qed.

Lemma decimal_digit U x : decimal U (digit x) = Some (x mod 10).
Proof.
  unfold digit. pose proof (Z.mod_pos_bound x 10 ltac:(lia)) as B.
  set (r := x mod 10) in *.
  assert (r = 0 \/ r = 1 \/ r = 2 \/ r = 3 \/ r = 4 \/ r = 5 \/ r = 6 \/ r = 7 \/
          r = 8 \/ r = 9) as H by lia.
  clearbody r. repeat destruct H as [->|H]; try subst r; reflexivity.
Qed.

Lemma isspace_digit U x : isspace U (digit x) = false.
Proof.
  unfold digit. pose proof (Z.mod_pos_bound x 10 ltac:(lia)) as B.
  set (r := x mod 10) in *.
  assert (r = 0 \/ r = 1 \/ r = 2 \/ r = 3 \/ r = 4 \/ r = 5 \/ r = 6 \/ r = 7 \/
          r = 8 \/ r = 9) as H by lia.
  clearbody r. repeat destruct H as [->|H]; try subst r; reflexivity.
Qed.

(** How a field is rendered: the year on four digits, the others on two. *)
Lemma alt_match_pad4 U y rest :
  0 <= y <= 9999 ->
  alt_match U [CDigit; CDigit; CDigit; CDigit] (pad4 y ++ rest) 0 = Some (y, rest).
Proof.
  intros B. unfold pad4. cbn [app alt_match class_value].
  rewrite !decimal_digit. f_equal. f_equal. Z.div_mod_to_equations. lia.
Qed.

Lemma first_alt_pad4 {R} U y rest (k : Z -> pystr -> option R) r :
  0 <= y <= 9999 -> k y rest = Some r ->
  first_alt U (directive_alts TY) (pad4 y ++ rest) k = Some r.
Proof.
  intros B H. cbn [directive_alts first_alt].
  rewrite alt_match_pad4 by exact B. rewrite H. reflexivity.
Qed.

Lemma first_alt_pad2 {R} U f v rest (k : Z -> pystr -> option R) r :
  pad2_range f v -> k v rest = Some r ->
  first_alt U (directive_alts f) (pad2 v ++ rest) k = Some r.
Proof.
  intros B H.
  assert (exists n : nat, v = Z.of_nat n /\ (n < 60)%nat) as (n & -> & Hn).
  { exists (Z.to_nat v). destruct f; cbn in B; lia. }
  destruct f; cbn in B; [tauto|..];
    do 60 (destruct n as [|n];
           [try lia; vm_compute; vm_compute in H; rewrite H; reflexivity|]);
    lia.
Qed.

Lemma match_fmt_year U items y rest acc r :
  0 <= y <= 9999 ->
  match_fmt U items rest (tm_set TY y acc) = Some r ->
  match_fmt U (Directive TY :: items) (pad4 y ++ rest) acc = Some r.
Proof. intros B H. cbn [match_fmt]. apply first_alt_pad4; assumption. Qed.

Lemma match_fmt_pad2 U f items v rest acc r :
  pad2_range f v ->
  match_fmt U items rest (tm_set f v acc) = Some r ->
  match_fmt U (Directive f :: items) (pad2 v ++ rest) acc = Some r.
Proof. intros B H. cbn [match_fmt]. apply first_alt_pad2; assumption. Qed.

Lemma match_fmt_literal U c items rest acc :
  match_fmt U (Literal c :: items) (c :: rest) acc = match_fmt U items rest acc.
Proof. cbn [match_fmt lit]. rewrite N.eqb_refl. reflexivity. Qed.

(** One blank before a digit is what the white space of a format takes. *)
Lemma match_fmt_blank U items x rest acc r :
  match_fmt U items (digit x :: rest) acc = Some r ->
  match_fmt U (Whitespace :: items) (32%N :: digit x :: rest) acc = Some r.
Proof.
  intros H. cbn [match_fmt]. unfold rep_greedy. cbn [run].
  replace (isspace U 32) with true by reflexivity.
  rewrite isspace_digit. cbn [greedy Nat.ltb Nat.leb take drop]. rewrite H. reflexivity.
Qed.

Lemma match_fmt_strftime_Ymd U t acc :
  valid_datetime t ->
  match_fmt U (fmt_items fmt_Ymd) (strftime_Ymd t) acc
  = Some (mk_tm (year t) (month t) (day t) (tm_H acc) (tm_M acc) (tm_S acc), []).
Proof.
  intros (Hy & Hm & Hd & _). unfold MINYEAR, MAXYEAR in Hy.
  assert (day t <= 31) as Hd'.
  { pose proof (days_before_month_bounds (year t) (month t) Hm).
    unfold days_in_month, DAYS_IN_MONTH in Hd.
    destruct ((month t =? 2) && is_leap (year t)); [lia|].
    destruct (month t) as [|[? | ? | ]|]; try lia;
      repeat match goal with p : positive |- _ => destruct p; try lia end. }
  unfold strftime_Ymd, fmt_Ymd, fmt_items.
  apply match_fmt_year; [lia|].
  change (py "-" ++ ?x) with (dash :: x). rewrite match_fmt_literal.
  apply match_fmt_pad2; [exact Hm|].
  change (py "-" ++ ?x) with (dash :: x). rewrite match_fmt_literal.
  rewrite <- (app_nil_r (pad2 (day t))).
  apply match_fmt_pad2; [cbn; lia|]. reflexivity.
Qed.

Lemma day_le_days_in_month t :
  valid_datetime t -> day t <= days_in_month (year t) (month t).
Proof. intros (_ & _ & Hd & _). lia. Qed.

(** Reading back what [strftime("%Y-%m-%d")] wrote gives the same day, at
    midnight. *)
Lemma strptime_strftime_Ymd U t :
  valid_datetime t ->
  strptime U (strftime_Ymd t) fmt_Ymd = Returned (midnight t).
Proof.
  intros V. unfold strptime. rewrite (match_fmt_strftime_Ymd U t tm_default V).
  cbn [tm_Y tm_m tm_d tm_H tm_M tm_S tm_default].
  destruct V as (Hy & Hm & Hd & _). unfold MINYEAR in *.
  destruct (Z.ltb_spec (year t) 1); [lia|].
  destruct (Z.ltb_spec (days_in_month (year t) (month t)) (day t)); [lia|].
  reflexivity.
Qed.

Lemma match_fmt_strftime_Ymd_HMS U t acc :
  valid_datetime t ->
  match_fmt U (fmt_items fmt_Ymd_HMS) (strftime_Ymd_HMS t) acc
  = Some (mk_tm (year t) (month t) (day t) (hour t) (minute t) (second t), []).
Proof.
  intros (Hy & Hm & Hd & HH & HM & HS). unfold MINYEAR, MAXYEAR in Hy.
  assert (day t <= 31) as Hd'.
  { unfold days_in_month, DAYS_IN_MONTH in Hd.
    destruct ((month t =? 2) && is_leap (year t)); [lia|].
    destruct (month t) as [|[? | ? | ]|]; try lia;
      repeat match goal with p : positive |- _ => destruct p; try lia end. }
  unfold strftime_Ymd_HMS, strftime_Ymd, fmt_Ymd_HMS, fmt_items.
  rewrite <- !app_assoc.
  apply match_fmt_year; [lia|].
  change (py "-" ++ ?x) with (dash :: x). rewrite match_fmt_literal.
  apply match_fmt_pad2; [exact Hm|].
  change (py "-" ++ ?x) with (dash :: x). rewrite match_fmt_literal.
  apply match_fmt_pad2; [cbn; lia|].
  change (py " " ++ pad2 (hour t) ++ ?x)
    with (32%N :: digit (hour t / 10) :: digit (hour t) :: x).
  apply match_fmt_blank.
  change (digit (hour t / 10) :: digit (hour t) :: ?x) with (pad2 (hour t) ++ x).
  apply match_fmt_pad2; [exact HH|].
  change (py ":" ++ ?x) with (colon :: x). rewrite match_fmt_literal.
  apply match_fmt_pad2; [exact HM|].
  change (py ":" ++ ?x) with (colon :: x). rewrite match_fmt_literal.
  rewrite <- (app_nil_r (pad2 (second t))).
  apply match_fmt_pad2; [exact HS|]. reflexivity.
Qed.

Lemma strptime_strftime_Ymd_HMS U t :
  valid_datetime t ->
  strptime U (strftime_Ymd_HMS t) fmt_Ymd_HMS = Returned t.
Proof.
  intros V. unfold strptime. rewrite (match_fmt_strftime_Ymd_HMS U t tm_default V).
  cbn [tm_Y tm_m tm_d tm_H tm_M tm_S].
  destruct V as (Hy & Hm & Hd & HH & HM & HS). unfold MINYEAR in *.
  destruct (Z.ltb_spec (year t) 1); [lia|].
  destruct (Z.ltb_spec (days_in_month (year t) (month t)) (day t)); [lia|].
  destruct (Z.ltb_spec 59 (second t)); [lia|].
  destruct t; reflexivity.
Qed.

Lemma add_days_valid t k t' :
  valid_datetime t -> add_days t k = Returned t' ->
  valid_datetime t' /\ toordinal t' = toordinal t + k /\
  hour t' = hour t /\ minute t' = minute t /\ second t' = second t.
Proof.
  intros V. unfold add_days.
  destruct (Z.ltb_spec 0 (toordinal t + k)); cbn [andb]; [|discriminate].
  destruct (Z.leb_spec (toordinal t + k) MAXORDINAL); [|discriminate].
  pose proof (ord2ymd_spec (toordinal t + k) ltac:(lia)) as S.
  destruct (ord2ymd (toordinal t + k)) as [[y m] d]. destruct S as [(Hy & Hm & Hd) E].
  intros [= <-]. cbn. destruct V as (_ & _ & _ & HH & HM & HS).
  unfold valid_datetime, toordinal. cbn. repeat split; try lia; exact E.
Qed.

Lemma add_days_raises t k e :
  add_days t k = Raised e -> e = OverflowError (py "date value out of range").
Proof.
  unfold add_days.
  destruct ((0 <? toordinal t + k) && (toordinal t + k <=? MAXORDINAL)).
  - destruct (ord2ymd (toordinal t + k)) as [[y m] d]. discriminate.
  - intros [= <-]. reflexivity.
Qed.

Lemma year_mono a b :
  valid_datetime a -> valid_datetime b -> toordinal a <= toordinal b -> year a <= year b.
Proof.
  intros (_ & Ma & Da & _) (_ & Mb & Db & _) H.
  destruct (Z.le_gt_cases (year a) (year b)) as [|G]; [assumption|].
  pose proof (ymd2ord_lt (year b) (month b) (day b) (year a) (month a) (day a)
                Mb Db Ma Da ltac:(left; lia)) as L.
  unfold toordinal in H. lia.
Qed.

(** Whatever the loop returns is the rendering of valid days that follow
    the one it started from. *)
Lemma date_loop_dates fuel : forall current_date end_date date_list l,
  valid_datetime current_date ->
  date_loop fuel current_date end_date date_list = Returned l ->
  exists days,
    l = date_list ++ map strftime_Ymd days /\
    Forall (fun t => valid_datetime t /\ toordinal current_date <= toordinal t) days.
Proof.
  induction fuel as [|fuel IH]; intros cur end_ acc l V; cbn [date_loop]; [discriminate|].
  destruct (datetime_le cur end_).
  - destruct (add_days cur 1) as [next| |] eqn:A; cbn [mbind outcome_bind];
      try discriminate.
    destruct (add_days_valid _ _ _ V A) as (V' & O & _).
    intros H. destruct (IH _ _ _ _ V' H) as (days & -> & F).
    exists (cur :: days). split.
    + rewrite <- app_assoc. reflexivity.
    + constructor; [split; [exact V|lia]|].
      eapply Forall_impl; [exact F|]. cbn. intros t [? ?]. split; [assumption|lia].
  - intros [= <-]. exists []. rewrite app_nil_r. split; [reflexivity|constructor].
Qed.

Lemma date_loop_raises fuel : forall current_date end_date date_list e,
  date_loop fuel current_date end_date date_list = Raised e ->
  e = OverflowError (py "date value out of range").
Proof.
  induction fuel as [|fuel IH]; intros cur end_ acc e; cbn [date_loop]; [discriminate|].
  destruct (datetime_le cur end_); [|discriminate].
  destruct (add_days cur 1) as [next| |] eqn:A; cbn [mbind outcome_bind];
    try discriminate.
  - apply IH.
  - intros [= <-]. eapply add_days_raises, A.
Qed.

(** X2.  Every string [generate_date_list] produces is read back by the
    [strptime] of [download_single_day] as the day it was rendered from:
    it parses in the format [%Y-%m-%d], and rendering the parsed day gives
    the string again.  The range starts in the year 1000 or later (the C
    library of some platforms renders earlier years on fewer than four
    digits). *)
Theorem generated_dates_parse_back (U : ucd) (fuel : nat)
  (start_date_str end_date_str : pystr) (start_date : datetime)
  (dates : list pystr) :
  strptime U start_date_str fmt_dmY = Returned start_date ->
  1000 <= year start_date ->
  generate_date_list U fuel start_date_str end_date_str = Returned dates ->
  Forall (fun date_str =>
            exists current_date,
              strptime U date_str fmt_Ymd = Returned current_date /\
              strftime_Ymd current_date = date_str /\
              at_midnight current_date /\
              1000 <= year current_date) dates.
Proof.
  intros Hs Hy. unfold generate_date_list. rewrite Hs. cbn [mbind outcome_bind].
  destruct (strptime U end_date_str fmt_dmY) as [end_date| |]; try discriminate.
  intros H.
  pose proof (strptime_valid _ _ _ _ Hs) as Vs.
  destruct (date_loop_dates _ _ _ _ _ Vs H) as (days & -> & F).
  cbn [app]. apply List.Forall_forall. intros d Hd.
  apply in_map_iff in Hd as (t & <- & Ht).
  rewrite List.Forall_forall in F. destruct (F t Ht) as [Vt Ot].
  exists (midnight t). split; [apply strptime_strftime_Ymd; exact Vt|].
  split; [reflexivity|]. split; [repeat split|].
  cbn. pose proof (year_mono _ _ Vs Vt Ot). lia.
Qed.

Lemma generated_dates_parse_back_witness :
  strptime ascii_only (py "30/12/2023") fmt_dmY = Returned dec_30_2023 /\
  1000 <= year dec_30_2023 /\
  generate_date_list ascii_only 8 (py "30/12/2023") (py "02/01/2024")
  = Returned [py "2023-12-30"; py "2023-12-31"; py "2024-01-01"; py "2024-01-02"] /\
  Forall (fun date_str =>
            exists current_date,
              strptime ascii_only date_str fmt_Ymd = Returned current_date /\
              strftime_Ymd current_date = date_str /\
              at_midnight current_date /\
              1000 <= year current_date)
         [py "2023-12-30"; py "2023-12-31"; py "2024-01-01"; py "2024-01-02"].
Proof.
  assert (strptime ascii_only (py "30/12/2023") fmt_dmY = Returned dec_30_2023) as A
    by (vm_compute; reflexivity).
  assert (1000 <= year dec_30_2023) as B by (cbn; lia).
  assert (generate_date_list ascii_only 8 (py "30/12/2023") (py "02/01/2024")
          = Returned [py "2023-12-30"; py "2023-12-31"; py "2024-01-01"; py "2024-01-02"])
    as C by (vm_compute; reflexivity).
  split; [exact A|]. split; [exact B|]. split; [exact C|].
  exact (generated_dates_parse_back ascii_only 8 (py "30/12/2023") (py "02/01/2024")
           dec_30_2023 _ A B C).
Defined.

(** The days the loop renders come in strictly increasing order. *)
Lemma date_loop_sorted fuel : forall current_date end_date date_list l,
  valid_datetime current_date ->
  date_loop fuel current_date end_date date_list = Returned l ->
  exists days,
    l = date_list ++ map strftime_Ymd days /\
    Forall (fun t => valid_datetime t /\ toordinal current_date <= toordinal t) days /\
    StronglySorted (fun a b => toordinal a < toordinal b) days.
Proof.
  induction fuel as [|fuel IH]; intros cur end_ acc l V; cbn [date_loop]; [discriminate|].
  destruct (datetime_le cur end_).
  - destruct (add_days cur 1) as [next| |] eqn:A; cbn [mbind outcome_bind];
      try discriminate.
    destruct (add_days_valid _ _ _ V A) as (V' & O & _).
    intros H. destruct (IH _ _ _ _ V' H) as (days & -> & F & S).
    exists (cur :: days). split; [rewrite <- app_assoc; reflexivity|]. split.
    + constructor; [split; [exact V|lia]|].
      eapply Forall_impl; [exact F|]. cbn. intros t [? ?]. split; [assumption|lia].
    + constructor; [exact S|].
      eapply Forall_impl; [exact F|]. cbn. intros t [? ?]. lia.
  - intros [= <-]. exists []. rewrite app_nil_r.
    split; [reflexivity|]. split; constructor.
Qed.

Lemma strftime_Ymd_inj a b :
  valid_datetime a -> valid_datetime b ->
  strftime_Ymd a = strftime_Ymd b -> toordinal a = toordinal b.
Proof.
  intros Va Vb H.
  pose proof (strptime_strftime_Ymd ascii_only a Va) as Ha.
  pose proof (strptime_strftime_Ymd ascii_only b Vb) as Hb.
  rewrite H, Hb in Ha. injection Ha as Hy Hm Hd.
  unfold toordinal. congruence.
Qed.

Lemma generate_date_list_NoDup U fuel start_date_str end_date_str dates :
  generate_date_list U fuel start_date_str end_date_str = Returned dates ->
  NoDup dates.
Proof.
  unfold generate_date_list.
  destruct (strptime U start_date_str fmt_dmY) as [start_date| |] eqn:Hs;
    try discriminate.
  destruct (strptime U end_date_str fmt_dmY) as [end_date| |]; try discriminate.
  cbn [mbind outcome_bind]. intros H.
  pose proof (strptime_valid _ _ _ _ Hs) as Vs.
  destruct (date_loop_sorted _ _ _ _ _ Vs H) as (days & -> & F & S).
  cbn [app]. clear H. induction S as [|t days S IH L].
  - constructor.
  - inversion F as [|? ? [Vt _] F']; subst. cbn [map]. constructor; [|apply IH; exact F'].
    intros Hin. apply list_elem_of_In, in_map_iff in Hin as (t' & Heq & Hin).
    rewrite List.Forall_forall in L, F'.
    pose proof (L t' Hin). destruct (F' t' Hin) as [Vt' _].
    pose proof (strftime_Ymd_inj t' t Vt' Vt Heq). lia.
Qed.

Lemma not_accepted_raises U date_str :
  ~ accepted U date_str ->
  exists msg, strptime U date_str fmt_dmY = Raised (ValueError msg).
Proof.
  intros N. destruct (strptime_total U date_str fmt_dmY) as [[t H]|H]; [|exact H].
  exfalso. apply N. exists t. exact H.
Qed.

Lemma get_valid_date_refuses U fuel prompt date_str inp out :
  ~ accepted U date_str ->
  get_valid_date U (S fuel) prompt (mk_console (date_str :: inp) out)
  = get_valid_date U fuel prompt
      (mk_console inp (out ++ [prompt; invalid_date_message])).
Proof.
  intros N. destruct (not_accepted_raises U date_str N) as [msg H].
  cbn [get_valid_date input stdin stdout]. rewrite H. cbn [is_ValueError].
  unfold print. cbn [stdin stdout]. rewrite <- app_assoc. reflexivity.
Qed.

(** X3.  [get_valid_date] returns the first line typed that [strptime]
    reads in the format [%d/%m/%Y], unchanged; every line before it is
    answered with the message and the prompt again, and the lines after it
    are left to be read.  If no line is accepted before the input ends, it
    raises [EOFError]. *)
Theorem get_valid_date_first_accepted (U : ucd) (fuel : nat) (prompt : pystr)
  (bad : list pystr) (out : list pystr) :
  Forall (fun s => ~ accepted U s) bad ->
  (length bad < fuel)%nat ->
  (forall good rest,
     accepted U good ->
     get_valid_date U fuel prompt (mk_console (bad ++ good :: rest) out)
     = (Returned good, mk_console rest (out ++ refusals prompt bad ++ [prompt]))) /\
  get_valid_date U fuel prompt (mk_console bad out)
  = (Raised EOFError, mk_console [] (out ++ refusals prompt bad ++ [prompt])).
Proof.
  revert fuel out. induction bad as [|b bad IH]; intros fuel out F L.
  - destruct fuel as [|fuel]; [cbn in L; lia|]. split.
    + intros good rest [t H]. cbn [app get_valid_date input stdin stdout].
      rewrite H. reflexivity.
    + reflexivity.
  - destruct fuel as [|fuel]; [cbn in L; lia|].
    inversion F as [|? ? Nb F']; subst.
    destruct (IH fuel (out ++ [prompt; invalid_date_message]) F'
                ltac:(cbn in L; lia)) as [A B].
    split.
    + intros good rest G. cbn [app]. rewrite get_valid_date_refuses by exact Nb.
      rewrite A by exact G. unfold refusals. cbn [map concat].
      rewrite <- !app_assoc. reflexivity.
    + rewrite get_valid_date_refuses by exact Nb. rewrite B.
      unfold refusals. cbn [map concat]. rewrite <- !app_assoc. reflexivity.
Qed.

Lemma get_valid_date_first_accepted_witness :
  Forall (fun s => ~ accepted ascii_only s) [py "2024-01-01"; py "31/02/2024"] /\
  (2 < 3)%nat /\
  accepted ascii_only (py "1/1/2024") /\
  get_valid_date ascii_only 3 (py "Start date")
    (mk_console ([py "2024-01-01"; py "31/02/2024"] ++ [py "1/1/2024"; py "x"]) [])
  = (Returned (py "1/1/2024"),
     mk_console [py "x"]
       ([] ++ refusals (py "Start date") [py "2024-01-01"; py "31/02/2024"]
           ++ [py "Start date"])) /\
  get_valid_date ascii_only 3 (py "Start date")
    (mk_console [py "2024-01-01"; py "31/02/2024"] [])
  = (Raised EOFError,
     mk_console []
       ([] ++ refusals (py "Start date") [py "2024-01-01"; py "31/02/2024"]
           ++ [py "Start date"])).
Proof.
  assert (Forall (fun s => ~ accepted ascii_only s) [py "2024-01-01"; py "31/02/2024"])
    as F.
  { repeat constructor; intros [t H]; vm_compute in H; discriminate. }
  assert (accepted ascii_only (py "1/1/2024")) as G.
  { eexists. vm_compute. reflexivity. }
  assert (2 < 3)%nat as L by lia.
  split; [exact F|]. split; [exact L|]. split; [exact G|].
  pose proof (get_valid_date_first_accepted ascii_only 3 (py "Start date")
                [py "2024-01-01"; py "31/02/2024"] [] F L) as [A B].
  split; [apply A; exact G|exact B].
Defined.

Lemma get_valid_date_accepts U fuel prompt : forall c date_str,
  fst (get_valid_date U fuel prompt c) = Returned date_str -> accepted U date_str.
Proof.
  induction fuel as [|fuel IH]; intros c d; cbn [get_valid_date]; [discriminate|].
  unfold input. destruct (stdin c) as [|line rest]; [discriminate|].
  destruct (strptime U line fmt_dmY) as [t|e|] eqn:H; cbn [fst].
  - intros [= <-]. exists t. exact H.
  - destruct (is_ValueError e); [apply IH|discriminate].
  - discriminate.
Qed.

(** X4.  Two strings that [get_valid_date] returned never make
    [generate_date_list] raise [ValueError]: the only exception it can
    raise on them is the [OverflowError] of the step past 9999-12-31. *)
Theorem validated_dates_raise_no_ValueError (U : ucd) (f1 f2 fuel : nat)
  (p1 p2 : pystr) (c1 c2 : console) (start_date_str end_date_str : pystr) (e : exn) :
  fst (get_valid_date U f1 p1 c1) = Returned start_date_str ->
  fst (get_valid_date U f2 p2 c2) = Returned end_date_str ->
  generate_date_list U fuel start_date_str end_date_str = Raised e ->
  e = OverflowError (py "date value out of range").
Proof.
  intros H1 H2.
  destruct (get_valid_date_accepts _ _ _ _ _ H1) as [s Hs].
  destruct (get_valid_date_accepts _ _ _ _ _ H2) as [t Ht].
  unfold generate_date_list. rewrite Hs, Ht. cbn [mbind outcome_bind].
  apply date_loop_raises.
Qed.

Lemma validated_dates_raise_no_ValueError_witness :
  fst (get_valid_date ascii_only 1 (py "Start date") (mk_console [py "31/12/9999"] []))
  = Returned (py "31/12/9999") /\
  generate_date_list ascii_only 3 (py "31/12/9999") (py "31/12/9999")
  = Raised (OverflowError (py "date value out of range")) /\
  OverflowError (py "date value out of range")
  = OverflowError (py "date value out of range").
Proof.
  assert (fst (get_valid_date ascii_only 1 (py "Start date")
                 (mk_console [py "31/12/9999"] []))
          = Returned (py "31/12/9999")) as A by (vm_compute; reflexivity).
  assert (generate_date_list ascii_only 3 (py "31/12/9999") (py "31/12/9999")
          = Raised (OverflowError (py "date value out of range"))) as B
    by (vm_compute; reflexivity).
  split; [exact A|]. split; [exact B|].
  exact (validated_dates_raise_no_ValueError ascii_only 1 1 3 (py "Start date")
           (py "Start date") _ _ _ _ _ A A B).
Defined.

(** ** One day's download, case by case *)

Lemma world_permits_back w w' :
  files w' = files w -> trace w' = trace w -> limiter w' = limiter w ->
  clock w' = clock w -> permits w' = permits w - 1 ->
  set_permits (permits w' + 1) w' = w.
Proof.
  destruct w, w'; cbn. intros -> -> -> -> ->. unfold set_permits; cbn.
  f_equal. lia.
Qed.

(** What the body does when the day parses, its file is missing and a
    permit is free: one request, then one of the ways out. *)
Lemma body_fetch E U channel date_str w current_date next_date :
  strptime U date_str fmt_Ymd = Returned current_date ->
  add_days current_date 1 = Returned next_date ->
  files w !! log_filename channel date_str = None ->
  0 < permits w ->
  download_single_day_body E U channel date_str w =
  let filename := log_filename channel date_str in
  let w1 := emit (Sent (day_request channel current_date next_date)) w in
  match http_get E (trace w) (day_request channel current_date next_date) with
  | Returned r =>
      if (400 <=? status_code r) && (status_code r <? 600) then
        let msg := download_error date_str (http_error_message r) in
        (Returned msg, emit (Logged msg) w1)
      else
        match disk_write E (files w) filename (text r) with
        | Written =>
            (Returned (success_result date_str),
             emit (Wrote filename (text r))
                  (set_files (<[filename := text r]> (files w)) w1))
        | OpenFails m =>
            let msg := unexpected_error date_str m in
            (Returned msg, emit (Logged msg) w1)
        | WriteFails m kept =>
            let msg := unexpected_error date_str m in
            (Returned msg,
             emit (Logged msg)
                  (emit (Wrote filename kept)
                        (set_files (<[filename := kept]> (files w)) w1)))
        end
  | Raised e =>
      if is_RequestException e then
        let msg := download_error date_str (str_exn e) in
        (Returned msg, emit (Logged msg) w1)
      else if is_Exception e then
        let msg := unexpected_error date_str (str_exn e) in
        (Returned msg, emit (Logged msg) w1)
      else (Raised e, w1)
  | Diverged => (Diverged, set_permits (permits w - 1) w1)
  end.
Proof.
  intros Hp Ha Hf Hs. rewrite download_single_day_body_unfold.
  unfold lift, os_path_exists, mbind, M_bind. rewrite Hp, Ha.
  rewrite bool_decide_eq_false_2 by (rewrite Hf; intros [? ?]; discriminate).
  unfold with_semaphore. destruct (Z.leb_spec (permits w) 0) as [|_]; [lia|].
  unfold try_except, try_block, requests_get, mbind, M_bind.
  cbn [trace set_permits].
  fold (day_request channel current_date next_date).
  destruct (http_get E (trace w) (day_request channel current_date next_date))
    as [r|e|]; cbn zeta.
  - unfold raise_for_status, http_error_message, download_error.
    destruct (Z.leb_spec 400 (status_code r)) as [H4|H4];
      destruct (Z.ltb_spec (status_code r) 500) as [H5|H5];
      destruct (Z.leb_spec 500 (status_code r)) as [H5'|H5']; try lia;
      destruct (Z.ltb_spec (status_code r) 600) as [H6|H6]; try lia;
      cbn [andb orb]; unfold raise, mret, M_ret, except_clauses, logging_error, tell,
        mbind, M_bind; cbn [is_RequestException str_exn];
      try (f_equal; unfold emit, set_permits; cbn; f_equal; lia).
    all: unfold open_write; cbn [files emit set_permits];
      destruct (disk_write E (files w) (log_filename channel date_str) (text r));
      cbn [is_RequestException is_Exception str_exn]; unfold unexpected_error;
      f_equal; unfold emit, set_permits, set_files; cbn; f_equal; lia.
  - unfold except_clauses, logging_error, tell, raise, mret, M_ret, mbind, M_bind,
      download_error, unexpected_error.
    destruct (is_RequestException e);
      [f_equal; unfold emit, set_permits; cbn; f_equal; lia|].
    destruct (is_Exception e); f_equal; unfold emit, set_permits; cbn; f_equal; lia.
  - reflexivity.
Qed.

Lemma sent_app tr tr' : sent (tr ++ tr') = sent tr ++ sent tr'.
Proof. apply omap_app. Qed.

Lemma written_app tr tr' : written (tr ++ tr') = written tr ++ written tr'.
Proof. apply omap_app. Qed.

(** The decorators add sleeps and count the call; then the body runs, or
    the fuel of the model is used up. *)
Lemma download_single_day_reaches E U fuel channel date_str : forall w,
  exists w1,
    files w1 = files w /\ permits w1 = permits w /\
    sent (trace w1) = sent (trace w) /\ written (trace w1) = written (trace w) /\
    (download_single_day E U fuel channel date_str w = (Diverged, w1) \/
     download_single_day E U fuel channel date_str w
     = download_single_day_body E U channel date_str w1).
Proof.
  induction fuel as [|fuel IH]; intros w.
  - exists w. repeat split. left. reflexivity.
  - assert (download_single_day E U (S fuel) channel date_str w
            = match limiter_attempt (limiter w) (clock w) with
              | (d, Some rem) =>
                  download_single_day E U fuel channel date_str
                    (emit (Slept rem) (set_clock (clock w + rem) (set_limiter d w)))
              | (d, None) => download_single_day_body E U channel date_str (set_limiter d w)
              end) as Eq.
    { unfold download_single_day. cbn [sleep_and_retry]. unfold limits_wrapper at 1.
      destruct (limiter_attempt (limiter w) (clock w)) as [d [rem|]]; [reflexivity|].
      destruct (download_single_day_body E U channel date_str (set_limiter d w))
        as [[r|e|] w2] eqn:B; try reflexivity.
      destruct e; try reflexivity.
      exfalso. eapply download_single_day_body_no_rate_limit. exact B. }
    rewrite Eq. destruct (limiter_attempt (limiter w) (clock w)) as [d [rem|]].
    + destruct (IH (emit (Slept rem) (set_clock (clock w + rem) (set_limiter d w))))
        as (w1 & F & P & S & W & H).
      exists w1. cbn in F, P, S, W. rewrite sent_snoc_slept in S.
      rewrite written_snoc_slept in W. repeat split; assumption.
    + exists (set_limiter d w). repeat split. right. reflexivity.
Qed.

(** With a sound limiter and two rounds of fuel the body does run. *)
Lemma download_single_day_runs_body E U fuel channel date_str w :
  1 <= clamped_calls (limiter w) ->
  exists w1,
    files w1 = files w /\ permits w1 = permits w /\
    sent (trace w1) = sent (trace w) /\ written (trace w1) = written (trace w) /\
    download_single_day E U (S (S fuel)) channel date_str w
    = download_single_day_body E U channel date_str w1.
Proof.
  intros HN. rewrite (download_single_day_runs E U fuel channel date_str w HN).
  destruct (limiter_attempt (limiter w) (clock w)) as [d [rem|]].
  - eexists. split; [|split; [|split; [|split; [|reflexivity]]]]; cbn;
      rewrite ?sent_snoc_slept, ?written_snoc_slept; reflexivity.
  - eexists. split; [|split; [|split; [|split; [|reflexivity]]]]; reflexivity.
Qed.

(** X5.  A day that parses, whose file is missing, with a permit free, a
    service that answers the day's request with a status outside 400 to
    599 and a disk that takes the file: the call returns "Successfully
    downloaded", the file holds the text of the response and nothing else
    changed on disk, exactly one request was sent (for the interval from
    the day's midnight to the next), and the permit is back. *)
Theorem download_single_day_success (E : env) (U : ucd) (fuel : nat)
  (channel date_str : pystr) (w : world) (current_date next_date : datetime)
  (r : response) :
  1 <= clamped_calls (limiter w) ->
  strptime U date_str fmt_Ymd = Returned current_date ->
  add_days current_date 1 = Returned next_date ->
  files w !! log_filename channel date_str = None ->
  0 < permits w ->
  (forall tr, http_get E tr (day_request channel current_date next_date) = Returned r) ->
  ~ (400 <= status_code r < 600) ->
  disk_write E (files w) (log_filename channel date_str) (text r) = Written ->
  exists w',
    download_single_day E U (S (S fuel)) channel date_str w
    = (Returned (success_result date_str), w') /\
    files w' = <[log_filename channel date_str := text r]> (files w) /\
    sent (trace w') = sent (trace w) ++ [day_request channel current_date next_date] /\
    written (trace w') = written (trace w) ++ [log_filename channel date_str] /\
    permits w' = permits w.
Proof.
  intros HN Hp Ha Hf Hs Hh Hst Hd.
  destruct (download_single_day_runs_body E U fuel channel date_str w HN)
    as (w1 & F & P & S & W & ->).
  rewrite (body_fetch E U channel date_str w1 current_date next_date Hp Ha)
    by (rewrite ?F, ?P; assumption).
  cbn zeta. rewrite Hh, F, Hd.
  replace ((400 <=? status_code r) && (status_code r <? 600)) with false
    by (symmetry; apply andb_false_iff;
        destruct (Z.leb_spec 400 (status_code r)); [right; apply Z.ltb_ge; lia|left; reflexivity]).
  eexists. split; [reflexivity|]. cbn.
  rewrite !sent_app, !written_app, S, W. cbn. rewrite !app_nil_r.
  repeat split; try reflexivity. exact P.
Qed.

Lemma download_single_day_success_witness :
  exists w',
    download_single_day calm ascii_only 2 (py "foo") (py "2024-01-01") fresh_world_5
    = (Returned (success_result (py "2024-01-01")), w') /\
    files w' = <[log_filename (py "foo") (py "2024-01-01") := text ok_response]>
                 (files fresh_world_5) /\
    sent (trace w') = sent (trace fresh_world_5) ++ [day_request (py "foo") jan_1_2024 jan_2_2024] /\
    written (trace w') = written (trace fresh_world_5)
                         ++ [log_filename (py "foo") (py "2024-01-01")] /\
    permits w' = permits fresh_world_5.
Proof.
  apply (download_single_day_success calm ascii_only 0 (py "foo") (py "2024-01-01")
           fresh_world_5 jan_1_2024 jan_2_2024 ok_response).
  - cbn. lia.
  - vm_compute. reflexivity.
  - vm_compute. reflexivity.
  - reflexivity.
  - cbn. lia.
  - intros tr. reflexivity.
  - cbn. lia.
  - reflexivity.
Defined.

(** What the body can do to the disk and to the network, whatever the
    world it runs in. *)
Lemma body_effects E U channel date_str w :
  let '(r, w') := download_single_day_body E U channel date_str w in
  (forall p, p <> log_filename channel date_str \/ is_Some (files w !! p) ->
             files w' !! p = files w !! p) /\
  (sent (trace w') = sent (trace w) \/
   exists current_date next_date,
     strptime U date_str fmt_Ymd = Returned current_date /\
     add_days current_date 1 = Returned next_date /\
     files w !! log_filename channel date_str = None /\
     sent (trace w') = sent (trace w) ++ [day_request channel current_date next_date]) /\
  (written (trace w') = written (trace w) \/
   written (trace w') = written (trace w) ++ [log_filename channel date_str]) /\
  (forall e, r = Raised e -> is_Exception e = true ->
     (strptime U date_str fmt_Ymd = Raised e \/
      exists current_date, strptime U date_str fmt_Ymd = Returned current_date /\
                           add_days current_date 1 = Raised e) /\
     w' = w).
Proof.
  destruct (strptime U date_str fmt_Ymd) as [cur|e0|] eqn:Hp.
  2,3: rewrite download_single_day_body_unfold; unfold lift, mbind, M_bind; rewrite Hp;
    (split; [auto|]); (split; [auto|]); (split; [auto|]);
    intros e; intros [= <-] || discriminate; auto.
  destruct (add_days cur 1) as [nxt|e0|] eqn:Ha.
  2,3: rewrite download_single_day_body_unfold; unfold lift, mbind, M_bind; rewrite Hp, Ha;
    (split; [auto|]); (split; [auto|]); (split; [auto|]);
    intros e; intros [= <-] || discriminate; eauto.
  destruct (files w !! log_filename channel date_str) as [old|] eqn:Hf.
  { rewrite (body_skip E U channel date_str w cur nxt Hp Ha) by (rewrite Hf; eauto).
    repeat split; auto; discriminate. }
  destruct (Z.leb_spec (permits w) 0) as [Hs|Hs].
  { rewrite download_single_day_body_unfold.
    unfold lift, os_path_exists, mbind, M_bind. rewrite Hp, Ha.
    rewrite bool_decide_eq_false_2 by (rewrite Hf; intros [? ?]; discriminate).
    unfold with_semaphore. destruct (Z.leb_spec (permits w) 0); [|lia].
    repeat split; auto; discriminate. }
  rewrite (body_fetch E U channel date_str w cur nxt Hp Ha Hf Hs). cbn zeta.
  assert (forall p kept,
            p <> log_filename channel date_str \/ is_Some (files w !! p) ->
            <[log_filename channel date_str := kept]> (files w) !! p = files w !! p) as Hfr.
  { intros p kept [Hne|Hsome].
    - apply lookup_insert_ne. congruence.
    - destruct (decide (log_filename channel date_str = p)) as [<-|Hne].
      + rewrite Hf in Hsome. destruct Hsome; discriminate.
      + apply lookup_insert_ne. exact Hne. }
  assert (forall X : Prop,
            X \/ exists current_date next_date,
                Returned cur = Returned current_date /\
                add_days current_date 1 = Returned next_date /\
                @None pystr = None /\
                sent (trace w) ++ [day_request channel cur nxt]
                = sent (trace w) ++ [day_request channel current_date next_date]) as Hreq.
  { intros X. right. exists cur, nxt. auto. }
  destruct (http_get E (trace w) (day_request channel cur nxt)) as [r|e|].
  - destruct ((400 <=? status_code r) && (status_code r <? 600)).
    + cbn. rewrite !sent_app, !written_app. cbn. rewrite !app_nil_r.
      repeat split; auto; discriminate.
    + destruct (disk_write E (files w) (log_filename channel date_str) (text r)); cbn;
        rewrite !sent_app, !written_app; cbn; rewrite ?app_nil_r;
        repeat split; auto; discriminate.
  - destruct (is_RequestException e); [|destruct (is_Exception e) eqn:Ex]; cbn;
      rewrite !sent_app, ?written_app; cbn; rewrite ?app_nil_r;
      (split; [auto|]); (split; [auto|]); (split; [auto|]);
      intros e'; intros [= <-] || discriminate; congruence.
  - cbn. rewrite !sent_app, !written_app. cbn. rewrite !app_nil_r.
    repeat split; auto; discriminate.
Qed.

(** X6.  A request that fails, by an exception of [requests] or by a status
    from 400 to 599, makes the call return "Error downloading <day>:
    <message>": the message is logged, no file is created or changed (the
    file of the [logging] module apart), and the result holds the word by
    which [download_logs_parallel] recognises a failure. *)
Theorem failed_request_is_an_error_result (E : env) (U : ucd) (fuel : nat)
  (channel date_str : pystr) (w : world) (current_date next_date : datetime)
  (msg : pystr) :
  1 <= clamped_calls (limiter w) ->
  strptime U date_str fmt_Ymd = Returned current_date ->
  add_days current_date 1 = Returned next_date ->
  files w !! log_filename channel date_str = None ->
  0 < permits w ->
  request_fails E (day_request channel current_date next_date) msg ->
  exists w',
    download_single_day E U (S (S fuel)) channel date_str w
    = (Returned (download_error date_str msg), w') /\
    (forall p, p <> logging_file -> files w' !! p = files w !! p) /\
    written (trace w') = written (trace w) /\
    In (Logged (download_error date_str msg)) (trace w') /\
    permits w' = permits w /\
    contains (py "Error") (download_error date_str msg) = true.
Proof.
  intros HN Hp Ha Hf Hs Hfail.
  destruct (download_single_day_runs_body E U fuel channel date_str w HN)
    as (w1 & F & P & S & W & ->).
  rewrite (body_fetch E U channel date_str w1 current_date next_date Hp Ha)
    by (rewrite ?F, ?P; assumption).
  cbn zeta.
  assert (forall w2, In (Logged (download_error date_str msg))
                        (trace (emit (Logged (download_error date_str msg)) w2))) as L.
  { intros w2. cbn. apply in_or_app. right. left. reflexivity. }
  destruct Hfail as [Hr|(r & Hr & Hst & ->)]; rewrite Hr.
  - cbn [is_RequestException str_exn]. eexists. split; [reflexivity|].
    cbn [files emit set_files permits]. rewrite F, P.
    split; [reflexivity|]. split.
    { cbn. rewrite !written_app, W. cbn. rewrite !app_nil_r. reflexivity. }
    split; [apply L|]. split; reflexivity.
  - replace ((400 <=? status_code r) && (status_code r <? 600)) with true
      by (symmetry; apply andb_true_iff; split; [apply Z.leb_le|apply Z.ltb_lt]; lia).
    eexists. split; [reflexivity|].
    cbn [files emit set_files permits]. rewrite F, P.
    split; [reflexivity|]. split.
    { cbn. rewrite !written_app, W. cbn. rewrite !app_nil_r. reflexivity. }
    split; [apply L|]. split; reflexivity.
Qed.

Lemma failed_request_is_an_error_result_witness :
  request_fails no_such_channel (day_request (py "foo") jan_1_2024 jan_2_2024)
    (http_error_message not_found) /\
  exists w',
    download_single_day no_such_channel ascii_only 2 (py "foo") (py "2024-01-01")
      fresh_world_5
    = (Returned (download_error (py "2024-01-01") (http_error_message not_found)), w') /\
    (forall p, p <> logging_file -> files w' !! p = files fresh_world_5 !! p) /\
    written (trace w') = written (trace fresh_world_5) /\
    In (Logged (download_error (py "2024-01-01") (http_error_message not_found)))
       (trace w') /\
    permits w' = permits fresh_world_5 /\
    contains (py "Error") (download_error (py "2024-01-01") (http_error_message not_found))
    = true.
Proof.
  assert (request_fails no_such_channel (day_request (py "foo") jan_1_2024 jan_2_2024)
            (http_error_message not_found)) as H.
  { right. exists not_found. split; [reflexivity|]. split; [cbn; lia|reflexivity]. }
  split; [exact H|].
  apply (failed_request_is_an_error_result no_such_channel ascii_only 0 (py "foo")
           (py "2024-01-01") fresh_world_5 jan_1_2024 jan_2_2024).
  - cbn. lia.
  - vm_compute. reflexivity.
  - vm_compute. reflexivity.
  - reflexivity.
  - cbn. lia.
  - exact H.
Defined.

Lemma contains_skip x needle (pre s : pystr) :
  Forall (fun c => c <> x) pre ->
  contains (x :: needle) (pre ++ s) = contains (x :: needle) s.
Proof.
  induction 1 as [|c pre Hc _ IH]; [reflexivity|].
  cbn [app contains startswith]. rewrite IH.
  destruct (N.eqb_spec x c); [congruence|reflexivity].
Qed.

(** X7.  A disk that refuses the file makes the call return "Unexpected
    error for <day>: <message>", logged, with the permit given back.
    Unless the message of the operating system itself holds the word
    "Error", the result does not hold it (its "error" is in lower case),
    so [download_logs_parallel] does not take the day for a failed one. *)
Theorem disk_failure_is_an_unexpected_error (E : env) (U : ucd) (fuel : nat)
  (channel date_str : pystr) (w : world) (current_date next_date : datetime)
  (r : response) (msg : pystr) :
  1 <= clamped_calls (limiter w) ->
  strptime U date_str fmt_Ymd = Returned current_date ->
  add_days current_date 1 = Returned next_date ->
  files w !! log_filename channel date_str = None ->
  0 < permits w ->
  (forall tr, http_get E tr (day_request channel current_date next_date) = Returned r) ->
  ~ (400 <= status_code r < 600) ->
  (disk_write E (files w) (log_filename channel date_str) (text r) = OpenFails msg \/
   exists kept,
     disk_write E (files w) (log_filename channel date_str) (text r)
     = WriteFails msg kept) ->
  contains (py "Error") msg = false ->
  exists w',
    download_single_day E U (S (S fuel)) channel date_str w
    = (Returned (unexpected_error date_str msg), w') /\
    In (Logged (unexpected_error date_str msg)) (trace w') /\
    permits w' = permits w /\
    contains (py "Error") (unexpected_error date_str msg) = false /\
    failure_of (date_str, inl (unexpected_error date_str msg)) = None.
Proof.
  intros HN Hp Ha Hf Hs Hh Hst Hd Hmsg.
  assert (contains (py "Error") (unexpected_error date_str msg) = false) as Hno.
  { assert (Forall (fun c => c <> 69%N)
                   ((py "Unexpected error for " ++ date_str) ++ py ": ")) as HF.
    { apply Forall_app. split; [apply Forall_app; split|].
      - repeat constructor; discriminate.
      - eapply strptime_Ymd_no_E, Hp.
      - repeat constructor; discriminate. }
    pose proof (contains_skip 69%N (py "rror") _ msg HF) as K.
    assert (unexpected_error date_str msg
            = ((py "Unexpected error for " ++ date_str) ++ py ": ") ++ msg)
      as -> by (unfold unexpected_error; rewrite <- !app_assoc; reflexivity).
    etransitivity; [exact K|exact Hmsg]. }
  destruct (download_single_day_runs_body E U fuel channel date_str w HN)
    as (w1 & F & P & S & W & ->).
  rewrite (body_fetch E U channel date_str w1 current_date next_date Hp Ha)
    by (rewrite ?F, ?P; assumption).
  cbn zeta. rewrite Hh, F.
  replace ((400 <=? status_code r) && (status_code r <? 600)) with false
    by (symmetry; apply andb_false_iff;
        destruct (Z.leb_spec 400 (status_code r)); [right; apply Z.ltb_ge; lia|left; reflexivity]).
  assert (forall w2, In (Logged (unexpected_error date_str msg))
                        (trace (emit (Logged (unexpected_error date_str msg)) w2))) as L.
  { intros w2. cbn. apply in_or_app. right. left. reflexivity. }
  assert (failure_of (date_str, inl (unexpected_error date_str msg)) = None) as Hfo
    by (unfold failure_of; cbn [fst snd]; rewrite Hno; reflexivity).
  destruct Hd as [Hd|[kept Hd]]; rewrite Hd; eexists;
    (split; [reflexivity|]); (split; [apply L|]); (split; [exact P|]); auto.
Qed.

Lemma disk_failure_is_an_unexpected_error_witness :
  exists w',
    download_single_day full_disk ascii_only 2 (py "foo") (py "2024-01-02") fresh_world_5
    = (Returned (unexpected_error (py "2024-01-02")
                   (py "[Errno 28] No space left on device")), w') /\
    In (Logged (unexpected_error (py "2024-01-02")
                  (py "[Errno 28] No space left on device"))) (trace w') /\
    permits w' = permits fresh_world_5 /\
    contains (py "Error")
      (unexpected_error (py "2024-01-02") (py "[Errno 28] No space left on device"))
    = false /\
    failure_of (py "2024-01-02",
                inl (unexpected_error (py "2024-01-02")
                       (py "[Errno 28] No space left on device"))) = None.
Proof.
  apply (disk_failure_is_an_unexpected_error full_disk ascii_only 0 (py "foo")
           (py "2024-01-02") fresh_world_5 jan_2_2024 (mk_datetime 2024 1 3 0 0 0)
           ok_response).
  - cbn. lia.
  - vm_compute. reflexivity.
  - vm_compute. reflexivity.
  - reflexivity.
  - cbn. lia.
  - intros tr. reflexivity.
  - cbn. lia.
  - right. exists []. vm_compute. reflexivity.
  - vm_compute. reflexivity.
Defined.

(** X8.  [download_single_day] changes no file but the one of its day, and
    it never changes a file that is already there, the file of the day
    included.  (The file of the [logging] module is left out: the model
    does not follow it.) *)
Theorem download_single_day_frame (E : env) (U : ucd) (fuel : nat)
  (channel date_str : pystr) (w : world) (p : pystr) :
  p <> logging_file ->
  p <> log_filename channel date_str \/ is_Some (files w !! p) ->
  files (snd (download_single_day E U fuel channel date_str w)) !! p = files w !! p.
Proof.
  intros _ Hp.
  destruct (download_single_day_reaches E U fuel channel date_str w)
    as (w1 & F & _ & _ & _ & [-> | ->]).
  - cbn. rewrite F. reflexivity.
  - pose proof (body_effects E U channel date_str w1) as B.
    destruct (download_single_day_body E U channel date_str w1) as [r w'].
    destruct B as (B & _). cbn. rewrite B by (rewrite F; exact Hp).
    rewrite F. reflexivity.
Qed.

Lemma download_single_day_frame_witness :
  files (snd (download_single_day calm ascii_only 2 (py "foo") (py "2024-01-01")
                busy_world))
    !! log_filename (py "foo") (py "2024-01-01")
  = files busy_world !! log_filename (py "foo") (py "2024-01-01").
Proof.
  apply (download_single_day_frame calm ascii_only 2 (py "foo") (py "2024-01-01")
           busy_world).
  - discriminate.
  - right. vm_compute. eauto.
Defined.

(** X9.  One call sends at most one request.  If it sends one, the day
    parses, its file was missing, and the request asks the channel's
    address for the interval from the day's midnight to the next. *)
Theorem download_single_day_requests (E : env) (U : ucd) (fuel : nat)
  (channel date_str : pystr) (w : world) :
  let w' := snd (download_single_day E U fuel channel date_str w) in
  sent (trace w') = sent (trace w) \/
  exists current_date next_date,
    strptime U date_str fmt_Ymd = Returned current_date /\
    add_days current_date 1 = Returned next_date /\
    files w !! log_filename channel date_str = None /\
    sent (trace w') = sent (trace w) ++ [day_request channel current_date next_date].
Proof.
  cbn zeta.
  destruct (download_single_day_reaches E U fuel channel date_str w)
    as (w1 & F & _ & S & _ & [-> | ->]).
  - left. exact S.
  - pose proof (body_effects E U channel date_str w1) as B.
    destruct (download_single_day_body E U channel date_str w1) as [r w'].
    destruct B as (_ & B & _). cbn. rewrite F, S in B. exact B.
Qed.

(** X10.  The only exceptions of class [Exception] that leave
    [download_single_day] are those of its first two lines: the
    [ValueError] of a date string that does not parse and the
    [OverflowError] of the day after 9999-12-31.  No request was sent and
    no file was touched then.  What the network and the disk raise inside
    the [try] block comes back as a message. *)
Theorem download_single_day_raises (E : env) (U : ucd) (fuel : nat)
  (channel date_str : pystr) (w w' : world) (e : exn) :
  download_single_day E U fuel channel date_str w = (Raised e, w') ->
  is_Exception e = true ->
  (strptime U date_str fmt_Ymd = Raised e \/
   exists current_date,
     strptime U date_str fmt_Ymd = Returned current_date /\
     add_days current_date 1 = Raised e) /\
  files w' = files w /\ sent (trace w') = sent (trace w) /\
  written (trace w') = written (trace w).
Proof.
  intros H Ex.
  destruct (download_single_day_reaches E U fuel channel date_str w)
    as (w1 & F & _ & S & W & [H1 | H1]); rewrite H1 in H; [discriminate|].
  pose proof (body_effects E U channel date_str w1) as B. rewrite H in B.
  destruct B as (_ & _ & _ & B). destruct (B e eq_refl Ex) as [B1 ->].
  auto.
Qed.

Lemma download_single_day_raises_witness :
  (strptime ascii_only (py "9999-12-31") fmt_Ymd
   = Raised (OverflowError (py "date value out of range")) \/
   exists current_date,
     strptime ascii_only (py "9999-12-31") fmt_Ymd = Returned current_date /\
     add_days current_date 1 = Raised (OverflowError (py "date value out of range"))) /\
  files (snd (download_single_day calm ascii_only 2 (py "foo") (py "9999-12-31")
                last_day_world)) = files last_day_world /\
  sent (trace (snd (download_single_day calm ascii_only 2 (py "foo") (py "9999-12-31")
                      last_day_world))) = sent (trace last_day_world) /\
  written (trace (snd (download_single_day calm ascii_only 2 (py "foo") (py "9999-12-31")
                         last_day_world))) = written (trace last_day_world).
Proof.
  apply (download_single_day_raises calm ascii_only 2 (py "foo") (py "9999-12-31")
           last_day_world _ (OverflowError (py "date value out of range"))).
  - vm_compute. reflexivity.
  - reflexivity.
Defined.

(** ** The batch as a whole *)

(** The effects of the decorated function, from those of its body. *)
Lemma download_single_day_effects E U fuel channel date_str w :
  let '(r, w') := download_single_day E U fuel channel date_str w in
  (forall p, p <> log_filename channel date_str \/ is_Some (files w !! p) ->
             files w' !! p = files w !! p) /\
  (sent (trace w') = sent (trace w) \/
   exists current_date next_date,
     strptime U date_str fmt_Ymd = Returned current_date /\
     add_days current_date 1 = Returned next_date /\
     files w !! log_filename channel date_str = None /\
     sent (trace w') = sent (trace w) ++ [day_request channel current_date next_date]) /\
  (written (trace w') = written (trace w) \/
   written (trace w') = written (trace w) ++ [log_filename channel date_str]).
Proof.
  destruct (download_single_day_reaches E U fuel channel date_str w)
    as (w1 & F & _ & S & W & [-> | ->]).
  - rewrite F. auto.
  - pose proof (body_effects E U channel date_str w1) as B.
    destruct (download_single_day_body E U channel date_str w1) as [r w'].
    rewrite F, S, W in B. destruct B as (B1 & B2 & B3 & _).
    split; [exact B1|split; assumption].
Qed.

(** [dict_set] on a key the dictionary does not have appends the entry. *)
Lemma dict_set_fresh k v d :
  ~ In k (map fst d) -> dict_set k v d = d ++ [(k, v)].
Proof.
  induction d as [|[k' v'] d IH]; intros N; [reflexivity|].
  cbn [dict_set]. rewrite bool_decide_eq_false_2 by (intros ->; apply N; left; reflexivity).
  cbn [app]. f_equal. apply IH. intros H. apply N. right. exact H.
Qed.

Lemma failure_of_key entry f : failure_of entry = Some f -> fst f = fst entry.
Proof.
  unfold failure_of. destruct (snd entry) as [s|e].
  - destruct (contains (py "Error") s); [|discriminate]. intros [= <-]. reflexivity.
  - intros [= <-]. reflexivity.
Qed.

Lemma omap_failure_cons entry l :
  omap failure_of (entry :: l)
  = match failure_of entry with
    | Some f => f :: omap failure_of l
    | None => omap failure_of l
    end.
Proof. reflexivity. Qed.

Lemma omap_failure_keys l k :
  In k (map fst (omap failure_of l)) -> In k (map fst l).
Proof.
  induction l as [|entry l IH]; [auto|].
  rewrite omap_failure_cons.
  destruct (failure_of entry) as [f|] eqn:Hf; cbn [map In].
  - intros [<-|H]; [left; symmetry; eapply failure_of_key, Hf|right; auto].
  - intros H. right. auto.
Qed.

(** The loop over the futures: one entry of [results] for each day in the
    order given, the failures among them in [failed_downloads], no file
    touched but the files of these days, and at most one request a day. *)
Lemma collect_spec E U fuel channel : forall order b w b' w',
  NoDup order ->
  (forall k, In k (map fst (failed_downloads b)) -> ~ In k order) ->
  collect E U fuel channel order b w = (Returned b', w') ->
  exists new,
    results b' = results b ++ new /\ map fst new = order /\
    failed_downloads b' = failed_downloads b ++ omap failure_of new.
Proof.
  induction order as [|date order IH]; intros b w b' w' ND Hk H.
  - injection H as <- <-. exists []. rewrite !app_nil_r. auto.
  - cbn [collect] in H. inversion ND as [|? ? Hnin ND']; subst.
    destruct (download_single_day E U fuel channel date w) as [[s|e|] w1];
      [| |discriminate].
    + apply IH in H; [|exact ND'|].
      * cbn [results failed_downloads] in H. destruct H as (new & Hres & Hfst & Hfd).
        exists ((date, inl s) :: new). rewrite Hres, <- app_assoc.
        split; [reflexivity|]. split; [cbn; now rewrite Hfst|].
        rewrite Hfd, omap_failure_cons.
        change (failure_of (date, inl s))
          with (if contains (py "Error") s then Some (date, s) else None).
        destruct (contains (py "Error") s); [|reflexivity].
        rewrite dict_set_fresh by (intros Hin; apply (Hk date Hin); left; reflexivity).
        rewrite <- app_assoc. reflexivity.
      * cbn [failed_downloads]. intros k Hin Hord.
        destruct (contains (py "Error") s).
        -- rewrite dict_set_fresh in Hin
             by (intros Hin'; apply (Hk date Hin'); left; reflexivity).
           rewrite map_app in Hin. apply in_app_or in Hin as [Hin|[<-|[]]].
           ++ apply (Hk k Hin). right. exact Hord.
           ++ apply Hnin. apply list_elem_of_In. exact Hord.
        -- apply (Hk k Hin). right. exact Hord.
    + destruct (is_Exception e); [|discriminate].
      apply IH in H; [|exact ND'|].
      * cbn [results failed_downloads] in H. destruct H as (new & Hres & Hfst & Hfd).
        exists ((date, inr e) :: new). rewrite Hres, <- app_assoc.
        split; [reflexivity|]. split; [cbn; now rewrite Hfst|].
        rewrite Hfd, omap_failure_cons.
        change (failure_of (date, inr e)) with (Some (date, str_exn e)).
        rewrite dict_set_fresh by (intros Hin; apply (Hk date Hin); left; reflexivity).
        rewrite <- app_assoc. reflexivity.
      * cbn [failed_downloads]. intros k Hin Hord.
        rewrite dict_set_fresh in Hin
          by (intros Hin'; apply (Hk date Hin'); left; reflexivity).
        rewrite map_app in Hin. apply in_app_or in Hin as [Hin|[<-|[]]].
        -- apply (Hk k Hin). right. exact Hord.
        -- apply Hnin. apply list_elem_of_In. exact Hord.
Qed.

Lemma log_filename_not_report channel date_str :
  log_filename channel date_str <> report_filename channel.
Proof. discriminate. Qed.

(** The loop touches no file but those of its days, and none that is
    already there. *)
Lemma collect_frame E U fuel channel p : forall order b w,
  is_Some (files w !! p) \/ Forall (fun d => p <> log_filename channel d) order ->
  files (snd (collect E U fuel channel order b w)) !! p = files w !! p.
Proof.
  induction order as [|date order IH]; intros b w Hp; [reflexivity|].
  cbn [collect].
  pose proof (download_single_day_effects E U fuel channel date w) as D.
  destruct (download_single_day E U fuel channel date w) as [[s|e|] w1];
    destruct D as (D & _).
  - rewrite IH.
    + apply D. destruct Hp as [Hp|Hp]; [right; exact Hp|left].
      inversion Hp; assumption.
    + destruct Hp as [Hp|Hp]; [left|right; inversion Hp; assumption].
      rewrite D by (right; exact Hp). exact Hp.
  - destruct (is_Exception e).
    + rewrite IH.
      * apply D. destruct Hp as [Hp|Hp]; [right; exact Hp|left].
        inversion Hp; assumption.
      * destruct Hp as [Hp|Hp]; [left|right; inversion Hp; assumption].
        rewrite D by (right; exact Hp). exact Hp.
    + cbn. apply D. destruct Hp as [Hp|Hp]; [right; exact Hp|left].
      inversion Hp; assumption.
  - cbn. apply D. destruct Hp as [Hp|Hp]; [right; exact Hp|left].
    inversion Hp; assumption.
Qed.


(** No exception of class [Exception] leaves the loop. *)
Lemma collect_raises E U fuel channel : forall order b w e w',
  collect E U fuel channel order b w = (Raised e, w') -> is_Exception e = false.
Proof.
  induction order as [|date order IH]; intros b w e w' H; [discriminate|].
  cbn [collect] in H.
  destruct (download_single_day E U fuel channel date w) as [[s|e0|] w1];
    [eapply IH, H| |discriminate].
  destruct (is_Exception e0) eqn:Ex; [eapply IH, H|].
  injection H as <- <-. exact Ex.
Qed.

(** How a batch that returns went. *)
Lemma download_logs_parallel_returned E U fuel channel start_date_str end_date_str
  max_workers max_concurrent_requests w0 b w1 :
  download_logs_parallel E U fuel channel start_date_str end_date_str
    max_workers max_concurrent_requests w0 = (Returned b, w1) ->
  exists dates w',
    generate_date_list U fuel start_date_str end_date_str = Returned dates /\
    collect E U fuel channel (as_completed E dates) (mk_batch [] [])
      (set_permits max_concurrent_requests w0) = (Returned b, w') /\
    ((failed_downloads b = [] /\ w1 = w') \/
     (failed_downloads b <> [] /\
      w1 = emit (Wrote (report_filename channel) (report_text (failed_downloads b)))
             (set_files (<[report_filename channel := report_text (failed_downloads b)]>
                           (files w')) w'))).
Proof.
  unfold download_logs_parallel, lift, raise, open_write, mbind, M_bind, mret, M_ret.
  intros H.
  destruct (mkdir_logs E (files w0)); [discriminate|].
  destruct (generate_date_list U fuel start_date_str end_date_str) as [dates| |];
    try discriminate.
  destruct (max_concurrent_requests <? 0); [discriminate|].
  destruct (max_workers <=? 0); [discriminate|].
  destruct (collect E U fuel channel (as_completed E dates) (mk_batch [] [])
              (set_permits max_concurrent_requests w0)) as [[b'| |] w'] eqn:C;
    try discriminate.
  exists dates, w'.
  destruct (failed_downloads b') as [|entry rest] eqn:F.
  - injection H as <- <-. rewrite F. auto.
  - fold (report_text (entry :: rest)) in H.
    destruct (disk_write E _ _ _); try discriminate.
    injection H as <- <-. rewrite F. split; [reflexivity|]. split; [exact C|].
    right. split; [discriminate|reflexivity].
Qed.

(** X11.  When the batch returns and the scheduler hands over every future
    once, [results] has one entry for every day of the range, in the order
    of completion, and [failed_downloads] holds exactly the entries that
    are failures (a result with the word "Error" in it, or an exception),
    in that order, each under its day. *)
Theorem failed_downloads_are_the_failures (E : env) (U : ucd) (fuel : nat)
  (channel start_date_str end_date_str : pystr)
  (max_workers max_concurrent_requests : Z) (w0 w1 : world) (b : batch) :
  (forall l, Permutation (as_completed E l) l) ->
  download_logs_parallel E U fuel channel start_date_str end_date_str
    max_workers max_concurrent_requests w0 = (Returned b, w1) ->
  exists dates,
    generate_date_list U fuel start_date_str end_date_str = Returned dates /\
    map fst (results b) = as_completed E dates /\
    failed_downloads b = omap failure_of (results b).
Proof.
  intros HP H.
  destruct (download_logs_parallel_returned _ _ _ _ _ _ _ _ _ _ _ H)
    as (dates & w' & G & C & _).
  exists dates. split; [exact G|].
  assert (NoDup (as_completed E dates)) as ND.
  { rewrite (HP dates). eapply generate_date_list_NoDup, G. }
  assert (forall k, In k (map fst (failed_downloads (mk_batch [] []))) ->
                    ~ In k (as_completed E dates)) as Hk by (intros k []).
  destruct (collect_spec E U fuel channel _ _ _ _ _ ND Hk C)
    as (new & Hres & Hfst & Hfd).
  cbn in Hres, Hfd. subst new. auto.
Qed.

Lemma failed_downloads_are_the_failures_witness :
  (forall l, Permutation (as_completed one_bad_day l) l) /\
  exists dates,
    generate_date_list ascii_only 8 (py "01/01/2024") (py "03/01/2024") = Returned dates /\
    map fst (results (batch_of_one_bad_day)) = as_completed one_bad_day dates /\
    failed_downloads batch_of_one_bad_day = omap failure_of (results batch_of_one_bad_day).
Proof.
  assert (forall l, Permutation (as_completed one_bad_day l) l) as HP
    by (intros l; reflexivity).
  split; [exact HP|].
  apply (failed_downloads_are_the_failures one_bad_day ascii_only 8 (py "foo")
           (py "01/01/2024") (py "03/01/2024") 10 5 fresh_world
           (snd (download_logs_parallel one_bad_day ascii_only 8 (py "foo")
                   (py "01/01/2024") (py "03/01/2024") 10 5 fresh_world))
           batch_of_one_bad_day HP).
  vm_compute. reflexivity.
Defined.

(** X12.  The failure report follows [failed_downloads] and nothing else:
    when the batch returns with failures, [failed_downloads_<channel>.txt]
    holds one "<day>: <error>" line for each entry, in order; when it
    returns without, the file is left as it was, so a report of an earlier
    run stays on disk. *)
Theorem failure_report_holds_the_failures (E : env) (U : ucd) (fuel : nat)
  (channel start_date_str end_date_str : pystr)
  (max_workers max_concurrent_requests : Z) (w0 w1 : world) (b : batch) :
  download_logs_parallel E U fuel channel start_date_str end_date_str
    max_workers max_concurrent_requests w0 = (Returned b, w1) ->
  (failed_downloads b = [] ->
   files w1 !! report_filename channel = files w0 !! report_filename channel) /\
  (failed_downloads b <> [] ->
   files w1 !! report_filename channel = Some (report_text (failed_downloads b))).
Proof.
  intros H.
  destruct (download_logs_parallel_returned _ _ _ _ _ _ _ _ _ _ _ H)
    as (dates & w' & G & C & [[F ->]|[F ->]]).
  - split; [|contradiction]. intros _.
    pose proof (collect_frame E U fuel channel (report_filename channel)
                  (as_completed E dates) (mk_batch [] [])
                  (set_permits max_concurrent_requests w0)) as Fr.
    rewrite C in Fr. apply Fr. right. apply List.Forall_forall.
    intros d _ Heq. symmetry in Heq. revert Heq. apply log_filename_not_report.
  - split; [contradiction|]. intros _. cbn [files emit set_files].
    apply lookup_insert_eq.
Qed.

Lemma failure_report_holds_the_failures_witness :
  (failed_downloads batch_of_one_bad_day = [] ->
   files (snd (download_logs_parallel one_bad_day ascii_only 8 (py "foo")
                 (py "01/01/2024") (py "03/01/2024") 10 5 fresh_world))
     !! report_filename (py "foo")
   = files fresh_world !! report_filename (py "foo")) /\
  (failed_downloads batch_of_one_bad_day <> [] ->
   files (snd (download_logs_parallel one_bad_day ascii_only 8 (py "foo")
                 (py "01/01/2024") (py "03/01/2024") 10 5 fresh_world))
     !! report_filename (py "foo")
   = Some (report_text (failed_downloads batch_of_one_bad_day))).
Proof.
  apply (failure_report_holds_the_failures one_bad_day ascii_only 8 (py "foo")
           (py "01/01/2024") (py "03/01/2024") 10 5 fresh_world).
  vm_compute. reflexivity.
Defined.

(** X13.  Whatever the outcome of the batch, a file that is on disk when it
    starts is on disk unchanged when it ends, the failure report apart: a
    log downloaded earlier is never written again.  (The file of the
    [logging] module is left out: the model does not follow it.) *)
Theorem batch_keeps_existing_files (E : env) (U : ucd) (fuel : nat)
  (channel start_date_str end_date_str : pystr)
  (max_workers max_concurrent_requests : Z) (w0 : world) (p : pystr) :
  is_Some (files w0 !! p) ->
  p <> report_filename channel ->
  p <> logging_file ->
  files (snd (download_logs_parallel E U fuel channel start_date_str end_date_str
                max_workers max_concurrent_requests w0)) !! p
  = files w0 !! p.
Proof.
  intros Hs Hne _.
  unfold download_logs_parallel, lift, raise, open_write, mbind, M_bind, mret, M_ret.
  destruct (mkdir_logs E (files w0)); [reflexivity|].
  destruct (generate_date_list U fuel start_date_str end_date_str) as [dates| |];
    try reflexivity.
  destruct (max_concurrent_requests <? 0); [reflexivity|].
  destruct (max_workers <=? 0); [reflexivity|].
  pose proof (collect_frame E U fuel channel p (as_completed E dates) (mk_batch [] [])
                (set_permits max_concurrent_requests w0) (or_introl Hs)) as Fr.
  cbn [files set_permits] in Fr.
  destruct (collect E U fuel channel (as_completed E dates) (mk_batch [] [])
              (set_permits max_concurrent_requests w0)) as [[b'| |] w'];
    cbn [snd] in Fr |- *; try exact Fr.
  destruct (failed_downloads b') as [|entry rest]; [exact Fr|].
  destruct (disk_write E _ _ _); cbn [snd files emit set_files]; try exact Fr;
    rewrite lookup_insert_ne by congruence; exact Fr.
Qed.

Lemma batch_keeps_existing_files_witness :
  files (snd (download_logs_parallel calm ascii_only 8 (py "foo")
                (py "01/01/2024") (py "03/01/2024") 10 5 busy_world))
    !! log_filename (py "foo") (py "2024-01-01")
  = files busy_world !! log_filename (py "foo") (py "2024-01-01").
Proof.
  apply (batch_keeps_existing_files calm ascii_only 8 (py "foo")
           (py "01/01/2024") (py "03/01/2024") 10 5 busy_world).
  - vm_compute. eauto.
  - discriminate.
  - discriminate.
Defined.



(** X15.  An exception of class [Exception] leaves the batch only from the
    steps before the first download (the creation of the directory, the
    parsing of the two dates, the arguments of the semaphore and of the
    pool), and then nothing was sent or written, or from the writing of
    the failure report.  No exception of a day's download leaves it. *)
Theorem batch_raises (E : env) (U : ucd) (fuel : nat)
  (channel start_date_str end_date_str : pystr)
  (max_workers max_concurrent_requests : Z) (w0 w1 : world) (e : exn) :
  download_logs_parallel E U fuel channel start_date_str end_date_str
    max_workers max_concurrent_requests w0 = (Raised e, w1) ->
  is_Exception e = true ->
  (files w1 = files w0 /\ trace w1 = trace w0 /\
   (mkdir_logs E (files w0) = Some e \/
    generate_date_list U fuel start_date_str end_date_str = Raised e \/
    (max_concurrent_requests < 0 /\
     e = ValueError (py "semaphore initial value must be >= 0")) \/
    (max_workers <= 0 /\ e = ValueError (py "max_workers must be greater than 0")))) \/
  (exists msg failed fs,
     e = OSError msg /\ failed <> [] /\
     disk_write E fs (report_filename channel) (report_text failed) <> Written).
Proof.
  unfold download_logs_parallel, lift, raise, open_write, mbind, M_bind, mret, M_ret.
  intros H Ex.
  destruct (mkdir_logs E (files w0)) as [e0|] eqn:Mk.
  { injection H as <- <-. left. auto. }
  destruct (generate_date_list U fuel start_date_str end_date_str) as [dates|e0|] eqn:G;
    [|injection H as <- <-; left; auto|discriminate].
  destruct (Z.ltb_spec max_concurrent_requests 0).
  { injection H as <- <-. left. split; [reflexivity|]. split; [reflexivity|].
    right. right. left. split; [assumption|reflexivity]. }
  destruct (Z.leb_spec max_workers 0).
  { injection H as <- <-. left. split; [reflexivity|]. split; [reflexivity|].
    right. right. right. split; [assumption|reflexivity]. }
  destruct (collect E U fuel channel (as_completed E dates) (mk_batch [] [])
              (set_permits max_concurrent_requests w0)) as [[b'|e0|] w'] eqn:C;
    [| |discriminate].
  - destruct (failed_downloads b') as [|entry rest] eqn:F; [discriminate|].
    fold (report_text (entry :: rest)) in H. right.
    destruct (disk_write E (files w') (report_filename channel)
                (report_text (entry :: rest))) as [|msg|msg kept] eqn:D;
      [discriminate| |]; injection H as <- <-;
      exists msg, (entry :: rest), (files w'); rewrite D;
      (split; [reflexivity|]); split; discriminate.
  - injection H as <- <-. apply collect_raises in C. congruence.
Qed.

Lemma batch_raises_witness :
  (files fresh_world = files fresh_world /\ trace fresh_world = trace fresh_world /\
   (mkdir_logs calm (files fresh_world)
    = Some (ValueError (py "time data '01/13/2024' does not match format '%d/%m/%Y'")) \/
    generate_date_list ascii_only 8 bad_start (py "03/01/2024")
    = Raised (ValueError (py "time data '01/13/2024' does not match format '%d/%m/%Y'")) \/
    (5 < 0 /\
     ValueError (py "time data '01/13/2024' does not match format '%d/%m/%Y'")
     = ValueError (py "semaphore initial value must be >= 0")) \/
    (10 <= 0 /\
     ValueError (py "time data '01/13/2024' does not match format '%d/%m/%Y'")
     = ValueError (py "max_workers must be greater than 0")))) \/
  (exists msg failed fs,
     ValueError (py "time data '01/13/2024' does not match format '%d/%m/%Y'")
     = OSError msg /\ failed <> [] /\
     disk_write calm fs (report_filename (py "foo")) (report_text failed) <> Written).
Proof.
  apply (batch_raises calm ascii_only 8 (py "foo") bad_start (py "03/01/2024") 10 5
           fresh_world fresh_world).
  - vm_compute. reflexivity.
  - reflexivity.
Defined.

(** With no permit to take, the body changes nothing: it skips, it raises
    on its first two lines, or it blocks at the semaphore. *)
Lemma body_blocked E U channel date_str w :
  permits w <= 0 ->
  let '(r, w') := download_single_day_body E U channel date_str w in
  w' = w /\
  match r with
  | Returned _ => ~ (day_parses U date_str /\
                     files w !! log_filename channel date_str = None)
  | Raised e => is_Exception e = true /\ ~ day_parses U date_str
  | Diverged => True
  end.
Proof.
  intros Hs. rewrite download_single_day_body_unfold.
  unfold lift, os_path_exists, mbind, M_bind, day_parses.
  destruct (strptime U date_str fmt_Ymd) as [cur|e|] eqn:Hp.
  - destruct (add_days cur 1) as [nxt|e|] eqn:Ha.
    + case_bool_decide as Hex.
      * split; [reflexivity|]. intros [_ Hn]. rewrite Hn in Hex.
        destruct Hex; discriminate.
      * unfold with_semaphore. destruct (Z.leb_spec (permits w) 0); [|lia]. auto.
    + split; [reflexivity|]. split.
      * rewrite (add_days_raises _ _ _ Ha). reflexivity.
      * intros (c & n & [= <-] & Hn). congruence.
    + auto.
  - split; [reflexivity|].
    destruct (strptime_total U date_str fmt_Ymd) as [[t Ht]|[msg Ht]]; [congruence|].
    rewrite Hp in Ht. injection Ht as ->. split; [reflexivity|].
    intros (c & n & Hc & _). discriminate.
  - auto.
Qed.

Lemma body_blocks E U channel date_str w :
  permits w <= 0 -> day_parses U date_str ->
  files w !! log_filename channel date_str = None ->
  fst (download_single_day_body E U channel date_str w) = Diverged.
Proof.
  intros Hs (cur & nxt & Hp & Ha) Hf. rewrite download_single_day_body_unfold.
  unfold lift, os_path_exists, mbind, M_bind. rewrite Hp, Ha.
  rewrite bool_decide_eq_false_2 by (rewrite Hf; intros [? ?]; discriminate).
  unfold with_semaphore. destruct (Z.leb_spec (permits w) 0); [reflexivity|lia].
Qed.

Lemma collect_blocked E U fuel channel : forall order b w,
  1 <= clamped_calls (limiter w) -> permits w <= 0 ->
  (exists d, In d order /\ day_parses U d /\
             files w !! log_filename channel d = None) ->
  fst (collect E U (S (S fuel)) channel order b w) = Diverged.
Proof.
  induction order as [|date order IH]; intros b w HN Hs (d & Hin & Hd & Hf);
    [destruct Hin|].
  cbn [collect].
  pose proof (download_single_day_cases E U fuel channel date w HN) as Cl.
  destruct (download_single_day_runs_body E U fuel channel date w HN)
    as (w1 & F & P & _ & _ & Eq).
  rewrite Eq in Cl |- *.
  pose proof (body_blocked E U channel date w1 ltac:(lia)) as B.
  assert (d = date -> fst (download_single_day_body E U channel date w1) = Diverged) as Hd0.
  { intros ->. apply body_blocks; [lia|exact Hd|rewrite F; exact Hf]. }
  destruct (download_single_day_body E U channel date w1) as [[s|e|] w2];
    destruct B as [-> B]; destruct Cl as (_ & [Cl _] & _).
  - destruct Hin as [<-|Hin]; [specialize (Hd0 eq_refl); discriminate|].
    apply IH; [lia|lia|]. exists d. rewrite F. auto.
  - destruct B as [-> _].
    destruct Hin as [<-|Hin]; [specialize (Hd0 eq_refl); discriminate|].
    apply IH; [lia|lia|]. exists d. rewrite F. auto.
  - reflexivity.
Qed.

(** X16.  With [max_concurrent_requests = 0] the semaphore has no permit to
    give: the call for the first day whose file is missing blocks at
    [with semaphore], and the batch never returns. *)
Theorem no_permit_blocks_the_batch (E : env) (U : ucd) (fuel : nat)
  (channel start_date_str end_date_str : pystr) (max_workers : Z) (w : world)
  (dates : list pystr) (d : pystr) :
  mkdir_logs E (files w) = None ->
  generate_date_list U (S (S fuel)) start_date_str end_date_str = Returned dates ->
  0 < max_workers ->
  1 <= clamped_calls (limiter w) ->
  In d (as_completed E dates) ->
  day_parses U d ->
  files w !! log_filename channel d = None ->
  fst (download_logs_parallel E U (S (S fuel)) channel start_date_str end_date_str
         max_workers 0 w) = Diverged.
Proof.
  intros Mk G HW HN Hin Hd Hf.
  unfold download_logs_parallel, lift, raise, mbind, M_bind, mret, M_ret.
  rewrite Mk, G. cbn [Z.ltb Z.compare].
  destruct (Z.leb_spec max_workers 0); [lia|].
  pose proof (collect_blocked E U fuel channel (as_completed E dates) (mk_batch [] [])
                (set_permits 0 w) HN ltac:(cbn; lia)
                (ex_intro _ d (conj Hin (conj Hd Hf)))) as C.
  destruct (collect E U (S (S fuel)) channel (as_completed E dates) (mk_batch [] [])
              (set_permits 0 w)) as [[b'|e|] w']; cbn in C; try discriminate.
  reflexivity.
Qed.

Lemma no_permit_blocks_the_batch_witness :
  fst (download_logs_parallel calm ascii_only 8 (py "foo")
         (py "01/01/2024") (py "03/01/2024") 10 0 busy_world) = Diverged.
Proof.
  apply (no_permit_blocks_the_batch calm ascii_only 6 (py "foo")
           (py "01/01/2024") (py "03/01/2024") 10 busy_world
           [py "2024-01-01"; py "2024-01-02"; py "2024-01-03"] (py "2024-01-02")).
  - reflexivity.
  - vm_compute. reflexivity.
  - lia.
  - cbn. lia.
  - cbn. auto.
  - exists jan_2_2024, (mk_datetime 2024 1 3 0 0 0). split; vm_compute; reflexivity.
  - vm_compute. reflexivity.
Defined.

(** X17.  A range whose start is after its end downloads nothing and reports
    nothing: the batch returns at once, with no request sent, no file
    written and no failure, and without saying that the range is empty. *)
Theorem reversed_range_downloads_nothing (E : env) (U : ucd) (fuel : nat)
  (channel start_date_str end_date_str : pystr)
  (max_workers max_concurrent_requests : Z) (w : world)
  (start_date end_date : datetime) :
  mkdir_logs E (files w) = None ->
  strptime U start_date_str fmt_dmY = Returned start_date ->
  strptime U end_date_str fmt_dmY = Returned end_date ->
  datetime_gt start_date end_date ->
  0 <= max_concurrent_requests -> 0 < max_workers ->
  as_completed E [] = [] ->
  download_logs_parallel E U (S fuel) channel start_date_str end_date_str
    max_workers max_concurrent_requests w
  = (Returned (mk_batch [] []), set_permits max_concurrent_requests w).
Proof.
  intros Mk Hs He Hgt HC HW Has.
  unfold download_logs_parallel, lift, raise, mbind, M_bind, mret, M_ret.
  rewrite Mk. unfold generate_date_list. rewrite Hs, He. cbn [mbind outcome_bind].
  rewrite (date_loop_past_end fuel start_date end_date [] Hgt).
  destruct (Z.ltb_spec max_concurrent_requests 0); [lia|].
  destruct (Z.leb_spec max_workers 0); [lia|].
  rewrite Has. reflexivity.
Qed.

Lemma reversed_range_downloads_nothing_witness :
  download_logs_parallel calm ascii_only 1 (py "foo") (py "02/01/2024") (py "01/01/2024")
    10 5 fresh_world
  = (Returned (mk_batch [] []), set_permits 5 fresh_world).
Proof.
  apply (reversed_range_downloads_nothing calm ascii_only 0 (py "foo")
           (py "02/01/2024") (py "01/01/2024") 10 5 fresh_world jan_2_2024 jan_1_2024).
  - reflexivity.
  - vm_compute. reflexivity.
  - vm_compute. reflexivity.
  - reflexivity.
  - lia.
  - lia.
  - reflexivity.
Defined.

(** ** The rows of [parse_chat_line] *)

Lemma lstrip_spec U s :
  exists pre, s = pre ++ lstrip U s /\ Forall (fun c => isspace U c = true) pre /\
              forall c, head (lstrip U s) = Some c -> isspace U c = false.
Proof.
  induction s as [|c s (pre & E & F & H)]; cbn [lstrip].
  - exists []. split; [reflexivity|]. split; [constructor|]. discriminate.
  - destruct (isspace U c) eqn:Sp.
    + exists (c :: pre). split; [cbn; congruence|]. split; [constructor; assumption|exact H].
    + exists []. split; [reflexivity|]. split; [constructor|].
      intros c' [= <-]. exact Sp.
Qed.

Lemma last_rev_head (l : pystr) : last (rev l) = head l.
Proof.
  destruct l as [|c l]; [reflexivity|]. cbn [rev head]. apply last_snoc.
Qed.

Lemma head_prefix (a b : pystr) c : head a = Some c -> head (a ++ b) = Some c.
Proof. destruct a; [discriminate|]. auto. Qed.

Lemma rstrip_spec U s :
  exists post, s = rstrip U s ++ post /\ Forall (fun c => isspace U c = true) post /\
               forall c, last (rstrip U s) = Some c -> isspace U c = false.
Proof.
  unfold rstrip. destruct (lstrip_spec U (rev s)) as (pre & E & F & H).
  exists (rev pre). split; [|split].
  - rewrite <- rev_app_distr, <- E. symmetry. apply rev_involutive.
  - apply List.Forall_forall. intros c Hc. apply in_rev in Hc.
    rewrite List.Forall_forall in F. auto.
  - intros c Hc. rewrite last_rev_head in Hc. auto.
Qed.

(** [strip] takes white space off both ends and nothing else. *)
Lemma strip_spec U s :
  exists pre post,
    s = pre ++ strip U s ++ post /\
    Forall (fun c => isspace U c = true) pre /\
    Forall (fun c => isspace U c = true) post /\
    trimmed U (strip U s).
Proof.
  unfold strip. destruct (lstrip_spec U s) as (pre & E & F & H).
  destruct (rstrip_spec U (lstrip U s)) as (post & E' & F' & H').
  exists pre, post. split; [rewrite <- E'; exact E|]. split; [exact F|].
  split; [exact F'|]. split; [|exact H'].
  intros c Hc. apply H. rewrite E'. apply head_prefix. exact Hc.
Qed.

Lemma strip_trimmed U s : trimmed U (strip U s).
Proof. destruct (strip_spec U s) as (? & ? & _ & _ & _ & Tr). exact Tr. Qed.

Lemma strip_Forall U (P : N -> Prop) s : Forall P s -> Forall P (strip U s).
Proof.
  intros F. destruct (strip_spec U s) as (pre & post & E & _).
  rewrite E in F. apply Forall_app in F as [_ F]. apply Forall_app in F as [F _].
  exact F.
Qed.

(** X18.  What every row that [parse_chat_line] returns satisfies: nothing
    was printed; the timestamp is a date and a time that exist; the
    channel is a non-empty run of word characters; the username holds no
    colon and the message no line feed, and neither begins or ends with
    white space. *)
Theorem parse_chat_line_row (U : ucd) (O : text_stream) (line : pystr)
  (row : chat_row) :
  snd (parse_chat_line U O line) = Returned (Some row) ->
  fst (parse_chat_line U O line) = [] /\
  valid_datetime (row_timestamp row) /\
  row_channel row <> [] /\
  Forall (fun c => isword U c = true) (row_channel row) /\
  Forall (fun c => c <> colon) (row_username row) /\
  trimmed U (row_username row) /\
  Forall (fun c => c <> 10%N) (row_message row) /\
  trimmed U (row_message row).
Proof.
  unfold parse_chat_line.
  destruct (timestamp_re line) as [[ts rest]|] eqn:T; [|discriminate].
  destruct (strptime U (strip U ts) fmt_Ymd_HMS) as [t|e|] eqn:P.
  - destruct (message_re U rest) as [[[ch user] msg]|] eqn:Mre; [|discriminate].
    cbn [fst snd]. intros [= <-]. cbn [row_timestamp row_channel row_username row_message].
    apply message_re_inv in Mre.
    destruct Mre as (sp & sp' & tail' & -> & H1 & H2 & H3 & H4 & H5 & H6 & H7 & H8 & H9).
    split; [reflexivity|]. split; [eapply strptime_valid, P|].
    split; [exact H2|]. split; [exact H3|].
    split; [apply strip_Forall; exact H7|].
    split; [apply strip_trimmed|].
    split; [apply strip_Forall; exact H9|].
    apply strip_trimmed.
  - destruct (is_ValueError e); [destruct (print_raises O _)|]; discriminate.
  - discriminate.
Qed.

Lemma parse_chat_line_row_witness :
  fst (parse_chat_line ascii_only utf8 example_line) = [] /\
  valid_datetime (row_timestamp example_row) /\
  row_channel example_row <> [] /\
  Forall (fun c => isword ascii_only c = true) (row_channel example_row) /\
  Forall (fun c => c <> colon) (row_username example_row) /\
  trimmed ascii_only (row_username example_row) /\
  Forall (fun c => c <> 10%N) (row_message example_row) /\
  trimmed ascii_only (row_message example_row).
Proof.
  apply (parse_chat_line_row ascii_only utf8 example_line example_row). reflexivity.
Defined.

(** *** Lines that parse *)

(** The first character of [s], if any, is not in [p]. *)
Lemma run_app_exact p (g s : pystr) :
  Forall (fun c => p c = true) g ->
  (forall c, head s = Some c -> p c = false) ->
  run p (g ++ s) = length g.
Proof.
  intros F H. induction F as [|c g Pc F IH]; cbn [app run length].
  - destruct s as [|c s]; [reflexivity|]. cbn [run]. rewrite (H c eq_refl). reflexivity.
  - rewrite Pc, IH. reflexivity.
Qed.

Lemma greedy_first {R} n lo s (k : pystr -> pystr -> option R) r :
  (lo <= n)%nat -> k (take n s) (drop n s) = Some r -> greedy n lo s k = Some r.
Proof.
  intros L H. assert ((n <? lo)%nat = false) as E by (apply Nat.ltb_ge; lia).
  destruct n as [|n]; cbn [greedy]; rewrite E, H; reflexivity.
Qed.

(** A greedy repetition that can take all of [g] and go on does so. *)
Lemma rep_greedy_exact {R} p lo (g s : pystr) (k : pystr -> pystr -> option R) r :
  Forall (fun c => p c = true) g ->
  (forall c, head s = Some c -> p c = false) ->
  (lo <= length g)%nat ->
  k g s = Some r ->
  rep_greedy p lo (g ++ s) k = Some r.
Proof.
  intros F H L K. unfold rep_greedy. rewrite run_app_exact by assumption.
  apply greedy_first; [exact L|].
  rewrite take_app_length, drop_app_length. exact K.
Qed.

(** A lazy repetition stops at the first place from which the rest of the
    pattern matches. *)
Lemma rep_lazy_skip {R} p (g : pystr) : forall acc s (k : pystr -> pystr -> option R) r,
  Forall (fun c => p c = true) g ->
  (forall g1 c g2, g = g1 ++ c :: g2 -> k (acc ++ g1) (c :: g2 ++ s) = None) ->
  k (acc ++ g) s = Some r ->
  rep_lazy p (g ++ s) acc k = Some r.
Proof.
  induction g as [|c g IH]; intros acc s k r F Hn Hk.
  - rewrite app_nil_r in Hk. cbn [app]. destruct s; cbn [rep_lazy]; rewrite Hk; reflexivity.
  - cbn [app rep_lazy].
    pose proof (Hn [] c g eq_refl) as H0. rewrite app_nil_r in H0. rewrite H0.
    inversion F as [|? ? Pc F']; subst. rewrite Pc.
    apply IH; [exact F'| |].
    + intros g1 c' g2 ->. rewrite <- app_assoc. apply (Hn (c :: g1) c' g2). reflexivity.
    + rewrite <- app_assoc. exact Hk.
Qed.

Lemma Forall_no_newline_dot (s : pystr) :
  Forall (fun c => c <> 10%N) s -> Forall (fun c => dot c = true) s.
Proof.
  intros F. eapply Forall_impl; [exact F|]. cbn beta. intros c Hc. unfold dot.
  destruct (N.eqb_spec c 10); [contradiction|reflexivity].
Qed.

Lemma head_nil_any (p : N -> bool) : forall c, head (@nil N) = Some c -> p c = false.
Proof. discriminate. Qed.

Lemma rep_greedy_to_end {R} p lo (g : pystr) (k : pystr -> pystr -> option R) r :
  Forall (fun c => p c = true) g -> (lo <= length g)%nat ->
  k g [] = Some r -> rep_greedy p lo g k = Some r.
Proof.
  intros F L K. rewrite <- (app_nil_r g) at 1.
  apply rep_greedy_exact; auto using head_nil_any.
Qed.

Lemma length_nonempty {A} (l : list A) : l <> [] -> (1 <= length l)%nat.
Proof. destruct l; [congruence|cbn; lia]. Qed.

(** The first pattern: the text between the bracket and the first closing
    bracket, and the whole rest of the line. *)
Lemma timestamp_re_match (ts rest : pystr) :
  Forall (fun c => c <> rbracket /\ c <> 10%N) ts ->
  rest <> [] -> Forall (fun c => c <> 10%N) rest ->
  timestamp_re (lbracket :: ts ++ rbracket :: rest) = Some (ts, rest).
Proof.
  intros Fts Hne Frest. unfold timestamp_re. cbn [lit]. rewrite N.eqb_refl.
  apply rep_lazy_skip.
  - eapply Forall_impl; [exact Fts|]. cbn beta. intros c [_ Hc]. unfold dot.
    destruct (N.eqb_spec c 10); [contradiction|reflexivity].
  - intros g1 c g2 ->. cbn [app lit].
    apply Forall_app in Fts as [_ Fts]. inversion Fts as [|? ? [Hc _] _]; subst.
    destruct (N.eqb_spec rbracket c); [congruence|reflexivity].
  - cbn [app lit]. rewrite N.eqb_refl.
    apply rep_greedy_to_end;
      [apply Forall_no_newline_dot; exact Frest|apply length_nonempty; exact Hne|].
    reflexivity.
Qed.

(** The second pattern on a text of the shape it describes. *)
Lemma message_re_match U (sp ch sp' user msg : pystr) :
  Forall (fun c => isspace U c = true) sp ->
  ch <> [] -> Forall (fun c => isword U c = true) ch ->
  sp' <> [] -> Forall (fun c => isspace U c = true /\ isword U c = false) sp' ->
  (exists c user', user = c :: user' /\ isspace U c = false) ->
  Forall (fun c => c <> colon) user ->
  msg <> [] -> Forall (fun c => c <> 10%N) msg ->
  message_re U (sp ++ hash :: ch ++ sp' ++ user ++ colon :: msg) = Some (ch, user, msg).
Proof.
  intros Fsp Hch Fch Hsp' Fsp' (u & user' & -> & Hu) Fuser Hmsg Fmsg.
  unfold message_re.
  apply rep_greedy_exact; [exact Fsp|intros c [= <-]; reflexivity|lia|].
  cbn [lit]. rewrite N.eqb_refl.
  apply rep_greedy_exact; [exact Fch| |apply length_nonempty; exact Hch|].
  { destruct sp' as [|s0 sp']; [congruence|]. intros c [= <-].
    inversion Fsp' as [|? ? [_ Hw] _]; subst. exact Hw. }
  apply rep_greedy_exact;
    [eapply Forall_impl; [exact Fsp'|]; cbn beta; tauto
    |intros c [= <-]; exact Hu|apply length_nonempty; exact Hsp'|].
  apply rep_greedy_exact.
  - eapply Forall_impl; [exact Fuser|]. cbn beta. intros c Hc. unfold not_colon.
    destruct (N.eqb_spec c colon); [contradiction|reflexivity].
  - intros c [= <-]. reflexivity.
  - cbn. lia.
  - cbn [lit]. rewrite N.eqb_refl.
    apply rep_greedy_to_end;
      [apply Forall_no_newline_dot; exact Fmsg|apply length_nonempty; exact Hmsg|].
    reflexivity.
Qed.

(** X19.  A line [[<ts>]<sp>#<channel><sp'><user>:<msg>] with no line feed
    in it parses to a row when: [ts] holds no closing bracket and, white
    space at its ends apart, reads as a timestamp; [sp] is white space
    (possibly none); [channel] is a non-empty run of word characters;
    [sp'] is non-empty white space; [user] holds no colon and begins with a
    character that is not white space; [msg] is not empty.  The row has
    the timestamp read, the channel, and the user and the message without
    the white space at their ends.  The message may hold colons: the
    username ends at the first one. *)
Theorem parse_chat_line_shape (U : ucd) (O : text_stream)
  (ts sp channel sp' user msg : pystr) (timestamp : datetime) :
  separated U ->
  Forall (fun c => c <> 10%N) (chat_line ts sp channel sp' user msg) ->
  Forall (fun c => c <> rbracket) ts ->
  strptime U (strip U ts) fmt_Ymd_HMS = Returned timestamp ->
  Forall (fun c => isspace U c = true) sp ->
  channel <> [] -> Forall (fun c => isword U c = true) channel ->
  sp' <> [] -> Forall (fun c => isspace U c = true) sp' ->
  (exists c user', user = c :: user' /\ isspace U c = false) ->
  Forall (fun c => c <> colon) user ->
  msg <> [] ->
  parse_chat_line U O (chat_line ts sp channel sp' user msg)
  = ([], Returned (Some (mk_row timestamp channel (strip U user) (strip U msg)))).
Proof.
  intros Sep Fnl Fts P Fsp Hch Fch Hsp' Fsp' Hu Fuser Hmsg.
  unfold chat_line in *.
  inversion Fnl as [|? ? _ Fnl1]; subst. apply Forall_app in Fnl1 as [Fnl_ts Fnl2].
  inversion Fnl2 as [|? ? _ Fnl3]; subst.
  assert (Forall (fun c => c <> 10%N) msg) as Fmsg.
  { apply Forall_app in Fnl3 as [_ F]. inversion F as [|? ? _ F1]; subst.
    apply Forall_app in F1 as [_ F1]. apply Forall_app in F1 as [_ F1].
    apply Forall_app in F1 as [_ F1]. inversion F1; assumption. }
  unfold parse_chat_line. rewrite timestamp_re_match.
  - rewrite P. rewrite message_re_match; try assumption; [reflexivity|].
    eapply Forall_impl; [exact Fsp'|]. cbn beta. intros c Hc. split; [exact Hc|].
    apply Sep. exact Hc.
  - apply Forall_forall. intros c Hc. rewrite Forall_forall in Fts, Fnl_ts. auto.
  - destruct sp; discriminate.
  - exact Fnl3.
Qed.

Lemma ascii_only_separated : separated ascii_only.
Proof.
  intros c. unfold isspace, isword, in_range, ascii_only; cbn [ucd_space ucd_alnum].
  destruct (N.ltb_spec c 128); [|discriminate].
  repeat match goal with
         | |- context [(?a <=? ?b)%N] => destruct (N.leb_spec a b)
         | |- context [(?a =? ?b)%N] => destruct (N.eqb_spec a b)
         end; cbn; try reflexivity; try discriminate; lia.
Qed.

Lemma parse_chat_line_shape_witness :
  parse_chat_line ascii_only utf8
    (chat_line (py " 2023-5-1  9:05:03 ") (py " ") (py "foo") (py "  ") (py "bar ")
               (py " see: http://x , ok"))
  = ([], Returned (Some (mk_row (mk_datetime 2023 5 1 9 5 3) (py "foo")
                                (strip ascii_only (py "bar "))
                                (strip ascii_only (py " see: http://x , ok"))))).
Proof.
  apply (parse_chat_line_shape ascii_only utf8).
  - exact ascii_only_separated.
  - repeat constructor; discriminate.
  - repeat constructor; discriminate.
  - vm_compute. reflexivity.
  - repeat constructor.
  - discriminate.
  - repeat constructor.
  - discriminate.
  - repeat constructor.
  - exists 98%N, (py "ar "). split; reflexivity.
  - repeat constructor; discriminate.
  - discriminate.
Defined.

(** ** The conversion of the logs *)

Lemma omap_row_cons E U file_path line lines :
  omap (row_of E U file_path) (line :: lines)
  = match row_of E U file_path line with
    | Some r => r :: omap (row_of E U file_path) lines
    | None => omap (row_of E U file_path) lines
    end.
Proof. reflexivity. Qed.

(** *** What is printed *)

Lemma print_out_shown E line s :
  encodes (sys_stdout E) line ->
  print_out E line s
  = (Returned tt,
     mk_conversion (total_lines s) (processed_lines s) (table s) (printed s ++ [line])).
Proof.
  intros H. unfold print_out. rewrite (print_raises_encodes _ _ H). reflexivity.
Qed.

(** A [print] writes its line, or raises and writes nothing. *)
Lemma print_out_cases E line s :
  print_out E line s
  = (Returned tt,
     mk_conversion (total_lines s) (processed_lines s) (table s) (printed s ++ [line])) \/
  (~ encodes (sys_stdout E) line /\
   print_out E line s
   = (Raised (UnicodeEncodeError (encode_error (sys_stdout E) line)), s)).
Proof.
  unfold print_out. destruct (print_raises (sys_stdout E) line) as [e|] eqn:P.
  - apply print_raises_inv in P as [Hn ->]. right. auto.
  - left. reflexivity.
Qed.

Lemma print_all_shown E : forall lines s,
  Forall (encodes (sys_stdout E)) lines ->
  print_all E lines s
  = (Returned tt,
     mk_conversion (total_lines s) (processed_lines s) (table s) (printed s ++ lines)).
Proof.
  induction lines as [|line lines IH]; intros s F.
  - cbn. rewrite app_nil_r. destruct s; reflexivity.
  - inversion F as [|? ? Hl Fl]; subst. cbn [print_all].
    unfold mbind, C_bind. rewrite (print_out_shown E line s Hl).
    rewrite (IH _ Fl). cbn [total_lines processed_lines table printed].
    rewrite <- app_assoc. reflexivity.
Qed.

Lemma uint_digits_ascii u : forallb (fun c => (c <? 128)%N) (uint_digits u) = true.
Proof. induction u; cbn; auto. Qed.

Lemma str_int_ascii n : forallb (fun c => (c <? 128)%N) (str_int n) = true.
Proof. unfold str_int. destruct (Z.to_int n); cbn; apply uint_digits_ascii. Qed.

(** Every terminal can show the summary. *)
Lemma summary_lines_shown E s : Forall (encodes (sys_stdout E)) (summary_lines s).
Proof.
  unfold summary_lines.
  repeat constructor; apply ascii_encodes;
    rewrite ?forallb_app, ?str_int_ascii; reflexivity.
Qed.

Lemma summary_prints E s :
  summary E s
  = (Returned tt,
     mk_conversion (total_lines s) (processed_lines s) (table s)
                   (printed s ++ summary_lines s)).
Proof. unfold summary. apply print_all_shown, summary_lines_shown. Qed.

Lemma interrupt_prints E s :
  print_out E interrupted_message s
  = (Returned tt,
     mk_conversion (total_lines s) (processed_lines s) (table s)
                   (printed s ++ [interrupted_message])).
Proof. apply print_out_shown, ascii_encodes. reflexivity. Qed.

(** *** With an output that never fails *)

(** With an output that takes every row and a terminal that can show the
    lines, the loop over the lines of a file counts every line and writes
    the row of every line that has one. *)
Lemma for_lines_sound E U file_path : forall lines s,
  (forall t op, sink_fault E t op = None) ->
  Forall (encodes (sys_stdout E)) lines ->
  exists s',
    for_lines E U file_path lines s = (Returned tt, s') /\
    total_lines s' = total_lines s + Z.of_nat (length lines) /\
    processed_lines s'
    = processed_lines s + Z.of_nat (length (omap (row_of E U file_path) lines)) /\
    table s' = table s ++ omap (row_of E U file_path) lines.
Proof.
  induction lines as [|line lines IH]; intros s Hs Hl.
  - exists s. cbn. rewrite app_nil_r. repeat split; lia.
  - inversion Hl as [|? ? Hline Hlines]; subst.
    assert (forall b s0, (if b : bool then flush E else mret tt) s0 = (Returned tt, s0))
      as Hfl.
    { intros b s0. destruct b; [|reflexivity]. unfold flush. rewrite Hs. reflexivity. }
    cbn [for_lines]. unfold mbind at 1, C_bind at 1, count_total. cbn beta iota.
    rewrite omap_row_cons.
    pose proof (strip_keeps U _ _ Hline) as Hstrip.
    destruct (strip U line) as [|c l] eqn:St.
    + assert (row_of E U file_path line = None) as R
        by (unfold row_of; rewrite St; reflexivity).
      rewrite R.
      destruct (IH (mk_conversion (total_lines s + 1) (processed_lines s) (table s)
                      (printed s)) Hs Hlines) as (s' & H & Ht & Hp & Hr).
      exists s'. cbn in Ht, Hp, Hr. repeat split; try assumption.
      rewrite Ht. cbn [length]. lia.
    + unfold mbind, C_bind, call_parse_chat_line, get_processed. cbn beta iota.
      destruct (parse_chat_line_returns U (sys_stdout E) (c :: l) Hstrip) as [o Ho].
      assert (row_of E U file_path line
              = match o with Some row => Some (row_fields row file_path) | None => None end)
        as R by (unfold row_of; rewrite St, Ho; reflexivity).
      rewrite R, Ho.
      destruct o as [row|].
      * unfold count_processed, writerow. cbn [table total_lines processed_lines printed].
        rewrite Hs. cbn [table total_lines processed_lines printed].
        rewrite Hfl.
        match goal with
        | |- context [for_lines E U file_path lines ?s0] =>
            destruct (IH s0 Hs Hlines) as (s' & H & Ht & Hp & Hr)
        end.
        exists s'. cbn in Ht, Hp, Hr. split; [exact H|].
        rewrite Ht, Hp, Hr. cbn [length]. rewrite <- app_assoc.
        repeat split; try lia.
      * unfold mret at 1, C_ret at 1. cbn [table total_lines processed_lines printed].
        rewrite Hfl.
        match goal with
        | |- context [for_lines E U file_path lines ?s0] =>
            destruct (IH s0 Hs Hlines) as (s' & H & Ht & Hp & Hr)
        end.
        exists s'. cbn in Ht, Hp, Hr. split; [exact H|].
        rewrite Ht, Hp, Hr. cbn [length]. repeat split; try lia.
Qed.

Lemma C_bind_eq {A B} (m : C A) (f : A -> C B) s :
  (m ≫= f) s
  = match m s with
    | (Returned a, s') => f a s'
    | (Raised e, s') => (Raised e, s')
    | (Diverged, s') => (Diverged, s')
    end.
Proof. reflexivity. Qed.

Lemma converted_nil E U s : converted E U s [] s.
Proof.
  unfold converted, lines_from, rows_from. cbn. rewrite app_nil_r.
  split; [lia|split; [lia|reflexivity]].
Qed.

Lemma converted_app E U s d1 s1 d2 s2 :
  converted E U s d1 s1 -> converted E U s1 d2 s2 -> converted E U s (d1 ++ d2) s2.
Proof.
  unfold converted, lines_from, rows_from. intros (T1 & P1 & R1) (T2 & P2 & R2).
  rewrite !map_app, !concat_app, !length_app, T2, P2, R2, T1, P1, R1, <- app_assoc.
  split; [lia|split; [lia|reflexivity]].
Qed.

Lemma not_Exception e : is_Exception e = false -> e = KeyboardInterrupt.
Proof. destruct e; try discriminate. reflexivity. Qed.

(** One file, with an output that takes every row and a terminal that can
    show the file: its lines are counted and its rows written; the call
    returns, unless the reading was cut short by Ctrl-C. *)
Lemma process_file_sound E U root file s :
  (forall t op, sink_fault E t op = None) ->
  file_shown E root file ->
  exists s',
    converted E U s [path_join E root file] s' /\
    ((process_file E U root file s = (Returned tt, s') /\
      ~ interrupted E (path_join E root file)) \/
     (process_file E U root file s = (Raised KeyboardInterrupt, s') /\
      interrupted E (path_join E root file))).
Proof.
  intros Hs (Hname & Hpath & Hlines & Herr). unfold process_file, interrupted.
  rewrite C_bind_eq.
  rewrite print_out_shown
    by (apply encodes_app; [apply ascii_encodes; reflexivity|exact Hpath]).
  unfold try_except_C. rewrite C_bind_eq.
  match goal with
  | |- context [for_lines E U ?p ?l ?s0] =>
      destruct (for_lines_sound E U p l s0 Hs Hlines) as (s1 & -> & Ht & Hp & Hr)
  end.
  cbn [total_lines processed_lines table] in Ht, Hp, Hr.
  assert (forall pr, converted E U s [path_join E root file]
                       (mk_conversion (total_lines s1) (processed_lines s1) (table s1) pr))
    as Hc.
  { intros pr. unfold converted, lines_from, rows_from, rows_of. cbn.
    rewrite !app_nil_r. auto. }
  destruct (snd (read_lines E (path_join E root file))) as [e|] eqn:Rd; cbn [fail_if].
  - unfold raise_C. destruct (is_Exception e) eqn:Ex.
    + rewrite print_out_shown.
      * eexists. split; [apply Hc|]. left. split; [reflexivity|].
        intros [= ->]. discriminate.
      * apply encodes_app; [apply ascii_encodes; reflexivity|].
        apply encodes_app; [exact Hname|].
        apply encodes_app; [apply ascii_encodes; reflexivity|].
        apply Herr. reflexivity.
    + apply not_Exception in Ex. subst e. exists s1.
      split; [destruct s1; apply Hc|]. right. auto.
  - exists s1. split; [destruct s1; apply Hc|]. left. split; [reflexivity|discriminate].
Qed.

Lemma for_files_sound E U root : forall names s,
  (forall t op, sink_fault E t op = None) ->
  files_shown E root names ->
  exists done rest s',
    map (path_join E root) (List.filter (fun file => endswith file txt) names)
    = done ++ rest /\
    converted E U s done s' /\
    ((for_files E U root names s = (Returned tt, s') /\ rest = [] /\
      Forall (fun p => ~ interrupted E p) done) \/
     (for_files E U root names s = (Raised KeyboardInterrupt, s') /\
      exists d p, done = d ++ [p] /\ Forall (fun p => ~ interrupted E p) d /\
                  interrupted E p)).
Proof.
  induction names as [|file names IH]; intros s Hs Hsh.
  - exists [], [], s. split; [reflexivity|]. split; [apply converted_nil|]. left. auto.
  - inversion Hsh as [|? ? Hfile Hnames]; subst.
    cbn [for_files List.filter]. unfold mbind, C_bind.
    destruct (endswith file txt) eqn:Tx.
    + destruct (process_file_sound E U root file s Hs (Hfile eq_refl))
        as (s1 & Hc & [[-> Hn] | [-> Hi]]).
      * destruct (IH s1 Hs Hnames) as (done & rest & s' & Hd & Hc' & Hr).
        exists (path_join E root file :: done), rest, s'.
        split; [cbn [map app]; rewrite Hd; reflexivity|].
        split; [apply (converted_app _ _ _ [_] _ _ _ Hc Hc')|].
        destruct Hr as [(-> & -> & F)|[-> (d & p & -> & F & Hp)]]; [left; auto|right].
        split; [reflexivity|]. exists (path_join E root file :: d), p. auto.
      * exists [path_join E root file],
          (map (path_join E root) (List.filter (fun f => endswith f txt) names)), s1.
        split; [reflexivity|]. split; [exact Hc|]. right.
        split; [reflexivity|]. exists [], (path_join E root file). auto.
    + unfold mret at 1, C_ret at 1. apply IH; assumption.
Qed.

Lemma for_walk_sound E U : forall dirs s,
  (forall t op, sink_fault E t op = None) ->
  Forall (fun d => files_shown E (fst d) (snd d)) dirs ->
  exists done rest s',
    flat_map (fun d => map (path_join E (fst d))
                           (List.filter (fun file => endswith file txt) (snd d))) dirs
    = done ++ rest /\
    converted E U s done s' /\
    ((for_walk E U dirs s = (Returned tt, s') /\ rest = [] /\
      Forall (fun p => ~ interrupted E p) done) \/
     (for_walk E U dirs s = (Raised KeyboardInterrupt, s') /\
      exists d p, done = d ++ [p] /\ Forall (fun p => ~ interrupted E p) d /\
                  interrupted E p)).
Proof.
  induction dirs as [|[root names] dirs IH]; intros s Hs Hsh.
  - exists [], [], s. split; [reflexivity|]. split; [apply converted_nil|]. left. auto.
  - inversion Hsh as [|? ? Hdir Hdirs]; subst. cbn [fst snd] in Hdir.
    cbn [for_walk flat_map fst snd]. unfold mbind, C_bind.
    destruct (for_files_sound E U root names s Hs Hdir)
      as (d1 & r1 & s1 & Hd1 & Hc1 & [(-> & -> & F1)|[-> Hi]]).
    + rewrite app_nil_r in Hd1.
      destruct (IH s1 Hs Hdirs) as (d2 & r2 & s' & Hd2 & Hc2 & Hr).
      exists (d1 ++ d2), r2, s'. split; [rewrite Hd1, Hd2, app_assoc; reflexivity|].
      split; [eapply converted_app; eassumption|].
      destruct Hr as [(-> & -> & F)|[-> (d & p & -> & F & Hp)]].
      * left. split; [reflexivity|]. split; [reflexivity|]. apply Forall_app. auto.
      * right. split; [reflexivity|]. exists (d1 ++ d), p.
        split; [apply app_assoc|]. split; [apply Forall_app; auto|exact Hp].
    + eexists d1, _, s1. split; [rewrite Hd1, <- app_assoc; reflexivity|].
      split; [exact Hc1|]. right. auto.
Qed.

(** The whole conversion with an output that never fails and a terminal
    that can show the logs. *)
Lemma process_log_files_sound E U logs_directory :
  sound_output E ->
  logs_shown E logs_directory ->
  exists done rest s,
    txt_paths E logs_directory = done ++ rest /\
    process_log_files E U logs_directory = (Returned output_file, s) /\
    total_lines s = Z.of_nat (length (lines_from E done)) /\
    processed_lines s = Z.of_nat (length (rows_from E U done)) /\
    table s = csv_header :: rows_from E U done /\
    (exists before, printed s = before ++ summary_lines s) /\
    ((rest = [] /\ Forall (fun p => ~ interrupted E p) done) \/
     (In interrupted_message (printed s) /\
      exists d p, done = d ++ [p] /\ Forall (fun p => ~ interrupted E p) d /\
                  interrupted E p)).
Proof.
  intros (Mk & Op & Hs) Hsh. unfold process_log_files.
  rewrite C_bind_eq. rewrite Mk. cbn [fail_if]. unfold mret at 1, C_ret at 1.
  rewrite C_bind_eq. unfold try_finally, try_except_C, with_output. rewrite Op.
  rewrite C_bind_eq. unfold writerow. rewrite Hs.
  cbn [total_lines processed_lines table printed app].
  destruct (for_walk_sound E U (os_walk E logs_directory)
              (mk_conversion 0 0 [csv_header] []) Hs Hsh)
    as (done & rest & s1 & Hd & (Ht & Hp & Hr) & H).
  cbn [total_lines processed_lines table] in Ht, Hp, Hr.
  exists done, rest.
  destruct H as [(-> & -> & F)|[-> Hi]]; rewrite Hs.
  - rewrite summary_prints. eexists. split; [exact Hd|]. unfold mret, C_ret.
    split; [reflexivity|]. cbn [total_lines processed_lines table printed].
    split; [lia|]. split; [lia|]. split; [exact Hr|].
    split; [eexists; reflexivity|]. left. auto.
  - unfold on_interrupt. rewrite interrupt_prints, summary_prints.
    eexists. split; [exact Hd|]. unfold mret, C_ret.
    cbn [total_lines processed_lines table printed].
    split; [reflexivity|]. cbn [total_lines processed_lines table printed].
    split; [lia|]. split; [lia|]. split; [exact Hr|].
    split; [eexists; reflexivity|]. right. split; [|exact Hi].
    apply in_or_app. left. apply in_or_app. right. left. reflexivity.
Qed.

(** X20.  With an output that never fails, a terminal that can show the
    names and the lines of the logs, and no Ctrl-C, the conversion
    returns the path of the table, and the table is the header followed,
    for every file whose name ends in [.txt], in the order of the walk, by
    the rows of the lines read from it that parse, each with the path of
    its file; other files add nothing, and a file whose reading raises an
    exception adds the rows of the lines read before it.  The counters are
    the number of lines read and the number of rows written. *)
Theorem process_log_files_table (E : logs_env) (U : ucd) (logs_directory : pystr) :
  sound_output E ->
  logs_shown E logs_directory ->
  (forall p, ~ interrupted E p) ->
  exists s,
    process_log_files E U logs_directory = (Returned output_file, s) /\
    table s = csv_header :: rows_from E U (txt_paths E logs_directory) /\
    total_lines s = Z.of_nat (length (lines_from E (txt_paths E logs_directory))) /\
    processed_lines s = Z.of_nat (length (rows_from E U (txt_paths E logs_directory))).
Proof.
  intros Hs Hsh Hn.
  destruct (process_log_files_sound E U logs_directory Hs Hsh)
    as (done & rest & s & Hd & H & Ht & Hp & Hr & _ & Hc).
  exists s. destruct Hc as [[-> _]|(_ & d & p & _ & _ & Hi)].
  - rewrite app_nil_r in Hd. rewrite Hd. auto.
  - destruct (Hn p Hi).
Qed.

Lemma demo_logs_sound b_ends : sound_output (demo_logs b_ends).
Proof. repeat split. Qed.

(** The terminal in UTF-8 can show the logs of the examples. *)
Lemma demo_logs_shown b_ends :
  (forall e, b_ends = Some e -> encodes utf8 (str_exn e)) ->
  logs_shown (demo_logs b_ends) (py "logs").
Proof.
  intros Hb. unfold logs_shown, files_shown, file_shown, demo_logs.
  cbn [os_walk path_join read_lines sys_stdout fst snd].
  repeat constructor; try discriminate;
    try (apply ascii_encodes; reflexivity);
    try (intros e He; vm_compute in He; try discriminate He).
  - apply Hb. vm_compute in He. exact He.
  - injection He as <-. apply ascii_encodes. reflexivity.
Qed.

Lemma process_log_files_table_witness :
  sound_output (demo_logs (Some undecodable)) /\
  logs_shown (demo_logs (Some undecodable)) (py "logs") /\
  (forall p, ~ interrupted (demo_logs (Some undecodable)) p) /\
  exists s,
    process_log_files (demo_logs (Some undecodable)) ascii_only (py "logs")
    = (Returned output_file, s) /\
    table s = csv_header
              :: rows_from (demo_logs (Some undecodable)) ascii_only
                   (txt_paths (demo_logs (Some undecodable)) (py "logs")) /\
    total_lines s
    = Z.of_nat (length (lines_from (demo_logs (Some undecodable))
                          (txt_paths (demo_logs (Some undecodable)) (py "logs")))) /\
    processed_lines s
    = Z.of_nat (length (rows_from (demo_logs (Some undecodable)) ascii_only
                          (txt_paths (demo_logs (Some undecodable)) (py "logs")))).
Proof.
  assert (forall p, ~ interrupted (demo_logs (Some undecodable)) p) as Hn.
  { intros p. unfold interrupted, demo_logs, demo_read. cbn [read_lines].
    repeat case_bool_decide; discriminate. }
  assert (logs_shown (demo_logs (Some undecodable)) (py "logs")) as Hsh.
  { apply demo_logs_shown. intros e [= <-]. apply ascii_encodes. reflexivity. }
  split; [apply demo_logs_sound|]. split; [exact Hsh|]. split; [exact Hn|].
  apply (process_log_files_table (demo_logs (Some undecodable)) ascii_only (py "logs")
           (demo_logs_sound _) Hsh Hn).
Defined.

Lemma first_such {A} (P : A -> Prop) : forall (a a' : list A) x x' b b',
  a ++ x :: b = a' ++ x' :: b' ->
  Forall (fun y => ~ P y) a -> P x -> Forall (fun y => ~ P y) a' -> P x' ->
  a = a' /\ x = x'.
Proof.
  induction a as [|y a IH]; intros [|y' a'] x x' b b' H Fa Px Fa' Px'.
  - injection H as -> _. auto.
  - injection H as -> _. inversion Fa'; subst. contradiction.
  - injection H as -> _. inversion Fa; subst. contradiction.
  - injection H as -> H. inversion Fa; inversion Fa'; subst.
    destruct (IH a' x x' b b' H) as [-> ->]; auto.
Qed.

(** X21.  Ctrl-C while a file is read does not lose the work done: with an
    output that never fails and a terminal that can show the names and the
    lines of the logs, the conversion returns the path of the table as if
    it had finished; the table holds the header and the rows of the files
    read so far, the lines read from the interrupted file included; the
    message of the interruption and then the summary are printed. *)
Theorem process_log_files_interrupted (E : logs_env) (U : ucd)
  (logs_directory : pystr) (before after : list pystr) (p : pystr) :
  sound_output E ->
  logs_shown E logs_directory ->
  txt_paths E logs_directory = before ++ p :: after ->
  Forall (fun q => ~ interrupted E q) before ->
  interrupted E p ->
  exists s,
    process_log_files E U logs_directory = (Returned output_file, s) /\
    table s = csv_header :: rows_from E U (before ++ [p]) /\
    total_lines s = Z.of_nat (length (lines_from E (before ++ [p]))) /\
    In interrupted_message (printed s) /\
    exists lines, printed s = lines ++ summary_lines s.
Proof.
  intros Hs Hsh Hd F Hi.
  destruct (process_log_files_sound E U logs_directory Hs Hsh)
    as (done & rest & s & Hd' & H & Ht & Hp & Hr & Hsum & Hc).
  exists s. rewrite Hd in Hd'.
  destruct Hc as [[-> Fd]|(Hin & d & q & -> & Fd & Hq)].
  - rewrite app_nil_r in Hd'. subst done.
    apply Forall_app in Fd as [_ Fd]. inversion Fd; subst. contradiction.
  - rewrite <- app_assoc in Hd'. cbn [app] in Hd'.
    destruct (first_such (interrupted E) _ _ _ _ _ _ Hd' F Hi Fd Hq) as [<- <-].
    auto.
Qed.

Lemma process_log_files_interrupted_witness :
  exists s,
    process_log_files (demo_logs (Some KeyboardInterrupt)) ascii_only (py "logs")
    = (Returned output_file, s) /\
    table s = csv_header
              :: rows_from (demo_logs (Some KeyboardInterrupt)) ascii_only
                   ([py "logs/a.txt"] ++ [py "logs/sub/b.txt"]) /\
    total_lines s
    = Z.of_nat (length (lines_from (demo_logs (Some KeyboardInterrupt))
                          ([py "logs/a.txt"] ++ [py "logs/sub/b.txt"]))) /\
    In interrupted_message (printed s) /\
    exists lines, printed s = lines ++ summary_lines s.
Proof.
  apply (process_log_files_interrupted (demo_logs (Some KeyboardInterrupt)) ascii_only
           (py "logs") [py "logs/a.txt"] [py "logs/sub/c.txt"] (py "logs/sub/b.txt")).
  - apply demo_logs_sound.
  - apply demo_logs_shown. intros e [= <-]. constructor.
  - reflexivity.
  - repeat constructor. intros H. vm_compute in H. discriminate.
  - reflexivity.
Defined.

(** *** Whatever the output does *)

(** A step that keeps the counters and the table, or a loop of such steps,
    keeps their agreement. *)
Lemma for_lines_any E U file_path : forall lines s,
  counts_ok s ->
  counts_ok (snd (for_lines E U file_path lines s)) /\
  fst (for_lines E U file_path lines s) <> Diverged.
Proof.
  unfold counts_ok. induction lines as [|line lines IH]; intros s Hs.
  - cbn. split; [exact Hs|discriminate].
  - cbn [for_lines]. unfold mbind at 1, C_bind at 1, count_total. cbn beta iota.
    destruct (strip U line) as [|c l].
    + apply IH. cbn. lia.
    + unfold mbind, C_bind, call_parse_chat_line, get_processed. cbn beta iota.
      pose proof (parse_chat_line_comes_back U (sys_stdout E) (c :: l)) as Hcb.
      destruct (snd (parse_chat_line U (sys_stdout E) (c :: l))) as [o|e|];
        [|cbn; split; [lia|discriminate]|congruence].
      destruct o as [row|].
      * unfold count_processed, writerow, flush, mret, C_ret.
        cbn [table total_lines processed_lines printed].
        destruct (sink_fault E (table s) _) as [e|];
          [cbn; split; [lia|discriminate]|].
        cbn [table total_lines processed_lines printed].
        destruct ((processed_lines s + 1) mod 10000 =? 0).
        -- destruct (sink_fault E _ SinkFlush) as [e|].
           ++ cbn. rewrite length_app. cbn. split; [lia|discriminate].
           ++ apply IH. cbn. rewrite length_app. cbn. lia.
        -- apply IH. cbn. rewrite length_app. cbn. lia.
      * unfold flush, mret, C_ret.
        cbn [table total_lines processed_lines printed].
        destruct (processed_lines s mod 10000 =? 0).
        -- destruct (sink_fault E _ SinkFlush) as [e|].
           ++ cbn. split; [lia|discriminate].
           ++ apply IH. cbn. lia.
        -- apply IH. cbn. lia.
Qed.

(** One file: the only exceptions that leave it are Ctrl-C and what
    [print] raises for one of its two lines. *)
Lemma process_file_any E U root file s :
  counts_ok s ->
  counts_ok (snd (process_file E U root file s)) /\
  fst (process_file E U root file s) <> Diverged /\
  forall e, fst (process_file E U root file s) = Raised e ->
            is_Exception e = false \/ print_fails E root file e.
Proof.
  intros Hs. unfold process_file. rewrite C_bind_eq.
  destruct (print_out_cases E (py "Processing " ++ path_join E root file) s)
    as [->|[Hn ->]].
  2:{ cbn [fst snd]. split; [exact Hs|]. split; [discriminate|].
      intros e [= <-]. right. left. split; [exact Hn|reflexivity]. }
  assert (forall e0 s1, counts_ok s1 -> is_Exception e0 = true ->
            let r := print_out E (py "Error processing " ++ file ++ py ": " ++ str_exn e0)
                       s1 in
            counts_ok (snd r) /\ fst r <> Diverged /\
            forall e, fst r = Raised e ->
                      is_Exception e = false \/ print_fails E root file e) as Handler.
  { intros e0 s1 H1 Ex. cbn zeta.
    destruct (print_out_cases E (py "Error processing " ++ file ++ py ": " ++ str_exn e0)
                s1) as [->|[Hn ->]]; cbn [fst snd].
    - split; [exact H1|]. split; discriminate.
    - split; [exact H1|]. split; [discriminate|].
      intros e [= <-]. right. right. exists e0. split; [exact Ex|].
      split; [exact Hn|reflexivity]. }
  unfold try_except_C. rewrite C_bind_eq.
  match goal with
  | |- context [for_lines E U ?p ?l ?s0] =>
      pose proof (for_lines_any E U p l s0 Hs) as [Hc Hd];
      destruct (for_lines E U p l s0) as [[[]|e|] s1]
  end; cbn [fst snd] in Hc, Hd; [| |congruence].
  - destruct (snd (read_lines E (path_join E root file))) as [e|]; cbn [fail_if].
    + unfold raise_C. destruct (is_Exception e) eqn:Ex.
      * apply Handler; assumption.
      * cbn. split; [exact Hc|]. split; [discriminate|]. intros ? [= <-]. left. exact Ex.
    + cbn. split; [exact Hc|]. split; discriminate.
  - destruct (is_Exception e) eqn:Ex.
    + apply Handler; assumption.
    + cbn. split; [exact Hc|]. split; [discriminate|]. intros ? [= <-]. left. exact Ex.
Qed.

Lemma for_files_any E U root : forall names s,
  counts_ok s ->
  counts_ok (snd (for_files E U root names s)) /\
  fst (for_files E U root names s) <> Diverged /\
  forall e, fst (for_files E U root names s) = Raised e ->
            is_Exception e = false \/
            exists file, In file names /\ endswith file txt = true /\
                         print_fails E root file e.
Proof.
  induction names as [|file names IH]; intros s Hs.
  - cbn. split; [exact Hs|]. split; discriminate.
  - assert (forall s1, counts_ok s1 ->
              counts_ok (snd (for_files E U root names s1)) /\
              fst (for_files E U root names s1) <> Diverged /\
              forall e, fst (for_files E U root names s1) = Raised e ->
                        is_Exception e = false \/
                        exists f, In f (file :: names) /\ endswith f txt = true /\
                                  print_fails E root f e) as Next.
    { intros s1 H1. destruct (IH s1 H1) as (Hc & Hd & He).
      split; [exact Hc|]. split; [exact Hd|].
      intros e H. destruct (He e H) as [Hk|(f & Hin & Ht & Hf)]; [left; exact Hk|].
      right. exists f. split; [right; exact Hin|auto]. }
    cbn [for_files]. unfold mbind, C_bind. destruct (endswith file txt) eqn:Tx.
    + pose proof (process_file_any E U root file s Hs) as (Hc & Hd & He).
      destruct (process_file E U root file s) as [[[]|e|] s1]; cbn [fst snd] in *.
      * apply Next. exact Hc.
      * split; [exact Hc|]. split; [discriminate|]. intros ? [= <-].
        destruct (He e eq_refl) as [Hk|Hf]; [left; exact Hk|].
        right. exists file. split; [left; reflexivity|auto].
      * congruence.
    + unfold mret at 1, C_ret at 1. apply Next. exact Hs.
Qed.

Lemma for_walk_any E U : forall dirs s,
  counts_ok s ->
  counts_ok (snd (for_walk E U dirs s)) /\
  fst (for_walk E U dirs s) <> Diverged /\
  forall e, fst (for_walk E U dirs s) = Raised e ->
            is_Exception e = false \/
            exists root names file,
              In (root, names) dirs /\ In file names /\ endswith file txt = true /\
              print_fails E root file e.
Proof.
  induction dirs as [|[root names] dirs IH]; intros s Hs.
  - cbn. split; [exact Hs|]. split; discriminate.
  - cbn [for_walk]. unfold mbind, C_bind.
    pose proof (for_files_any E U root names s Hs) as (Hc & Hd & He).
    destruct (for_files E U root names s) as [[[]|e|] s1]; cbn [fst snd] in *.
    + destruct (IH s1 Hc) as (Hc' & Hd' & He').
      split; [exact Hc'|]. split; [exact Hd'|].
      intros e H. destruct (He' e H) as [Hk|(r & n & f & Hin & Hrest)];
        [left; exact Hk|].
      right. exists r, n, f. split; [right; exact Hin|exact Hrest].
    + split; [exact Hc|]. split; [discriminate|]. intros ? [= <-].
      destruct (He e eq_refl) as [Hk|(f & Hin & Hrest)]; [left; exact Hk|].
      right. exists root, names, f. split; [left; reflexivity|auto].
    + congruence.
Qed.

(** The body of the [with] statement. *)
Lemma conversion_body_any E U dirs :
  let r := (_ ← writerow E csv_header; for_walk E U dirs) (mk_conversion 0 0 [] []) in
  counts_ok (snd r) /\ fst r <> Diverged /\
  forall e, fst r = Raised e ->
            sink_fault E [] (SinkRow csv_header) = Some e \/ is_Exception e = false \/
            exists root names file,
              In (root, names) dirs /\ In file names /\ endswith file txt = true /\
              print_fails E root file e.
Proof.
  cbn zeta. unfold mbind, C_bind, writerow. cbn [table total_lines processed_lines printed].
  destruct (sink_fault E [] (SinkRow csv_header)) as [e|].
  - cbn. unfold counts_ok. cbn. split; [lia|]. split; [discriminate|].
    intros ? [= <-]. auto.
  - assert (counts_ok (mk_conversion 0 0 ([] ++ [csv_header]) [])) as H0
      by (unfold counts_ok; cbn; lia).
    destruct (for_walk_any E U dirs _ H0) as (Hc & Hd & He).
    split; [exact Hc|]. split; [exact Hd|]. intros e H. right. apply He. exact H.
Qed.

Lemma with_output_any E (body : C unit) s :
  counts_ok s -> counts_ok (snd (body s)) -> fst (body s) <> Diverged ->
  counts_ok (snd (with_output E body s)) /\ fst (with_output E body s) <> Diverged.
Proof.
  intros H0 Hc Hd. unfold with_output.
  destruct (open_output E) as [e|]; [cbn; split; [exact H0|discriminate]|].
  destruct (body s) as [[[]|e|] s1]; cbn [fst snd] in Hc, Hd; [| |congruence];
    destruct (sink_fault E (table s1) SinkClose) as [e'|]; cbn;
    (split; [exact Hc|discriminate]).
Qed.

(** The [except] and [finally] clauses keep the counters and the table,
    and the summary is the last thing printed. *)
Lemma finish_any E (body : C unit) s :
  counts_ok (snd (body s)) -> fst (body s) <> Diverged ->
  let s' := snd ((_ ← try_finally (try_except_C body (on_interrupt E)) (summary E);
                  mret output_file) s) in
  counts_ok s' /\ exists lines, printed s' = lines ++ summary_lines s'.
Proof.
  intros Hc Hd. cbn zeta. rewrite C_bind_eq. unfold try_finally, try_except_C.
  destruct (body s) as [[[]|e|] s1]; cbn [fst snd] in Hc, Hd; [| |congruence].
  - rewrite summary_prints. unfold mret, C_ret. cbn. split; [exact Hc|].
    eexists. reflexivity.
  - destruct e; unfold on_interrupt, raise_C;
      rewrite ?interrupt_prints, summary_prints; unfold mret, C_ret; cbn;
      (split; [exact Hc|]); eexists; reflexivity.
Qed.

(** X22.  However the conversion ends, and whatever fails on the way, its
    counters and its table agree: no more lines are counted as processed
    than were read, and the table never has more rows, the header apart,
    than lines counted as processed.  Once the output directory exists, the
    last four lines printed are the summary, with the two counters as they
    are at the end. *)
Theorem process_log_files_summary (E : logs_env) (U : ucd) (logs_directory : pystr) :
  let s := snd (process_log_files E U logs_directory) in
  0 <= processed_lines s <= total_lines s /\
  Z.of_nat (length (table s)) <= processed_lines s + 1 /\
  (mkdir_processed E = None -> exists lines, printed s = lines ++ summary_lines s).
Proof.
  cbn zeta. unfold process_log_files. rewrite C_bind_eq.
  destruct (mkdir_processed E) as [e|]; unfold fail_if, raise_C.
  { cbn [snd total_lines processed_lines table length]. split; [lia|].
    split; [cbn; lia|discriminate]. }
  unfold mret at 1, C_ret at 1.
  pose proof (conversion_body_any E U (os_walk E logs_directory)) as (Bc & Bd & _).
  cbn zeta in Bc, Bd.
  assert (counts_ok (mk_conversion 0 0 [] [])) as H0 by (unfold counts_ok; cbn; lia).
  destruct (with_output_any E _ _ H0 Bc Bd) as [Wc Wd].
  destruct (finish_any E _ _ Wc Wd) as [[F1 F2] F3].
  split; [exact F1|]. split; [exact F2|]. intros _. exact F3.
Qed.

Lemma with_output_raises E (body : C unit) s e :
  fst (with_output E body s) = Raised e ->
  open_output E = Some e \/ (exists t, sink_fault E t SinkClose = Some e) \/
  fst (body s) = Raised e.
Proof.
  unfold with_output. destruct (open_output E) as [e0|].
  - cbn. intros [= <-]. auto.
  - destruct (body s) as [[[]|e0|] s1]; [| |discriminate];
      destruct (sink_fault E (table s1) SinkClose) as [e'|] eqn:Cl; cbn;
      try discriminate; intros [= <-]; eauto.
Qed.

Lemma finish_raises E (body : C unit) s e s' :
  (_ ← try_finally (try_except_C body (on_interrupt E)) (summary E); mret output_file) s
  = (Raised e, s') ->
  fst (body s) = Raised e /\ is_Exception e = true.
Proof.
  rewrite C_bind_eq. unfold try_finally, try_except_C.
  destruct (body s) as [[[]|e0|] s1].
  - rewrite summary_prints. discriminate.
  - destruct e0; unfold on_interrupt, raise_C;
      rewrite ?interrupt_prints, summary_prints; unfold mret, C_ret; cbn;
      try discriminate; intros [= <- _]; auto.
  - discriminate.
Qed.

(** X23.  An exception leaves the conversion only from the output or from
    the terminal: from the creation of the directory [processed_logs],
    from the opening of the table, from the writing of its header, from
    its closing, or from a [print] whose line the terminal cannot show,
    which is the line that names a file before it is read or the line that
    reports an exception of its reading.  Nothing else that goes wrong
    while a log is read or one of its rows is written leaves it: such an
    exception ends the file at hand with that line, and Ctrl-C ends the
    walk. *)
Theorem process_log_files_raises (E : logs_env) (U : ucd) (logs_directory : pystr)
  (e : exn) (s : conversion) :
  process_log_files E U logs_directory = (Raised e, s) ->
  mkdir_processed E = Some e \/
  (is_Exception e = true /\
   (open_output E = Some e \/
    sink_fault E [] (SinkRow csv_header) = Some e \/
    (exists t, sink_fault E t SinkClose = Some e) \/
    exists root names file,
      In (root, names) (os_walk E logs_directory) /\ In file names /\
      endswith file txt = true /\ print_fails E root file e)).
Proof.
  unfold process_log_files. rewrite C_bind_eq.
  destruct (mkdir_processed E) as [e0|]; unfold fail_if, raise_C.
  { intros [= <- _]. left. reflexivity. }
  unfold mret at 1, C_ret at 1. intros H. right.
  apply finish_raises in H as [H Ex]. split; [exact Ex|].
  apply with_output_raises in H as [H|[H|H]]; [auto|auto|].
  destruct (conversion_body_any E U (os_walk E logs_directory)) as (_ & _ & B).
  destruct (B e H) as [Hh|[Hn|Hp]]; [auto|congruence|auto].
Qed.

Lemma process_log_files_raises_witness :
  mkdir_processed misnamed = Some misnamed_error \/
  (is_Exception misnamed_error = true /\
   (open_output misnamed = Some misnamed_error \/
    sink_fault misnamed [] (SinkRow csv_header) = Some misnamed_error \/
    (exists t, sink_fault misnamed t SinkClose = Some misnamed_error) \/
    exists root names file,
      In (root, names) (os_walk misnamed (py "logs")) /\ In file names /\
      endswith file txt = true /\ print_fails misnamed root file misnamed_error)).
Proof.
  apply (process_log_files_raises misnamed ascii_only (py "logs") _
           (snd (process_log_files misnamed ascii_only (py "logs")))).
  vm_compute. reflexivity.
Defined.

(** X24.  The first field of the row written for a line reads back, in the
    format the line was read with, as the timestamp of the line: the table
    spells every timestamp as [YYYY-MM-DD HH:MM:SS], however the log
    spelled it, and loses nothing of it.  (For years from 1000 on; the C
    library of some platforms renders earlier years on fewer than four
    digits.) *)
Theorem csv_timestamp_reads_back (U : ucd) (O : text_stream)
  (line file_path : pystr) (row : chat_row) :
  snd (parse_chat_line U O line) = Returned (Some row) ->
  1000 <= year (row_timestamp row) ->
  exists rest,
    row_fields row file_path = strftime_Ymd_HMS (row_timestamp row) :: rest /\
    strptime U (strftime_Ymd_HMS (row_timestamp row)) fmt_Ymd_HMS
    = Returned (row_timestamp row).
Proof.
  intros H _. eexists. split; [reflexivity|].
  apply strptime_strftime_Ymd_HMS.
  unfold parse_chat_line in H.
  destruct (timestamp_re line) as [[ts rest]|]; [|discriminate].
  destruct (strptime U (strip U ts) fmt_Ymd_HMS) as [t|e|] eqn:P.
  - destruct (message_re U rest) as [[[ch user] msg]|]; [|discriminate].
    injection H as <-. cbn. eapply strptime_valid, P.
  - destruct (is_ValueError e); [destruct (print_raises O _)|]; discriminate.
  - discriminate.
Qed.

Lemma csv_timestamp_reads_back_witness :
  exists rest,
    row_fields (mk_row (mk_datetime 2023 5 1 9 5 3) (py "foo") (py "bar") (py "hi"))
               (py "logs/a.txt")
    = strftime_Ymd_HMS (mk_datetime 2023 5 1 9 5 3) :: rest /\
    strptime ascii_only (strftime_Ymd_HMS (mk_datetime 2023 5 1 9 5 3)) fmt_Ymd_HMS
    = Returned (mk_datetime 2023 5 1 9 5 3).
Proof.
  apply (csv_timestamp_reads_back ascii_only utf8
           (py "[2023-5-1  9:05:03] #foo bar: hi")
           (py "logs/a.txt")
           (mk_row (mk_datetime 2023 5 1 9 5 3) (py "foo") (py "bar") (py "hi"))).
  - vm_compute. reflexivity.
  - cbn. lia.
Defined.

(** ** The text of the table *)

Lemma csv_special_dquote : csv_special dquote = true.
Proof. reflexivity. Qed.

(** Inside quotes: the field ends at the first quote that is not
    doubled. *)
Lemma csv_escape_inj : forall f1 f2 y1 y2,
  csv_escape f1 ++ dquote :: y1 = csv_escape f2 ++ dquote :: y2 ->
  head y1 <> Some dquote -> head y2 <> Some dquote ->
  f1 = f2 /\ y1 = y2.
Proof.
  induction f1 as [|c f1 IH]; intros [|c' f2] y1 y2 H H1 H2; cbn [csv_escape app] in H.
  - injection H as ->. auto.
  - destruct (N.eqb_spec c' dquote) as [->|Hc].
    + injection H as ->. exfalso. apply H1. reflexivity.
    + injection H as <- _. congruence.
  - destruct (N.eqb_spec c dquote) as [->|Hc].
    + injection H as <-. exfalso. apply H2. reflexivity.
    + injection H as -> _. congruence.
  - destruct (N.eqb_spec c dquote) as [->|Hc], (N.eqb_spec c' dquote) as [->|Hc'].
    + injection H as H. destruct (IH f2 y1 y2 H H1 H2) as [-> ->]. auto.
    + injection H as <- _. congruence.
    + injection H as -> _. congruence.
    + injection H as -> H. destruct (IH f2 y1 y2 H H1 H2) as [-> ->]. auto.
Qed.

Lemma existsb_false_Forall (f : pystr) :
  existsb csv_special f = false -> Forall (fun c => ~ (csv_special c = true)) f.
Proof.
  induction f as [|c f IH]; cbn [existsb]; [constructor|].
  intros H. apply orb_false_iff in H as [Hc Hf].
  constructor; [congruence|auto].
Qed.

(** A field as written ends where the next delimiter or line end
    begins. *)
Lemma csv_field_inj f1 f2 c1 c2 y1 y2 :
  csv_field f1 ++ c1 :: y1 = csv_field f2 ++ c2 :: y2 ->
  csv_special c1 = true -> c1 <> dquote ->
  csv_special c2 = true -> c2 <> dquote ->
  f1 = f2 /\ c1 = c2 /\ y1 = y2.
Proof.
  unfold csv_field. intros H S1 N1 S2 N2.
  destruct (existsb csv_special f1) eqn:E1, (existsb csv_special f2) eqn:E2.
  - cbn [app] in H. injection H as H. rewrite <- !app_assoc in H. cbn [app] in H.
    destruct (csv_escape_inj _ _ _ _ H) as [-> [= -> ->]]; auto; cbn; congruence.
  - exfalso. apply existsb_false_Forall in E2. cbn [app] in H.
    destruct f2 as [|c f2]; cbn [app] in H; injection H as <- _.
    + congruence.
    + inversion E2 as [|? ? Hc _]; subst. apply Hc. reflexivity.
  - exfalso. apply existsb_false_Forall in E1. cbn [app] in H.
    destruct f1 as [|c f1]; cbn [app] in H; injection H as -> _.
    + congruence.
    + inversion E1 as [|? ? Hc _]; subst. apply Hc. reflexivity.
  - apply existsb_false_Forall in E1, E2.
    destruct (first_such (fun c => csv_special c = true) _ _ _ _ _ _ H E1 S1 E2 S2)
      as [-> ->].
    apply app_inv_head in H. injection H as ->. auto.
Qed.

Lemma csv_record_five a b c d e :
  csv_record [a; b; c; d; e]
  = csv_field a ++ comma :: csv_field b ++ comma :: csv_field c ++ comma ::
    csv_field d ++ comma :: csv_field e ++ [CR; LF].
Proof.
  unfold csv_record.
  destruct a; cbn [map join]; repeat (rewrite <- !app_assoc; cbn [app]); reflexivity.
Qed.

(** A record of five fields can be read back from the text, whatever
    follows it. *)
Lemma csv_record_inj r1 r2 y1 y2 :
  length r1 = 5%nat -> length r2 = 5%nat ->
  csv_record r1 ++ y1 = csv_record r2 ++ y2 -> r1 = r2 /\ y1 = y2.
Proof.
  intros L1 L2.
  destruct r1 as [|a1 [|b1 [|c1 [|d1 [|e1 [|]]]]]]; try discriminate.
  destruct r2 as [|a2 [|b2 [|c2 [|d2 [|e2 [|]]]]]]; try discriminate.
  rewrite !csv_record_five.
  repeat (rewrite <- !app_assoc; cbn [app]).
  intros H.
  apply csv_field_inj in H as (-> & _ & H); try reflexivity; try discriminate.
  apply csv_field_inj in H as (-> & _ & H); try reflexivity; try discriminate.
  apply csv_field_inj in H as (-> & _ & H); try reflexivity; try discriminate.
  apply csv_field_inj in H as (-> & _ & H); try reflexivity; try discriminate.
  apply csv_field_inj in H as (-> & _ & H); try reflexivity; try discriminate.
  injection H as ->. auto.
Qed.

(** Every row the conversion writes has the five fields of the header. *)
Lemma for_lines_columns E U file_path : forall lines s,
  five_columns (table s) -> five_columns (table (snd (for_lines E U file_path lines s))).
Proof.
  unfold five_columns. induction lines as [|line lines IH]; intros s Hs; [exact Hs|].
  cbn [for_lines]. rewrite C_bind_eq. unfold count_total.
  destruct (strip U line) as [|c l]; [apply IH; exact Hs|].
  rewrite C_bind_eq. unfold call_parse_chat_line.
  destruct (snd (parse_chat_line U (sys_stdout E) (c :: l))) as [o|e|];
    [|exact Hs|exact Hs].
  rewrite C_bind_eq. destruct o as [row|].
  - rewrite C_bind_eq. unfold count_processed, writerow.
    cbn [table total_lines processed_lines printed].
    destruct (sink_fault E (table s) _) as [e|]; [exact Hs|].
    rewrite C_bind_eq. unfold get_processed. rewrite C_bind_eq.
    cbn [table total_lines processed_lines printed].
    assert (Forall (fun fields => length fields = 5%nat)
                   (table s ++ [row_fields row file_path])) as Hs'
      by (apply Forall_app; split; [exact Hs|repeat constructor]).
    destruct (_ =? 0); unfold flush, mret, C_ret;
      cbn [table total_lines processed_lines printed];
      [destruct (sink_fault E _ SinkFlush); [exact Hs'|]|]; apply IH; exact Hs'.
  - unfold mret at 1, C_ret at 1. rewrite C_bind_eq. unfold get_processed.
    rewrite C_bind_eq. cbn [table total_lines processed_lines printed].
    destruct (_ =? 0); unfold flush, mret, C_ret;
      cbn [table total_lines processed_lines printed];
      [destruct (sink_fault E _ SinkFlush); [exact Hs|]|]; apply IH; exact Hs.
Qed.

Lemma process_file_columns E U root file s :
  five_columns (table s) -> five_columns (table (snd (process_file E U root file s))).
Proof.
  intros Hs. unfold process_file. rewrite C_bind_eq.
  destruct (print_out_cases E (py "Processing " ++ path_join E root file) s)
    as [->|[_ ->]]; [|exact Hs].
  unfold try_except_C. rewrite C_bind_eq.
  assert (forall e0 s1, five_columns (table s1) ->
            five_columns
              (table (snd (print_out E (py "Error processing " ++ file ++ py ": "
                                        ++ str_exn e0) s1)))) as Handler.
  { intros e0 s1 H1.
    destruct (print_out_cases E (py "Error processing " ++ file ++ py ": " ++ str_exn e0)
                s1) as [->|[_ ->]]; exact H1. }
  match goal with
  | |- context [for_lines E U ?p ?l ?s0] =>
      pose proof (for_lines_columns E U p l s0 Hs) as Hc;
      destruct (for_lines E U p l s0) as [[[]|e|] s1]
  end; cbn [snd] in Hc.
  - destruct (snd (read_lines E (path_join E root file))) as [e|]; cbn [fail_if].
    + unfold raise_C. destruct (is_Exception e); [apply Handler|]; exact Hc.
    + exact Hc.
  - destruct (is_Exception e); [apply Handler|]; exact Hc.
  - exact Hc.
Qed.

Lemma for_files_columns E U root : forall names s,
  five_columns (table s) -> five_columns (table (snd (for_files E U root names s))).
Proof.
  induction names as [|file names IH]; intros s Hs; [exact Hs|].
  cbn [for_files]. rewrite C_bind_eq. destruct (endswith file txt).
  - pose proof (process_file_columns E U root file s Hs) as Hc.
    destruct (process_file E U root file s) as [[[]|e|] s1]; cbn [snd] in Hc;
      [apply IH| |]; exact Hc.
  - apply IH. exact Hs.
Qed.

Lemma for_walk_columns E U : forall dirs s,
  five_columns (table s) -> five_columns (table (snd (for_walk E U dirs s))).
Proof.
  induction dirs as [|[root names] dirs IH]; intros s Hs; [exact Hs|].
  cbn [for_walk]. rewrite C_bind_eq.
  pose proof (for_files_columns E U root names s Hs) as Hc.
  destruct (for_files E U root names s) as [[[]|e|] s1]; cbn [snd] in Hc;
    [apply IH| |]; exact Hc.
Qed.

Lemma process_log_files_columns E U logs_directory :
  five_columns (table (snd (process_log_files E U logs_directory))).
Proof.
  unfold process_log_files. rewrite C_bind_eq.
  destruct (mkdir_processed E) as [e|]; unfold fail_if, raise_C; [constructor|].
  unfold mret at 1, C_ret at 1. rewrite C_bind_eq.
  unfold try_finally, try_except_C, with_output.
  assert (five_columns
            (table (snd ((_ ← writerow E csv_header;
                          for_walk E U (os_walk E logs_directory))
                           (mk_conversion 0 0 [] [])))) /\
          five_columns (table (mk_conversion 0 0 [] []))) as [B B0].
  { split; [|constructor]. rewrite C_bind_eq. unfold writerow.
    cbn [table total_lines processed_lines printed].
    destruct (sink_fault E [] (SinkRow csv_header)); [constructor|].
    apply for_walk_columns. repeat constructor. }
  destruct (open_output E) as [e|].
  - destruct e; unfold on_interrupt, raise_C;
      rewrite ?interrupt_prints, summary_prints; exact B0.
  - destruct ((_ ← writerow E csv_header; for_walk E U (os_walk E logs_directory))
                (mk_conversion 0 0 [] [])) as [[[]|e|] s1]; cbn [snd] in B;
      destruct (sink_fault E (table s1) SinkClose) as [e'|];
      try destruct e'; try destruct e; unfold on_interrupt, raise_C;
      rewrite ?interrupt_prints, ?summary_prints; exact B.
Qed.

(** X25.  The text of the table loses nothing.  Every table the conversion
    writes has five fields in each row, and two tables of five columns
    that are written as the same text are the same table: commas, quotes
    and line ends inside a message stay inside its field. *)
Theorem csv_text_injective :
  (forall E U logs_directory,
     five_columns (table (snd (process_log_files E U logs_directory)))) /\
  (forall t1 t2 : list (list pystr),
     five_columns t1 -> five_columns t2 -> csv_text t1 = csv_text t2 -> t1 = t2).
Proof.
  split; [exact process_log_files_columns|].
  unfold five_columns, csv_text. intros t1.
  induction t1 as [|r1 t1 IH]; intros [|r2 t2] F1 F2 H; cbn [map concat] in H.
  - reflexivity.
  - exfalso. inversion F2 as [|? ? L2 _]; subst.
    destruct r2 as [|a2 [|b2 [|c2 [|d2 [|e2 [|]]]]]]; try discriminate.
    rewrite csv_record_five in H.
    apply (f_equal (@length N)) in H. revert H.
    repeat (rewrite !length_app; cbn [length]). lia.
  - exfalso. inversion F1 as [|? ? L1 _]; subst.
    destruct r1 as [|a1 [|b1 [|c1 [|d1 [|e1 [|]]]]]]; try discriminate.
    rewrite csv_record_five in H.
    apply (f_equal (@length N)) in H. revert H.
    repeat (rewrite !length_app; cbn [length]). lia.
  - inversion F1 as [|? ? L1 F1']; inversion F2 as [|? ? L2 F2']; subst.
    destruct (csv_record_inj _ _ _ _ L1 L2 H) as [-> H'].
    f_equal. apply IH; assumption.
Qed.

Lemma csv_text_injective_witness :
  five_columns [csv_header; awkward_row] /\
  csv_text [csv_header; awkward_row] = csv_text [csv_header; awkward_row] /\
  [csv_header; awkward_row] = [csv_header; awkward_row].
Proof.
  assert (five_columns [csv_header; awkward_row]) as F by (repeat constructor).
  split; [exact F|]. split; [reflexivity|].
  exact (proj2 csv_text_injective [csv_header; awkward_row] [csv_header; awkward_row]
           F F eq_refl).
Defined.
